(** * honggfuzz, linux/ptrace_utils.c: crash analysis over ptrace

    A shallow embedding of the crash-analysis core of
    [linux/ptrace_utils.c]: the stack fingerprint ([arch_hashCallstack]),
    the sanitizer report parser ([arch_parseAsanReport]), the two save
    paths ([arch_ptraceSaveData], [arch_ptraceExitSaveData]) and the task
    enumeration ([arch_listThreads]); and of what surrounds it: the reader
    of the tracee's memory ([arch_getProcMem]), the instruction text
    ([arch_getInstrStr]), the analysis of a worker that does not save
    ([arch_ptraceAnalyzeData]), the dispatch on a wait status
    ([arch_ptraceAnalyze], [arch_ptraceEvent]), and attaching, waiting and
    detaching ([arch_ptraceAttach], [arch_ptraceWaitForPidStop],
    [arch_ptraceDetach]). The register reads ([arch_getPC], [arch_getLR],
    [arch_ptraceGetCustomPerf]) depend on the layout of the kernel's
    register structures and enter as observations.

    Conventions.
    - Fixed-width C integers are [Z] with the wrap-around written out
      ([u64], [u32], [s32]).
    - A C string is a [string]; a buffer that the code writes NUL bytes
      into is a [string] that may hold the character [NUL], and [cstr]
      reads the C string that starts it.
    - What the kernel, the unwinder and libc hand to the code at one stop
      event is a record of observations ([stop_t], [exit_t]); what the code
      changes is the record [world] (the shared [honggfuzz_t], the worker's
      [fuzzer_t], the files of the work directory and the list of calls
      made to collaborators).
    - Functions of the repository that live outside this file ([util_hash],
      [fastArray64Search], the symbol filters) and constants of [common.h]
      are variables of the section [Ptrace].
    - The line buffer of the report parser is a block of memory
      ([block_t]): its address and its bytes. A pointer into it is an
      address, the null pointer is 0 and pointer arithmetic is arithmetic
      on addresses of the width of a register; what [malloc] hands out
      enters as an observation ([getline_block]).
    - A load or a store outside the block, a read through the null
      pointer, and [getline] or [free] on a pointer that [malloc] did not
      return are the outcome [Fault]. *)

From Stdlib Require Import ZArith String Ascii List Bool Lia.
From stdpp Require Import base list strings gmap.

Local Open Scope Z_scope.

(** ** Machine integers *)

Definition u64 (x : Z) : Z := x mod 2 ^ 64.
Definition u32 (x : Z) : Z := x mod 2 ^ 32.
Definition u8 (x : Z) : Z := x mod 2 ^ 8.

(** [(int) x]: two's complement truncation to 32 bits. *)
Definition s32 (x : Z) : Z := (x + 2 ^ 31) mod 2 ^ 32 - 2 ^ 31.

Definition LONG_MAX : Z := 2 ^ 63 - 1.
Definition LONG_MIN : Z := - 2 ^ 63.
Definition ULLONG_MAX : Z := 2 ^ 64 - 1.

(** [__sync_fetch_and_add(&cnt, 1UL)] on a [size_t] counter. *)
Definition sync_fetch_and_add (cnt n : Z) : Z := u64 (cnt + n).
(** [__sync_fetch_and_and(&cnt, mask)]. *)
Definition sync_fetch_and_and (cnt mask : Z) : Z := Z.land cnt (u64 mask).

(** ** Target CPU, fixed when the file is compiled *)

Inductive cpu_t := I386 | X86_64 | ARM | AARCH64 | POWERPC | POWERPC64.

(** [sizeof(REG_TYPE)] *)
Definition REG_SIZE (c : cpu_t) : nat :=
  match c with
  | I386 | ARM | POWERPC => 4%nat
  | X86_64 | AARCH64 | POWERPC64 => 8%nat
  end.

(** [#define REGSIZEINCHAR (2 * sizeof(REG_TYPE) + 3)] *)
Definition REGSIZEINCHAR (c : cpu_t) : nat := (2 * REG_SIZE c + 3)%nat.

(** [(REG_TYPE) x] *)
Definition reg_cast (c : cpu_t) (x : Z) : Z := x mod 2 ^ (8 * Z.of_nat (REG_SIZE c)).

(** [defined(__arm__) || defined(__aarch64__)] *)
Definition is_arm (c : cpu_t) : bool :=
  match c with ARM | AARCH64 => true | _ => false end.

(** ** C strings *)

Definition NUL : ascii := "000"%char.

(** The C string at the start of a buffer: the bytes before the first NUL. *)
Fixpoint cstr (s : string) : string :=
  match s with
  | EmptyString => EmptyString
  | String c s' => if Ascii.eqb c NUL then EmptyString else String c (cstr s')
  end.

Definition strlen (s : string) : nat := String.length (cstr s).

Fixpoint str_drop (n : nat) (s : string) : string :=
  match n, s with
  | O, _ => s
  | S n', String _ s' => str_drop n' s'
  | S _, EmptyString => EmptyString
  end.

Fixpoint str_take (n : nat) (s : string) : string :=
  match n, s with
  | S n', String c s' => String c (str_take n' s')
  | _, _ => EmptyString
  end.

(** [buf[i] = c]; the caller has checked [i < String.length buf]. *)
Fixpoint str_set (i : nat) (c : ascii) (s : string) : string :=
  match s with
  | EmptyString => EmptyString
  | String d s' =>
      match i with
      | O => String c s'
      | S i' => String d (str_set i' c s')
      end
  end.

(** [strchr(s, c)] as an offset from [s]; [None] is the null pointer. *)
Fixpoint strchr_from (i : nat) (s : string) (c : ascii) : option nat :=
  match s with
  | EmptyString => None
  | String d s' =>
      if Ascii.eqb d NUL then None
      else if Ascii.eqb d c then Some i
      else strchr_from (S i) s' c
  end.
Definition strchr (s : string) (c : ascii) : option nat := strchr_from 0 s c.

(** [strrchr(s, c)]: the last occurrence. *)
Fixpoint strrchr_from (i : nat) (s : string) (c : ascii) (last : option nat) : option nat :=
  match s with
  | EmptyString => last
  | String d s' =>
      if Ascii.eqb d NUL then last
      else strrchr_from (S i) s' c (if Ascii.eqb d c then Some i else last)
  end.
Definition strrchr (s : string) (c : ascii) : option nat := strrchr_from 0 s c None.

(** [strstr(hay, needle)] as an offset from [hay]. *)
Definition strstr (hay needle : string) : option nat :=
  String.index 0 (cstr needle) (cstr hay).

(** [strncmp(a, b, n) == 0] *)
Definition strncmp_eq (a b : string) (n : nat) : bool :=
  String.eqb (str_take n (cstr a)) (str_take n (cstr b)).

(** [isspace] in the C locale. *)
Definition isspace (c : ascii) : bool :=
  let n := nat_of_ascii c in
  (n =? 32)%nat || ((9 <=? n)%nat && (n <=? 13)%nat).

(** Trim leading spaces: advance while the byte is not NUL and [isspace]. *)
Fixpoint skip_space (s : string) : string :=
  match s with
  | String c s' => if negb (Ascii.eqb c NUL) && isspace c then skip_space s' else s
  | EmptyString => EmptyString
  end.

(** ** printf conversions *)

Definition digit_char (d : Z) : ascii :=
  match String.get (Z.to_nat d) "0123456789abcdef" with
  | Some c => c
  | None => "?"%char
  end.

(** Digits of an unsigned value, most significant first, no leading zeros.
    Sixty-four rounds are enough for a 64-bit value in any base. *)
Fixpoint fmt_radix (fuel : nat) (base v : Z) (acc : string) : string :=
  match fuel with
  | O => acc
  | S fuel' =>
      let acc' := String (digit_char (v mod base)) acc in
      if v / base =? 0 then acc' else fmt_radix fuel' base (v / base) acc'
  end.

(** ["%lx"], ["%lu"], ["%d"] *)
Definition fmt_x (v : Z) : string := fmt_radix 64 16 v "".
Definition fmt_u (v : Z) : string := fmt_radix 64 10 v "".
Definition fmt_d (v : Z) : string :=
  if v <? 0 then String "-" (fmt_u (- v)) else fmt_u v.

Fixpoint zeros (n : nat) : string :=
  match n with O => EmptyString | S n' => String "0" (zeros n') end.

(** ["%0<w>lx"]: zero padding up to the minimum width. *)
Definition fmt_0x (w : nat) (v : Z) : string :=
  let d := fmt_x v in zeros (w - String.length d) +:+ d.

(** [snprintf(buf, size, ...)]: at most [size - 1] characters are kept. *)
Definition snprintf (size : nat) (s : string) : string := str_take (size - 1) s.

(** [REG_PD REG_PM] applied to [(REG_TYPE) (long) v]: ["0x%08x"] or
    ["0x%016lx"]. *)
Definition fmt_reg (c : cpu_t) (v : Z) : string :=
  "0x" +:+ fmt_0x (2 * REG_SIZE c) (reg_cast c v).

(** [snprintf(str, REGSIZEINCHAR, REG_PD REG_PM, (REG_TYPE) (long) v)] *)
Definition reg_str (c : cpu_t) (v : Z) : string :=
  snprintf (REGSIZEINCHAR c) (fmt_reg c v).

(** The line feed. *)
Definition LF : string := String "010" EmptyString.

(** [&str[strlen(str) - 3]], read as three bytes. *)
Definition last3 (s : string) : string :=
  str_take 3 (str_drop (strlen s - 3) s).

(** ** Frames *)

Record funcs_t := mk_funcs { pc : Z; func : string; line : Z }.

(** An entry of [funcs_t funcs[_HF_MAX_FUNCS] = { ... }] as initialised. *)
Definition funcs_zero : funcs_t := {| pc := 0; func := ""; line := 0 |}.

(** [funcs[i]] of an array whose tail still holds the initial entries. *)
Definition funcs_get (funcs : list funcs_t) (i : nat) : funcs_t :=
  default funcs_zero (funcs !! i).

(** [funcs[i] = f] *)
Definition funcs_set (funcs : list funcs_t) (i : nat) (f : funcs_t) : list funcs_t :=
  <[i := f]> (funcs ++ replicate (S i - length funcs) funcs_zero).


(** ** strtoull, strtol, strtok_r *)

Definition digit_val (c : ascii) : option Z :=
  let n := Z.of_nat (nat_of_ascii c) in
  if (48 <=? n) && (n <=? 57) then Some (n - 48)
  else if (97 <=? n) && (n <=? 122) then Some (n - 87)
  else if (65 <=? n) && (n <=? 90) then Some (n - 55)
  else None.

(** The value of the longest run of digits of [base] that starts [s];
    [acc] is [None] until a digit has been read. *)
Fixpoint digits_val (base : Z) (s : string) (acc : option Z) : option Z :=
  match s with
  | EmptyString => acc
  | String c s' =>
      match digit_val c with
      | Some d =>
          if d <? base then digits_val base s' (Some (default 0 acc * base + d))
          else acc
      | None => acc
      end
  end.

(** White space, an optional sign, for base 16 an optional [0x], digits. *)
Definition strto_subject (base : Z) (s : string) : bool * option Z :=
  let s1 := skip_space s in
  let '(neg, s2) :=
    match s1 with
    | String "-" r => (true, r)
    | String "+" r => (false, r)
    | _ => (false, s1)
    end in
  let s3 :=
    match s2 with
    | String "0" (String x (String h r)) =>
        if (base =? 16) && (Ascii.eqb x "x" || Ascii.eqb x "X")
           && match digit_val h with Some d => d <? 16 | None => false end
        then String h r else s2
    | _ => s2
    end in
  (neg, digits_val base s3 None).

(** [strtoull(s, NULL, base)] *)
Definition strtoull (s : string) (base : Z) : Z :=
  match strto_subject base s with
  | (_, None) => 0
  | (neg, Some v) =>
      if ULLONG_MAX <? v then ULLONG_MAX
      else if neg then u64 (- v) else v
  end.

(** [strtol(s, NULL, base)] *)
Definition strtol (s : string) (base : Z) : Z :=
  match strto_subject base s with
  | (_, None) => 0
  | (true, Some v) => if - v <? LONG_MIN then LONG_MIN else - v
  | (false, Some v) => if LONG_MAX <? v then LONG_MAX else v
  end.

Definition SP : ascii := " "%char.

(** [strspn(s, " ")] *)
Fixpoint strspn_sp (s : string) : nat :=
  match s with
  | String c s' => if Ascii.eqb c SP then S (strspn_sp s') else O
  | EmptyString => O
  end.

(** [strcspn(s, " ")] *)
Fixpoint strcspn_sp (s : string) : nat :=
  match s with
  | String c s' => if Ascii.eqb c NUL || Ascii.eqb c SP then O else S (strcspn_sp s')
  | EmptyString => O
  end.

(** [mem[i]] *)
Definition byte_at (mem : string) (i : nat) : ascii := default NUL (String.get i mem).

(** [strtok_r(s, " ", &savePtr)] over the bytes [mem], [s] (or [*savePtr],
    when the first argument is null) being an offset into them: the token
    as an offset ([None] is the null pointer), the new [savePtr], and the
    bytes after the call, which writes a NUL over the delimiter that ends
    the token. *)
Definition strtok_r (mem : string) (s : nat) : option nat * nat * string :=
  let s := (s + strspn_sp (str_drop s mem))%nat in
  if Ascii.eqb (byte_at mem s) NUL then (None, s, mem)
  else
    let e := (s + strcspn_sp (str_drop s mem))%nat in
    if Ascii.eqb (byte_at mem e) NUL then (Some s, e, mem)
    else (Some s, S e, str_set e NUL mem).
(** ** Shared state *)

(** The fields of [honggfuzz_t] that this file reads or updates. The last
    four are the process-wide counters. *)
Record honggfuzz_t := mk_honggfuzz {
  workDir : string;
  fileExtn : string;
  ignoreAddr : Z;
  saveUnique : bool;
  useSanCov : bool;
  disableRandomization : bool;
  (** [flipRate == 0.0L] *)
  flipRate_is_zero : bool;
  useVerifier : bool;
  saveMaps : bool;
  numMajorFrames : nat;
  (** [None] is the null pointer: no list was configured. *)
  symbolsWhitelist : option (list string);
  symbolsBlacklist : option (list string);
  blacklist : option (list Z);
  blacklistCnt : Z;
  crashesCnt : Z;
  uniqueCrashesCnt : Z;
  blCrashesCnt : Z;
  dynFileIterExpire : Z
}.

(** The fields of the worker's [fuzzer_t]. An empty [crashFileName] is
    [crashFileName[0] == '\0']. *)
Record fuzzer_t := mk_fuzzer {
  fileName : string;
  origFileName : string;
  crashFileName : string;
  backtrace : Z;
  sanCovCnts_crashesCnt : Z;
  report : string;
  mainWorker : bool
}.

Definition set_crashesCnt (h : honggfuzz_t) (v : Z) : honggfuzz_t :=
  mk_honggfuzz (workDir h) (fileExtn h) (ignoreAddr h) (saveUnique h) (useSanCov h)
    (disableRandomization h) (flipRate_is_zero h) (useVerifier h) (saveMaps h)
    (numMajorFrames h) (symbolsWhitelist h) (symbolsBlacklist h) (blacklist h)
    (blacklistCnt h) v (uniqueCrashesCnt h) (blCrashesCnt h) (dynFileIterExpire h).

Definition set_uniqueCrashesCnt (h : honggfuzz_t) (v : Z) : honggfuzz_t :=
  mk_honggfuzz (workDir h) (fileExtn h) (ignoreAddr h) (saveUnique h) (useSanCov h)
    (disableRandomization h) (flipRate_is_zero h) (useVerifier h) (saveMaps h)
    (numMajorFrames h) (symbolsWhitelist h) (symbolsBlacklist h) (blacklist h)
    (blacklistCnt h) (crashesCnt h) v (blCrashesCnt h) (dynFileIterExpire h).

Definition set_blCrashesCnt (h : honggfuzz_t) (v : Z) : honggfuzz_t :=
  mk_honggfuzz (workDir h) (fileExtn h) (ignoreAddr h) (saveUnique h) (useSanCov h)
    (disableRandomization h) (flipRate_is_zero h) (useVerifier h) (saveMaps h)
    (numMajorFrames h) (symbolsWhitelist h) (symbolsBlacklist h) (blacklist h)
    (blacklistCnt h) (crashesCnt h) (uniqueCrashesCnt h) v (dynFileIterExpire h).

Definition set_dynFileIterExpire (h : honggfuzz_t) (v : Z) : honggfuzz_t :=
  mk_honggfuzz (workDir h) (fileExtn h) (ignoreAddr h) (saveUnique h) (useSanCov h)
    (disableRandomization h) (flipRate_is_zero h) (useVerifier h) (saveMaps h)
    (numMajorFrames h) (symbolsWhitelist h) (symbolsBlacklist h) (blacklist h)
    (blacklistCnt h) (crashesCnt h) (uniqueCrashesCnt h) (blCrashesCnt h) v.

Definition set_crashFileName (f : fuzzer_t) (v : string) : fuzzer_t :=
  mk_fuzzer (fileName f) (origFileName f) v (backtrace f) (sanCovCnts_crashesCnt f)
    (report f) (mainWorker f).

Definition set_backtrace (f : fuzzer_t) (v : Z) : fuzzer_t :=
  mk_fuzzer (fileName f) (origFileName f) (crashFileName f) v (sanCovCnts_crashesCnt f)
    (report f) (mainWorker f).

Definition set_sanCovCnts_crashesCnt (f : fuzzer_t) (v : Z) : fuzzer_t :=
  mk_fuzzer (fileName f) (origFileName f) (crashFileName f) (backtrace f) v
    (report f) (mainWorker f).

Definition set_report (f : fuzzer_t) (v : string) : fuzzer_t :=
  mk_fuzzer (fileName f) (origFileName f) (crashFileName f) (backtrace f)
    (sanCovCnts_crashesCnt f) v (mainWorker f).

(** Calls to collaborators, in the order they are made. A copy is logged
    with what [files_copyFile] returns and leaves in [dstExists]. *)
Inductive call_t :=
| Call_btContainsWLSymbol
| Call_fastArray64Search (key : Z)
| Call_btContainsBLSymbol
| Call_copyFile (src dst : string) (ret dstExists : bool)
| Call_procMapsToFile (dst : string)
| Call_parseAsanReport (path : string)
| Call_unlink (path : string).

(** Everything the two save paths can change. *)
Record world := mk_world {
  w_hfuzz : honggfuzz_t;
  w_fuzzer : fuzzer_t;
  (** the files that exist in the work directory *)
  w_files : gset string;
  w_calls : list call_t
}.

(** [p != NULL] *)
Definition is_set {A : Type} (p : option A) : bool :=
  match p with Some _ => true | None => false end.

Inductive outcome (A : Type) :=
| Done (a : A)
| Fault.
Arguments Done {A} a.
Arguments Fault {A}.

(** ** The signal table *)

Definition SIGILL : Z := 4.
Definition SIGTRAP : Z := 5.
Definition SIGABRT : Z := 6.
Definition SIGBUS : Z := 7.
Definition SIGFPE : Z := 8.
Definition SIGSEGV : Z := 11.

(** [arch_sigs[signo].descr] *)
Definition arch_sigs_descr (signo : Z) : string :=
  if signo =? SIGTRAP then "SIGTRAP"
  else if signo =? SIGILL then "SIGILL"
  else if signo =? SIGFPE then "SIGFPE"
  else if signo =? SIGSEGV then "SIGSEGV"
  else if signo =? SIGBUS then "SIGBUS"
  else if signo =? SIGABRT then "SIGABRT"
  else "UNKNOWN".

(** [arch_sigs[signo].important]; [SIGABRT] is not monitored on Android. *)
Definition arch_sigs_important (android : bool) (signo : Z) : bool :=
  (signo =? SIGILL) || (signo =? SIGFPE) || (signo =? SIGSEGV) || (signo =? SIGBUS)
  || ((signo =? SIGABRT) && negb android).

(** [#define SI_FROMUSER(siptr) ((siptr)->si_code <= 0)] *)
Definition SI_FROMUSER (si_code : Z) : bool := si_code <=? 0.

(** [#define NMAJORFRAMES 7] *)
Definition NMAJORFRAMES : nat := 7.

(** [#define MAX_THREAD_IN_TASK 4096] *)
Definition MAX_THREAD_IN_TASK : nat := 4096.

(** Modelled from the spec: [_HF_MAX_FUNCS] of [common.h], the capacity of a
    call stack ("up to MAX_FRAMES (default 80) frames"). *)
Definition _HF_MAX_FUNCS : nat := 80.

(** Modelled from the spec: [sizeof(funcs[i].func)], that is
    [_HF_FUNC_NAME_SZ] of [common.h] ("symbol: bounded string, default 64"). *)
Definition _HF_FUNC_NAME_SZ : nat := 64.

(** [PATH_MAX] of the Linux headers, the size of [crashFileName]. *)
Definition PATH_MAX : nat := 4096.


(** ** Observations *)

(** What the kernel, the unwinder and libc report at one signal stop. *)
Record stop_t := mk_stop {
  st_pid : Z;
  (** [siginfo_t si], all zero when [PT_GETSIGINFO] fails *)
  st_si_signo : Z;
  st_si_code : Z;
  st_si_addr : Z;
  (** [pc] and [instr] as [arch_getInstrStr] leaves them *)
  st_pc : Z;
  st_instr : string;
  (** the frames [arch_unwindStack] and [arch_bfdResolveSyms] fill in *)
  st_unwind : list funcs_t;
  (** [arch_getLR]: [None] when it returns 0 *)
  st_lr : option Z;
  (** [util_getLocalTime("%F.%H:%M:%S", ...)] *)
  st_localtime : string;
  st_copy_ok : bool;
  st_maps_ok : bool
}.

(** What is observed when a tracee leaves with a sanitizer exit code. *)
Record exit_t := mk_exit {
  ex_pid : Z;
  ex_exitCode : Z;
  (** the lines of [<workDir>/<kLOGPREFIX>.<pid>], [None] when it cannot be
      opened *)
  ex_log : option (list string);
  ex_localtime : string;
  ex_copy_ok : bool
}.

(** ** State of the report parser *)

(** The block that [getline] reads into: the address [malloc] or [realloc]
    returned and the bytes the block holds. Pointers are addresses; a
    pointer into the block is the base plus an offset into [b_bytes]. *)
Record block_t := mk_block {
  b_base : Z;
  b_bytes : string
}.

(** The offset of the address [p] in the block, [None] when [p] lies
    outside. *)
Definition block_off (b : block_t) (p : Z) : option nat :=
  if (b_base b <=? p) && (p <? b_base b + Z.of_nat (String.length (b_bytes b)))
  then Some (Z.to_nat (p - b_base b))
  else None.

(** [*p = c]; a store outside the block is not defined. *)
Definition block_store (b : block_t) (p : Z) (c : ascii) : outcome block_t :=
  match block_off b p with
  | Some i => Done (mk_block (b_base b) (str_set i c (b_bytes b)))
  | None => Fault
  end.

Fixpoint has_nul (s : string) : bool :=
  match s with
  | EmptyString => false
  | String c s' => Ascii.eqb c NUL || has_nul s'
  end.

(** The C string at [p]; it has to end inside the block. *)
Definition block_cstr (b : block_t) (p : Z) : outcome string :=
  match block_off b p with
  | Some i =>
      if has_nul (str_drop i (b_bytes b)) then Done (cstr (str_drop i (b_bytes b)))
      else Fault
  | None => Fault
  end.

(** The [n] bytes from [p] on, as [memcpy] reads them. *)
Definition block_read (b : block_t) (p : Z) (n : nat) : outcome string :=
  if (n =? 0)%nat then Done EmptyString
  else
    match block_off b p, block_off b (p + Z.of_nat n - 1) with
    | Some i, Some _ => Done (str_take n (str_drop i (b_bytes b)))
    | _, _ => Fault
    end.

(** A pointer from what a search in the bytes at [base] returns: null when
    nothing was found. *)
Definition ptr_of (base : Z) (found : option nat) : Z :=
  match found with
  | Some i => base + Z.of_nat i
  | None => 0
  end.

(** The locals of [arch_parseAsanReport] that live across lines, together
    with what it writes through [funcs], [crashAddr] and [op]. [a_block] is
    the block [lineptr] points into ([None] while [lineptr] is null) and
    [lineptr] is how far the pointer stands behind the start of that block;
    [cAddr] is an address, 0 for the null pointer. *)
Record asan_t := mk_asan {
  headerFound : bool;
  frameIdx : Z;
  framePrefix : string;
  a_block : option block_t;
  lineptr : nat;
  cAddr : Z;
  crashAddr : Z;
  op : string;
  a_funcs : list funcs_t
}.

(** How one round of [for (;;)] ends. *)
Inductive round_t :=
| Continue (a : asan_t)
| Break (a : asan_t)
| Faulted.

(** ** Task enumeration *)

(** What [readdir_r] hands back: an error, or an entry. The end of the
    stream is the end of the list. *)
Inductive readdir_t :=
| Readdir_error
| Readdir_entry (d_name : string).

(** [a[i] = v] on an array of [length a] entries. *)
Definition array_store (a : list Z) (i : nat) (v : Z) : outcome (list Z) :=
  if (i <? length a)%nat then Done (<[i := v]> a) else Fault.

(** The [for (;;)] loop of [arch_listThreads], entered with [count] tasks
    stored: the array as left and the final [count], or [None] for the
    [return false] taken when [readdir_r] fails. *)
Fixpoint listThreads_loop (ents : list readdir_t) (tasks : list Z) (thrSz count : nat)
    : outcome (list Z * option nat) :=
  match ents with
  | [] => Done (tasks, Some count)
  | Readdir_error :: _ => Done (tasks, None)
  | Readdir_entry d_name :: ents' =>
      let pid := s32 (strtol d_name 10) in
      if pid =? 0 then listThreads_loop ents' tasks thrSz count
      else
        match array_store tasks count pid with
        | Fault => Fault
        | Done tasks' =>
            if (thrSz <=? S count)%nat then Done (tasks', Some (S count))
            else listThreads_loop ents' tasks' thrSz (S count)
        end
  end.

(** Where [arch_listThreads] writes the terminating zero. *)
Definition listThreads_zero_index (count : nat) : nat := (count + 1)%nat.

(** [arch_listThreads(tasks, thrSz, pid)]; [dir] is what [opendir] and the
    successive [readdir_r] calls return for [/proc/<pid>/task]. The result
    is the returned flag and the array as left. *)
Definition arch_listThreads (tasks : list Z) (thrSz : nat) (dir : option (list readdir_t))
    : outcome (bool * list Z) :=
  match dir with
  | None => Done (false, tasks)
  | Some ents =>
      match listThreads_loop ents tasks thrSz 0 with
      | Fault => Fault
      | Done (tasks', None) => Done (false, tasks')
      | Done (tasks', Some count) =>
          match array_store tasks' (listThreads_zero_index count) 0 with
          | Fault => Fault
          | Done tasks'' => Done (negb (count <? 1)%nat, tasks'')
          end
      end
  end.

(** The directory entries that [strtol] turns into a task id. *)
Definition numeric_entry (e : readdir_t) : bool :=
  match e with
  | Readdir_error => false
  | Readdir_entry d_name => negb (s32 (strtol d_name 10) =? 0)
  end.

Definition readdir_ok (e : readdir_t) : bool :=
  match e with Readdir_error => false | Readdir_entry _ => true end.

(** The number of threads a directory stream lists. *)
Definition numeric_count (ents : list readdir_t) : nat :=
  length (List.filter numeric_entry ents).

(** The rounds of [for (int i = 0; i < MAX_THREAD_IN_TASK && tasks[i]; i++)]
    in [arch_ptraceAttach]: the tasks seized besides [pid] itself. [seize]
    tells whether [ptrace(PTRACE_SEIZE, tid, ...)] succeeds. *)
Fixpoint attach_loop (fuel : nat) (tasks : list Z) (pid : Z) (seize : Z -> bool) (i : nat)
    : list Z :=
  match fuel with
  | O => []
  | S fuel' =>
      if (i <? MAX_THREAD_IN_TASK)%nat then
        match tasks !! i with
        | Some t =>
            if t =? 0 then []
            else if t =? pid then attach_loop fuel' tasks pid seize (S i)
            else if seize t then t :: attach_loop fuel' tasks pid seize (S i)
            else attach_loop fuel' tasks pid seize (S i)
        | None => []
        end
      else []
  end.

(** [arch_ptraceAttach(pid)]: the returned flag and the tasks seized. *)
Definition arch_ptraceAttach (pid : Z) (seize : Z -> bool) (dir : option (list readdir_t))
    : outcome (bool * list Z) :=
  if negb (seize pid) then Done (false, [])
  else
    match arch_listThreads (replicate (MAX_THREAD_IN_TASK + 1) 0) MAX_THREAD_IN_TASK dir with
    | Fault => Fault
    | Done (false, _) => Done (false, [pid])
    | Done (true, tasks) =>
        Done (true, pid :: attach_loop MAX_THREAD_IN_TASK tasks pid seize 0)
    end.
(** ** Wait statuses *)

(** [(signed char) x] *)
Definition s8 (x : Z) : Z := (x + 2 ^ 7) mod 2 ^ 8 - 2 ^ 7.

(** The macros of [<sys/wait.h>], as glibc writes them, on the [int] that
    [wait4] stores and on the [unsigned long] of [PTRACE_GETEVENTMSG]. *)
Definition WTERMSIG (status : Z) : Z := Z.land status 0x7f.
Definition WEXITSTATUS (status : Z) : Z := Z.shiftr (Z.land status 0xff00) 8.
Definition WSTOPSIG (status : Z) : Z := WEXITSTATUS status.
Definition WIFEXITED (status : Z) : bool := WTERMSIG status =? 0.
(** [((signed char) ((status & 0x7f) + 1) >> 1) > 0] *)
Definition WIFSIGNALED (status : Z) : bool :=
  0 <? Z.shiftr (s8 (Z.land status 0x7f + 1)) 1.
Definition WIFSTOPPED (status : Z) : bool := Z.land status 0xff =? 0x7f.
Definition WIFCONTINUED (status : Z) : bool := status =? 0xffff.

(** [#define WIFCONTINUED(x) WEXITSTATUS(0)], which the file supplies on
    Android when the header has no [WIFCONTINUED]. *)
Definition WIFCONTINUED_fallback (x : Z) : bool := negb (WEXITSTATUS 0 =? 0).

(** [#define __WEVENT(status) ((status & 0xFF0000) >> 16)] *)
Definition __WEVENT (status : Z) : Z := Z.shiftr (Z.land status 0xFF0000) 16.

(** [PTRACE_EVENT_EXIT] of [<sys/ptrace.h>] and [NSIG] of [<signal.h>], the
    number of entries of [arch_sigs]. *)
Definition PTRACE_EVENT_EXIT : Z := 6.
Definition NSIG : Z := 65.

(** What one [wait4(pid, &status, __WALL | WUNTRACED, NULL)] returns: -1
    with [errno == EINTR], -1 with another [errno], or a status. *)
Inductive wait4_t :=
| Wait_EINTR
| Wait_error
| Wait_status (status : Z).

(** [arch_ptraceWaitForPidStop(pid)] over the answers of the successive
    [wait4] calls; [None] while every call so far was interrupted. *)
Fixpoint arch_ptraceWaitForPidStop (rets : list wait4_t) : option bool :=
  match rets with
  | [] => None
  | Wait_EINTR :: rets' => arch_ptraceWaitForPidStop rets'
  | Wait_error :: _ => Some false
  | Wait_status status :: _ => Some (WIFSTOPPED status)
  end.

(** ** Detaching *)

(** The task ids a directory stream yields, in its order. *)
Definition task_ids (ents : list readdir_t) : list Z :=
  omap (fun e =>
          match e with
          | Readdir_error => None
          | Readdir_entry d_name =>
              let pid := s32 (strtol d_name 10) in
              if pid =? 0 then None else Some pid
          end) ents.

(** The rounds of [for (int i = 0; i < MAX_THREAD_IN_TASK && tasks[i]; i++)]
    in [arch_ptraceDetach]: the tasks that get [PTRACE_INTERRUPT], a wait
    and [PTRACE_DETACH], in order. *)
Fixpoint detach_loop (fuel : nat) (tasks : list Z) (i : nat) : list Z :=
  match fuel with
  | O => []
  | S fuel' =>
      if (i <? MAX_THREAD_IN_TASK)%nat then
        match tasks !! i with
        | Some t => if t =? 0 then [] else t :: detach_loop fuel' tasks (S i)
        | None => []
        end
      else []
  end.

(** [arch_ptraceDetach(pid)]: the tasks detached. [gone] tells whether
    [kill(pid, 0)] fails with [ESRCH]. *)
Definition arch_ptraceDetach (gone : bool) (dir : option (list readdir_t))
    : outcome (list Z) :=
  if gone then Done []
  else
    match arch_listThreads (replicate (MAX_THREAD_IN_TASK + 1) 0) MAX_THREAD_IN_TASK dir with
    | Fault => Fault
    | Done (false, _) => Done []
    | Done (true, tasks) => Done (detach_loop MAX_THREAD_IN_TASK tasks 0)
    end.

(** ** Instruction text *)

(** [isprint] in the C locale; no byte above 126 is printable. *)
Definition isprint (c : ascii) : bool :=
  let n := nat_of_ascii c in (32 <=? n)%nat && (n <=? 126)%nat.

(** The body of the loop that ends [arch_getInstrStr]. *)
Definition instr_char (c : ascii) : ascii :=
  if Ascii.eqb c "/" || Ascii.eqb c "\" || isspace c || negb (isprint c)
  then "_"%char else c.

(** [for (int x = 0; instr[x] && x < _HF_INSTR_SZ; x++)] with [n] rounds
    left before [x] reaches [_HF_INSTR_SZ]. *)
Fixpoint instr_sanitize (n : nat) (instr : string) {struct instr} : string :=
  match instr with
  | EmptyString => EmptyString
  | String c instr' =>
      if Ascii.eqb c NUL then instr
      else
        match n with
        | O => instr
        | S n' => String (instr_char c) (instr_sanitize n' instr')
        end
  end.

(** [MAX_INSTR_SZ] *)
Definition MAX_INSTR_SZ (c : cpu_t) : nat :=
  match c with
  | I386 | X86_64 => 16%nat
  | ARM | POWERPC | POWERPC64 => 4%nat
  | AARCH64 => 8%nat
  end.

(** [memcpy(&buf[off], src, length src)] *)
Definition memcpy_at (buf : list Z) (off : nat) (src : list Z) : list Z :=
  take off buf ++ src ++ drop (off + length src) buf.

(** What the kernel, the disassembler and the stack hold when
    [arch_getInstrStr] runs. Memory is a list of bytes. *)
Record instr_t := mk_instr {
  (** what [arch_getPC] returns and stores in [*pc] *)
  in_pcRegSz : Z;
  in_pc : Z;
  (** [process_vm_readv]: the bytes it copies, [None] when it returns -1 *)
  in_readv : option (list Z);
  (** [errno] when the word loop of [arch_getProcMem] is entered *)
  in_errno : Z;
  (** [ptrace(PT_READ_D, pid, addr, NULL)]: the bytes of the word at [addr],
      [None] when the call fails and sets [errno] *)
  in_peek : Z -> option (list Z);
  (** [uint8_t buf[MAX_INSTR_SZ]] as declared, not initialised *)
  in_buf : list Z;
  (** the text [arch_bfdDisasm(pid, buf, memsz, instr)] leaves in [instr] *)
  in_bfd : list Z -> nat -> string;
  (** [insn[0].mnemonic] and [insn[0].op_str], [None] when [cs_open] or
      [cs_disasm] fails *)
  in_capstone : list Z -> option (string * string)
}.

(** ** Stop events *)

(** How [arch_ptraceAnalyze] leaves the tracee: the state of the fuzzer and
    the signal of the [PT_CONTINUE] request if one is made, or [abort()]. *)
Inductive analysed_t :=
| Analysed (w : world) (cont : option Z)
| Aborted.

(** What is observed while one wait status is handled. *)
Record event_t := mk_event {
  (** [PTRACE_GETEVENTMSG]: [None] when it fails *)
  ev_msg : option Z;
  (** what the signal paths observe *)
  ev_stop : stop_t;
  (** [arch_getPC] in [arch_ptraceAnalyzeData] *)
  ev_pcRegSz : Z;
  (** what the sanitizer exit path observes *)
  ev_exit : exit_t
}.

(** The observations of a signal stop of [pid]. *)
Definition stop_at (pid : Z) (st : stop_t) : stop_t :=
  mk_stop pid (st_si_signo st) (st_si_code st) (st_si_addr st) (st_pc st) (st_instr st)
    (st_unwind st) (st_lr st) (st_localtime st) (st_copy_ok st) (st_maps_ok st).

(** The observations of an exit of [pid] with [exitCode]. *)
Definition exit_at (pid exitCode : Z) (ex : exit_t) : exit_t :=
  mk_exit pid exitCode (ex_log ex) (ex_localtime ex) (ex_copy_ok ex).

(** ** Clean instruction text *)

(** A character that may stand in the [INSTR] part of a crash file name. *)
Definition instr_clean (c : ascii) : bool :=
  isprint c && negb (isspace c) && negb (Ascii.eqb c "/") && negb (Ascii.eqb c "\").

Fixpoint str_forall (p : ascii -> bool) (s : string) : bool :=
  match s with
  | EmptyString => true
  | String c s' => p c && str_forall p s'
  end.

(** ** Instances and inputs used to run the model *)

Module Sample.

(** A [util_hash]: byte-wise add, shift-add and shift-xor mixing on 64 bits. *)
Fixpoint mix_hash (s : string) (ret : Z) : Z :=
  match s with
  | EmptyString => ret
  | String c s' =>
      let ret := u64 (ret + Z.of_nat (nat_of_ascii c)) in
      let ret := u64 (ret + Z.shiftl ret 10) in
      let ret := Z.lxor ret (Z.shiftr ret 6) in
      mix_hash s' ret
  end.
Definition util_hash (s : string) : Z := mix_hash s 0.

(** A [fastArray64Search]: binary search between [low] and [high]. *)
Fixpoint bsearch (fuel : nat) (array : list Z) (low high key : Z) : Z :=
  match fuel with
  | O => -1
  | S fuel' =>
      if high <? low then -1
      else
        let mid := low + (high - low) / 2 in
        match array !! Z.to_nat mid with
        | None => -1
        | Some v =>
            if v <? key then bsearch fuel' array (mid + 1) high key
            else if key <? v then bsearch fuel' array low (mid - 1) key
            else mid
        end
  end.
Definition fastArray64Search (array : list Z) (arraySz key : Z) : Z :=
  bsearch (S (Z.to_nat arraySz)) array 0 (arraySz - 1) key.

(** A symbol filter: the first frame whose symbol is in the list. *)
Definition btContainsSymbol (symbols : option (list string)) (funcCnt : nat)
    (funcs : list funcs_t) : option string :=
  match symbols with
  | None => None
  | Some l =>
      func <$> List.find (fun f => existsb (String.eqb (func f)) l) (take funcCnt funcs)
  end.
Definition arch_btContainsWLSymbol (hfuzz : honggfuzz_t) :=
  btContainsSymbol (symbolsWhitelist hfuzz).
Definition arch_btContainsBLSymbol (hfuzz : honggfuzz_t) :=
  btContainsSymbol (symbolsBlacklist hfuzz).

(** A [util_ssnprintf]: append what fits in the buffer. *)
Definition util_ssnprintf (buf : string) (size : nat) (s : string) : string :=
  snprintf size (buf +:+ snprintf size s).

(** ["%p"] as glibc prints it. *)
Definition fmt_p (v : Z) : string :=
  if v =? 0 then "(nil)" else "0x" +:+ fmt_x v.

(** Modelled from the spec: [_HF_SINGLE_FRAME_MASK] of [common.h] ("reserved
    bit SINGLE_FRAME_MASK (high bit)") and [_HF_DYNFILE_SUB_MASK] ("clear
    the two most significant bits of dyn_iter_expire"). *)
Definition _HF_SINGLE_FRAME_MASK : Z := 2 ^ 63.
Definition _HF_DYNFILE_SUB_MASK : Z := 2 ^ 62 - 1.
Definition _HF_REPORT_SIZE : nat := Z.to_nat 8192.
Definition kLOGPREFIX : string := "HF.sanitizer.log".
Definition HF_MSAN_EXIT_CODE : Z := 103.
Definition HF_ASAN_EXIT_CODE : Z := 104.
Definition HF_UBSAN_EXIT_CODE : Z := 105.

(** A world: unique crashes, randomization off, no symbol lists; the fault
    address floor, the stack-hash black list, the worker's crash file name
    and stack hash, and the files of the work directory are given. *)
Definition world_of (ignoreAddr : Z) (blacklist : list Z) (crashFileName : string)
    (backtrace : Z) (files : gset string) : world :=
  {| w_hfuzz :=
       {| workDir := "/tmp/w"; fileExtn := "fuzz"; ignoreAddr := ignoreAddr;
          saveUnique := true; useSanCov := false; disableRandomization := true;
          flipRate_is_zero := false; useVerifier := false; saveMaps := false;
          numMajorFrames := NMAJORFRAMES;
          symbolsWhitelist := None; symbolsBlacklist := None;
          blacklist := match blacklist with [] => None | _ => Some blacklist end;
          blacklistCnt := Z.of_nat (length blacklist);
          crashesCnt := 0; uniqueCrashesCnt := 0; blCrashesCnt := 0;
          dynFileIterExpire := 0 |};
     w_fuzzer :=
       {| fileName := "/tmp/w/.honggfuzz.1.fuzz"; origFileName := "seed.bin";
          crashFileName := crashFileName; backtrace := backtrace;
          sanCovCnts_crashesCnt := 0; report := ""; mainWorker := true |};
     w_files := files;
     w_calls := [] |}.

Definition world0 : world := world_of 0 [] "" 0 ∅.

(** A SIGSEGV with three resolved frames, its stack hash under [util_hash]
    on x86-64 and the name its crash file gets. *)
Definition frames3 : list funcs_t :=
  [ {| pc := 0xdeadbeef; func := "main"; line := 0 |};
    {| pc := 0x400100; func := "foo"; line := 0 |};
    {| pc := 0x7f00abcd; func := "libc"; line := 0 |} ].

Definition segv3 : stop_t :=
  {| st_pid := 1234; st_si_signo := SIGSEGV; st_si_code := 1; st_si_addr := 0x400123;
     st_pc := 0xdeadbeef; st_instr := "mov_(%rax),%rbx"; st_unwind := frames3;
     st_lr := None; st_localtime := "2015-01-01.00:00:00";
     st_copy_ok := true; st_maps_ok := true |}.

Definition segv3_hash : Z := 0xdb2379487.

Definition segv3_name : string :=
  "/tmp/w/SIGSEGV.PC.deadbeef.STACK.db2379487.CODE.1.ADDR.0x400123.INSTR.mov_(%rax),%rbx.fuzz".

(** The worker after [segv3] has been saved once. *)
Definition world_saved : world := world_of 0 [] segv3_name segv3_hash {[ segv3_name ]}.

(** The hash of [segv3] is on the black list. *)
Definition world_blacklisted : world := world_of 0 [0x1000; segv3_hash; 2 ^ 62] "" 0 ∅.

(** Another worker has written the crash file of [segv3] already. *)
Definition world_taken : world := world_of 0 [] "" 0 {[ segv3_name ]}.

(** Frames that differ from [frames3] from the eighth on. *)
Definition frames9a : list funcs_t :=
  frames3 ++ replicate 4 {| pc := 0x401000; func := ""; line := 0 |}
  ++ [ {| pc := 0x111; func := "a"; line := 1 |}; {| pc := 0x222; func := "b"; line := 2 |} ].
Definition frames9b : list funcs_t :=
  frames3 ++ replicate 4 {| pc := 0x401000; func := "g"; line := 7 |}
  ++ [ {| pc := 0x999; func := "c"; line := 3 |}; {| pc := 0x888; func := "d"; line := 4 |} ].

(** A SIGILL the unwinder finds no frame for: the stack is the PC alone. *)
Definition sigill1 : stop_t :=
  {| st_pid := 1234; st_si_signo := SIGILL; st_si_code := 1; st_si_addr := 0x1000;
     st_pc := 0x1000; st_instr := "[UNKNOWN]"; st_unwind := [];
     st_lr := Some 0x2800; st_localtime := "2015-01-01.00:00:00";
     st_copy_ok := true; st_maps_ok := true |}.

(** A fault at 0x200 under a floor of 0x10000, with and without a PC. *)
Definition world_floor : world := world_of 0x10000 [] "" 0 ∅.

Definition segv_low : stop_t :=
  {| st_pid := 1234; st_si_signo := SIGSEGV; st_si_code := 1; st_si_addr := 0x200;
     st_pc := 0x400100; st_instr := "mov_(%rax),%rbx"; st_unwind := frames3;
     st_lr := None; st_localtime := "2015-01-01.00:00:00";
     st_copy_ok := true; st_maps_ok := true |}.

Definition segv_low_pc0 : stop_t :=
  {| st_pid := 1234; st_si_signo := SIGSEGV; st_si_code := 1; st_si_addr := 0x200;
     st_pc := 0; st_instr := "[UNKNOWN]"; st_unwind := [];
     st_lr := None; st_localtime := "2015-01-01.00:00:00";
     st_copy_ok := true; st_maps_ok := true |}.

(** An exit with the MSan code, and the name its crash file gets. *)
Definition exit_msan : exit_t :=
  {| ex_pid := 4321; ex_exitCode := HF_MSAN_EXIT_CODE; ex_log := None;
     ex_localtime := "2015-01-01.00:00:00"; ex_copy_ok := true |}.

Definition msan_name : string :=
  "/tmp/w/MSAN.PC.0.STACK.0.CODE.UNKNOWN.ADDR.(nil).INSTR.[UNKNOWN].2015-01-01.00:00:00.fuzz".

Definition world_msan_taken : world := world_of 0 [] "" 0 {[ msan_name ]}.

(** The blocks [getline] is given: 256 bytes apart, each with eight bytes
    behind the line that made it necessary. *)
Definition getline_block (i : nat) : Z * string :=
  (0x2a000000 + 256 * Z.of_nat i, "????????").

(** An ASan report of a four-byte read, as [getline] returns its lines. *)
Definition asan_log : list string :=
  map (fun s => s +:+ LF)
    [ "=================================================================";
      "==4321==ERROR: AddressSanitizer: heap-use-after-free on address 0xdeadc0de at pc 0xaa860177 bp 0xbe8 sp 0xbe4";
      "READ of size 4 at 0xdeadc0de thread T0";
      "    #0 0xaa860177  (/system/lib/libc.so+0x196177)";
      "    #1 0xaa860200  (/system/lib/libc.so+0x196200)";
      "";
      "0xdeadc0de is located 0 bytes inside of 4-byte region" ].

(** The report up to the line that names the access. *)
Definition asan_log_read : list string := take 3 asan_log.

(** The same report with its frames flush left, cut after the second. *)
Definition asan_log_flush : list string :=
  take 3 asan_log
  ++ map (fun s => s +:+ LF)
       [ "#0 0xaa860177  (/system/lib/libc.so+0x196177)";
         "#1 0xaa860200  (/system/lib/libc.so+0x196200)" ].


(** [/proc/<pid>/task] with [n] threads. *)
Definition task_dir (n : nat) : list readdir_t :=
  Readdir_entry "." :: Readdir_entry ".."
  :: map (fun i => Readdir_entry (fmt_u (Z.of_nat (1000 + i)))) (seq 0 n).

End Sample.

(** ** Further inputs *)

Module Scenario.

(** The frames of [Sample.frames3] loaded at other addresses: each PC
    keeps its twelve low bits. *)
Definition frames3_moved : list funcs_t :=
  [ {| pc := 0x55555eef; func := "main"; line := 0 |};
    {| pc := 0x7f1234100; func := "foo"; line := 0 |};
    {| pc := 0xbcd; func := "libc"; line := 0 |} ].

(** Two frames, and the same two the other way round. *)
Definition frames_ab : list funcs_t :=
  [ {| pc := 0x400100; func := "a"; line := 0 |};
    {| pc := 0x400abc; func := "b"; line := 0 |} ].
Definition frames_ba : list funcs_t :=
  [ {| pc := 0x400abc; func := "b"; line := 0 |};
    {| pc := 0x400100; func := "a"; line := 0 |} ].

(** A frame of a recursive function and its caller one page-multiple away. *)
Definition frame_top : funcs_t := {| pc := 0x400100; func := "top"; line := 0 |}.
Definition frame_rec : funcs_t := {| pc := 0x401234; func := "rec"; line := 0 |}.
Definition frame_rec' : funcs_t := {| pc := 0x7f001234; func := "rec"; line := 0 |}.
Definition frame_main : funcs_t := {| pc := 0x400abc; func := "main"; line := 0 |}.

(** A fuzzer whose white list names [main] and whose black list holds the
    hash of [Sample.segv3]. *)
Definition world_whitelist : world :=
  {| w_hfuzz :=
       {| workDir := "/tmp/w"; fileExtn := "fuzz"; ignoreAddr := 0;
          saveUnique := true; useSanCov := false; disableRandomization := true;
          flipRate_is_zero := false; useVerifier := false; saveMaps := false;
          numMajorFrames := NMAJORFRAMES;
          symbolsWhitelist := Some ["main"]; symbolsBlacklist := Some ["foo"];
          blacklist := Some [Sample.segv3_hash]; blacklistCnt := 1;
          crashesCnt := 0; uniqueCrashesCnt := 0; blCrashesCnt := 0;
          dynFileIterExpire := 0 |};
     w_fuzzer := w_fuzzer Sample.world0;
     w_files := ∅;
     w_calls := [] |}.

(** The name under which the white-listed [Sample.segv3] is saved. *)
Definition segv3_stamped_name : string :=
  "/tmp/w/SIGSEGV.PC.deadbeef.STACK.db2379487.CODE.1.ADDR.0x400123.INSTR.mov_(%rax),%rbx.2015-01-01.00:00:00.1234.fuzz".

(** A worker that is not the main one. *)
Definition world_other : world :=
  {| w_hfuzz := w_hfuzz Sample.world0;
     w_fuzzer :=
       {| fileName := "/tmp/w/.honggfuzz.2.fuzz"; origFileName := "seed.bin";
          crashFileName := ""; backtrace := 0;
          sanCovCnts_crashesCnt := 0; report := ""; mainWorker := false |};
     w_files := ∅;
     w_calls := [] |}.

(** An exit with the ASan code whose log cannot be opened. *)
Definition exit_asan_nolog : exit_t :=
  {| ex_pid := 4321; ex_exitCode := Sample.HF_ASAN_EXIT_CODE; ex_log := None;
     ex_localtime := "2015-01-01.00:00:00"; ex_copy_ok := true |}.

(** The block that holds the first frame line of [Sample.asan_log], read
    flush left behind a longer line. *)
Definition frame_block : block_t :=
  {| b_base := 0x2a000100;
     b_bytes := "#0 0xaa860177  (/system/lib/libc.so+0x196177)" +:+ LF
                +:+ String NUL "bp 0xbe8 sp 0xbe4" +:+ LF +:+ String NUL "????????" |}.

(** A tracee whose memory [process_vm_readv] cannot read; every word can
    be peeked. *)
Definition word8 : list Z := [0x48; 0x8b; 0x18; 0x90; 0x90; 0x90; 0x90; 0x90].

Definition instr_peek_only : instr_t :=
  {| in_pcRegSz := 216; in_pc := 0x400100; in_readv := None; in_errno := 0;
     in_peek := fun _ => Some word8; in_buf := replicate 16 0;
     in_bfd := fun _ _ => "mov    (%rax),%rbx";
     in_capstone := fun _ => Some ("mov", "rbx, qword ptr [rax]") |}.

(** The same tracee on PowerPC64. *)
Definition instr_ppc64 : instr_t :=
  {| in_pcRegSz := 384; in_pc := 0x10000100; in_readv := None; in_errno := 0;
     in_peek := fun _ => Some word8; in_buf := replicate 4 0;
     in_bfd := fun _ _ => "nop";
     in_capstone := fun _ => None |}.

(** [_HF_INSTR_SZ] *)
Definition _HF_INSTR_SZ : nat := 64.

(** A stop with SIGSEGV, and what is observed then. *)
Definition status_segv : Z := 0x0b7f.

Definition ev_segv : event_t :=
  {| ev_msg := None; ev_stop := Sample.segv3; ev_pcRegSz := 216;
     ev_exit := Sample.exit_msan |}.

(** The crash of [Sample.segv3] in another process, a day later. *)
Definition segv3_again : stop_t :=
  {| st_pid := 5678; st_si_signo := SIGSEGV; st_si_code := 1; st_si_addr := 0x400123;
     st_pc := 0xdeadbeef; st_instr := "mov_(%rax),%rbx"; st_unwind := Sample.frames3;
     st_lr := None; st_localtime := "2015-01-02.10:00:00";
     st_copy_ok := true; st_maps_ok := true |}.

(** [PTRACE_SEIZE] fails for the task 1002. *)
Definition seize_but_1002 (t : Z) : bool := negb (t =? 1002).

End Scenario.
Section Ptrace.

(** The CPU the file is compiled for. *)
Variable cpu : cpu_t.

(** [util_hash(buf, len)] of [util.c], applied to the [len] bytes it reads;
    its result is a [uint64_t]. *)
Variable util_hash : string -> Z.

(** [_HF_SINGLE_FRAME_MASK] and [_HF_DYNFILE_SUB_MASK] of [common.h]. *)
Variable _HF_SINGLE_FRAME_MASK : Z.
Variable _HF_DYNFILE_SUB_MASK : Z.

(** ** Stack fingerprint *)

(** One round of the loop of [arch_hashCallstack]:
    [hash ^= util_hash(&pcStr[strlen(pcStr) - 3], 3)]. *)
Definition hash_frame (hash : Z) (f : funcs_t) : Z :=
  Z.lxor hash (u64 (util_hash (last3 (reg_str cpu (pc f))))).

(** [for (size_t i = 0; i < funcCnt && i < hfuzz->numMajorFrames; i++)],
    entered at [i] with [hash]. The loop leaves as soon as its test fails;
    [fuel] bounds the rounds and [numMajorFrames] rounds always suffice. *)
Fixpoint hashCallstack_loop (fuel : nat) (funcs : list funcs_t)
    (funcCnt numMajor i : nat) (hash : Z) : Z :=
  match fuel with
  | O => hash
  | S fuel' =>
      if (i <? funcCnt)%nat && (i <? numMajor)%nat
      then hashCallstack_loop fuel' funcs funcCnt numMajor (S i)
             (hash_frame hash (funcs_get funcs i))
      else hash
  end.

(** [arch_hashCallstack]: the value stored in [fuzzer->backtrace]. *)
Definition arch_hashCallstack (hfuzz : honggfuzz_t) (funcs : list funcs_t)
    (funcCnt : nat) (enableMasking : bool) : Z :=
  let hash :=
    hashCallstack_loop (numMajorFrames hfuzz) funcs funcCnt (numMajorFrames hfuzz) 0 0 in
  if enableMasking && (funcCnt =? 1)%nat
  then Z.lor hash (u64 _HF_SINGLE_FRAME_MASK)
  else hash.

(** ** Collaborators of the save paths *)

(** [arch_btContainsWLSymbol] and [arch_btContainsBLSymbol]: the matching
    symbol, or the null pointer. *)
Variable arch_btContainsWLSymbol : honggfuzz_t -> nat -> list funcs_t -> option string.
Variable arch_btContainsBLSymbol : honggfuzz_t -> nat -> list funcs_t -> option string.

(** [fastArray64Search(array, arraySz, key)] of [util.c]: an index, or -1. *)
Variable fastArray64Search : list Z -> Z -> Z -> Z.

(** The ["%p"] conversion of the C library. *)
Variable fmt_p : Z -> string.

(** [util_ssnprintf(str, size, format, ...)] of [util.c]: the buffer after
    the call, from the buffer before, its size and the formatted text. *)
Variable util_ssnprintf : string -> nat -> string -> string.

(** [sizeof(fuzzer->report)] and [kLOGPREFIX] of [common.h]. *)
Variable _HF_REPORT_SIZE : nat.
Variable kLOGPREFIX : string.

(** The sanitizer exit codes of [common.h]. *)
Variable HF_MSAN_EXIT_CODE : Z.
Variable HF_ASAN_EXIT_CODE : Z.
Variable HF_UBSAN_EXIT_CODE : Z.

(** [defined(__HF_USE_CAPSTONE__)] *)
Variable HF_USE_CAPSTONE : bool.

(** Modelled from the spec: [files_copyFile(src, dst, &dstExists)] of
    [files.c] ("copy_file(src, dst) -> {ok, exists, error}, atomic w.r.t.
    existence of dst"). [io_ok] tells whether the copy itself goes through.
    The result is the returned flag, [dstExists] and the files afterwards. *)
Definition files_copyFile (files : gset string) (io_ok : bool) (dst : string)
    : bool * bool * gset string :=
  if bool_decide (dst ∈ files) then (false, true, files)
  else if io_ok then (true, false, {[dst]} ∪ files)
  else (false, false, files).

(** ** Report of a signal crash *)

(** The [util_ssnprintf] calls of one report, made in order on the buffer
    emptied by [fuzzer->report[0] = '\0']. *)
Definition report_of (pieces : list string) : string :=
  fold_left (fun buf s => util_ssnprintf buf _HF_REPORT_SIZE s) pieces "".

(** The calls made for one entry of the [STACK:] block. *)
Definition report_frame (f : funcs_t) : list string :=
  if HF_USE_CAPSTONE then
    [ " <" +:+ fmt_reg cpu (pc f) +:+ "> ";
      if negb (String.eqb (cstr (func f)) "")
      then "[" +:+ cstr (func f) +:+ " + 0x" +:+ fmt_x (u32 (line f)) +:+ "]" +:+ LF
      else "[]" +:+ LF ]
  else
    [ " <" +:+ fmt_reg cpu (pc f) +:+ "> [" +:+ cstr (func f) +:+ "():"
      +:+ fmt_u (u32 (line f)) +:+ "]" +:+ LF ].

(** [arch_ptraceGenerateReport]: the text left in [fuzzer->report]. *)
Definition arch_ptraceGenerateReport (fuzzer : fuzzer_t) (st : stop_t)
    (funcs : list funcs_t) (funcCnt : nat) : string :=
  report_of
    ([ "ORIG_FNAME: " +:+ origFileName fuzzer +:+ LF;
       "FUZZ_FNAME: " +:+ crashFileName fuzzer +:+ LF;
       "PID: " +:+ fmt_d (st_pid st) +:+ LF;
       "SIGNAL: " +:+ arch_sigs_descr (st_si_signo st) +:+ " ("
         +:+ fmt_d (st_si_signo st) +:+ ")" +:+ LF;
       "FAULT ADDRESS: "
         +:+ fmt_p (if SI_FROMUSER (st_si_code st) then 0 else st_si_addr st) +:+ LF;
       "INSTRUCTION: " +:+ st_instr st +:+ LF;
       "STACK HASH: " +:+ fmt_0x 16 (backtrace fuzzer) +:+ LF;
       "STACK:" +:+ LF ]
     ++ concat (map (fun i => report_frame (funcs_get funcs i)) (seq 0 funcCnt))
     ++ (match cpu with
         | AARCH64 =>
             if (funcCnt =? 0)%nat
             then [ " !ERROR: If 32bit fuzz target in aarch64 system, try ARM 32bit build"
                    +:+ LF ]
             else []
         | _ => []
         end)).

(** ** The signal save path *)

(** The three [snprintf(fuzzer->crashFileName, ...)] of [arch_ptraceSaveData]. *)
Definition crash_name (hfuzz : honggfuzz_t) (fuzzer : fuzzer_t) (st : stop_t)
    (saveUnique : bool) (pc sig_addr : Z) : string :=
  if flipRate_is_zero hfuzz && useVerifier hfuzz then
    snprintf PATH_MAX (workDir hfuzz +:+ "/" +:+ origFileName fuzzer)
  else
    let common :=
      workDir hfuzz +:+ "/" +:+ arch_sigs_descr (st_si_signo st)
      +:+ ".PC." +:+ fmt_x (reg_cast cpu pc)
      +:+ ".STACK." +:+ fmt_x (backtrace fuzzer)
      +:+ ".CODE." +:+ fmt_d (st_si_code st)
      +:+ ".ADDR." +:+ fmt_p sig_addr
      +:+ ".INSTR." +:+ st_instr st in
    if saveUnique then
      snprintf PATH_MAX (common +:+ "." +:+ fileExtn hfuzz)
    else
      snprintf PATH_MAX
        (common +:+ "." +:+ st_localtime st +:+ "." +:+ fmt_d (st_pid st)
         +:+ "." +:+ fileExtn hfuzz).

(** The block [if (hfuzz->saveMaps) { ... }]: the name handed to
    [files_procMapsToFile]. Without a dot in the crash file name [lastDot]
    is the null pointer and [lastDot - fuzzer->crashFileName] faults. *)
Definition maps_name (hfuzz : honggfuzz_t) (fuzzer : fuzzer_t) : outcome string :=
  match strrchr (crashFileName fuzzer) "." with
  | None => Fault
  | Some baseNameLen =>
      Done (snprintf PATH_MAX
              (workDir hfuzz +:+ "/" +:+ str_take baseNameLen (crashFileName fuzzer)
               +:+ ".maps"))
  end.

(** From the label [saveCrash:] to the end of [arch_ptraceSaveData]. *)
Definition saveCrash (w : world) (st : stop_t) (funcs : list funcs_t) (funcCnt : nat)
    (saveUnique : bool) : outcome world :=
  let hfuzz :=
    set_dynFileIterExpire (w_hfuzz w)
      (sync_fetch_and_and (dynFileIterExpire (w_hfuzz w)) _HF_DYNFILE_SUB_MASK) in
  let pc := if disableRandomization hfuzz then st_pc st else 0 in
  let sig_addr := if disableRandomization hfuzz then st_si_addr st else 0 in
  let sig_addr := if SI_FROMUSER (st_si_code st) then 0 else sig_addr in
  let fuzzer :=
    set_crashFileName (w_fuzzer w) (crash_name hfuzz (w_fuzzer w) st saveUnique pc sig_addr) in
  let copied := files_copyFile (w_files w) (st_copy_ok st) (crashFileName fuzzer) in
  let calls :=
    w_calls w
    ++ [Call_copyFile (fileName fuzzer) (crashFileName fuzzer) copied.1.1 copied.1.2] in
  match copied with
  | (true, _, files) =>
      let hfuzz :=
        set_uniqueCrashesCnt hfuzz (sync_fetch_and_add (uniqueCrashesCnt hfuzz) 1) in
      let hfuzz :=
        set_dynFileIterExpire hfuzz (sync_fetch_and_and (dynFileIterExpire hfuzz) 0) in
      let fuzzer := set_report fuzzer (arch_ptraceGenerateReport fuzzer st funcs funcCnt) in
      if saveMaps hfuzz then
        match maps_name hfuzz fuzzer with
        | Fault => Fault
        | Done mapsFile =>
            (* files_procMapsToFile(pid, mapsFile) writes the file or fails *)
            Done (mk_world hfuzz fuzzer
                    (if st_maps_ok st then {[mapsFile]} ∪ files else files)
                    (calls ++ [Call_procMapsToFile mapsFile]))
        end
      else Done (mk_world hfuzz fuzzer files calls)
  | (false, true, files) =>
      (* memset(fuzzer->crashFileName, 0, sizeof(fuzzer->crashFileName)) *)
      Done (mk_world hfuzz (set_crashFileName fuzzer "") files calls)
  | (false, false, files) =>
      Done (mk_world hfuzz fuzzer files calls)
  end.

(** The test that drops a crash below [hfuzz->ignoreAddr]. *)
Definition ignored (hfuzz : honggfuzz_t) (st : stop_t) : bool :=
  negb (SI_FROMUSER (st_si_code st)) && negb (st_pc st =? 0)
  && (st_si_addr st <? ignoreAddr hfuzz).

(** [if (funcCnt == 0) { if (pc) { ... } else { saveUnique = false; } }]:
    the frames, their count and the local [saveUnique]. *)
Definition unwind_or_pc (hfuzz : honggfuzz_t) (st : stop_t) : list funcs_t * nat * bool :=
  let funcs := st_unwind st in
  let funcCnt := length funcs in
  if (funcCnt =? 0)%nat then
    if negb (st_pc st =? 0) then
      let f := funcs_get funcs 0 in
      (funcs_set funcs 0 {| pc := st_pc st; func := func f; line := line f |},
       1%nat, saveUnique hfuzz)
    else (funcs, funcCnt, false)
  else (funcs, funcCnt, saveUnique hfuzz).

(** The block [if (saveUnique && (funcCnt == 1)) { ... }]: the worker and
    the local [saveUnique] after it. *)
Definition single_frame (fuzzer : fuzzer_t) (st : stop_t) (funcCnt : nat)
    (saveUnique : bool) : fuzzer_t * bool :=
  if saveUnique && (funcCnt =? 1)%nat then
    if is_arm cpu then
      let lr := default 0 (st_lr st) in
      let saveUnique' :=
        if negb (is_set (st_lr st)) || (lr =? 0) then false else saveUnique in
      (set_backtrace fuzzer
         (Z.lxor (backtrace fuzzer) (u64 (util_hash (last3 (reg_str cpu lr))))),
       saveUnique')
    else (fuzzer, false)
  else (fuzzer, saveUnique).

(** From the white list check to the end; [w] already holds the new hash
    and the incremented [crashesCnt]. *)
Definition filter_and_save (w : world) (st : stop_t) (funcs : list funcs_t)
    (funcCnt : nat) (saveUnique : bool) : outcome world :=
  let hfuzz := w_hfuzz w in
  let fuzzer := w_fuzzer w in
  let wlSymbol :=
    match symbolsWhitelist hfuzz with
    | Some _ => arch_btContainsWLSymbol hfuzz funcCnt funcs
    | None => None
    end in
  let calls1 :=
    w_calls w ++ (if is_set (symbolsWhitelist hfuzz) then [Call_btContainsWLSymbol] else []) in
  match wlSymbol with
  | Some _ =>
      saveCrash (mk_world hfuzz fuzzer (w_files w) calls1) st funcs funcCnt false
  | None =>
      let found :=
        match blacklist hfuzz with
        | Some bl =>
            negb (fastArray64Search bl (blacklistCnt hfuzz) (backtrace fuzzer) =? -1)
        | None => false
        end in
      let calls2 :=
        calls1 ++ (if is_set (blacklist hfuzz) then [Call_fastArray64Search (backtrace fuzzer)]
                   else []) in
      if found then
        Done (mk_world
                (set_blCrashesCnt hfuzz (sync_fetch_and_add (blCrashesCnt hfuzz) 1))
                fuzzer (w_files w) calls2)
      else
        let blSymbol :=
          match symbolsBlacklist hfuzz with
          | Some _ => arch_btContainsBLSymbol hfuzz funcCnt funcs
          | None => None
          end in
        let calls3 :=
          calls2 ++ (if is_set (symbolsBlacklist hfuzz) then [Call_btContainsBLSymbol] else []) in
        match blSymbol with
        | Some _ =>
            Done (mk_world
                    (set_blCrashesCnt hfuzz (sync_fetch_and_add (blCrashesCnt hfuzz) 1))
                    fuzzer (w_files w) calls3)
        | None =>
            saveCrash (mk_world hfuzz fuzzer (w_files w) calls3) st funcs funcCnt saveUnique
        end
  end.

(** From the unwinding to the single-frame block of [arch_ptraceSaveData]:
    the frames, their count, the worker with the new stack hash and the
    local [saveUnique]. *)
Definition hash_stage (w : world) (st : stop_t) : list funcs_t * nat * fuzzer_t * bool :=
  let hfuzz := w_hfuzz w in
  let '(funcs, funcCnt, saveUnique1) := unwind_or_pc hfuzz st in
  let fuzzer :=
    set_backtrace (w_fuzzer w) (arch_hashCallstack hfuzz funcs funcCnt saveUnique1) in
  let fuzzer :=
    if useSanCov hfuzz
    then set_sanCovCnts_crashesCnt fuzzer (u64 (sanCovCnts_crashesCnt fuzzer + 1))
    else fuzzer in
  let '(fuzzer, saveUnique2) := single_frame fuzzer st funcCnt saveUnique1 in
  (funcs, funcCnt, fuzzer, saveUnique2).

(** [if (fuzzer->crashFileName[0] != '\0') { if (oldBacktrace ==
    fuzzer->backtrace) return; }] *)
Definition duplicate (oldBacktrace : Z) (fuzzer : fuzzer_t) : bool :=
  negb (String.eqb (crashFileName fuzzer) "") && (oldBacktrace =? backtrace fuzzer).

(** [arch_ptraceSaveData(hfuzz, pid, fuzzer)] *)
Definition arch_ptraceSaveData (w : world) (st : stop_t) : outcome world :=
  let hfuzz := w_hfuzz w in
  if ignored hfuzz st then Done w
  else
    let oldBacktrace := backtrace (w_fuzzer w) in
    let '(funcs, funcCnt, fuzzer, saveUnique) := hash_stage w st in
    if duplicate oldBacktrace fuzzer
    then Done (mk_world hfuzz fuzzer (w_files w) (w_calls w))
    else
      let hfuzz := set_crashesCnt hfuzz (sync_fetch_and_add (crashesCnt hfuzz) 1) in
      filter_and_save (mk_world hfuzz fuzzer (w_files w) (w_calls w)) st funcs funcCnt
        saveUnique.

(** [arch_ptraceAnalyzeData(hfuzz, pid, fuzzer)], run for a worker that is
    not the main one: only the hash is stored. [pcRegSz] is what
    [arch_getPC] returns. *)
Definition arch_ptraceAnalyzeData (w : world) (st : stop_t) (pcRegSz : Z) : world :=
  if pcRegSz =? 0 then w
  else
    let funcs := st_unwind st in
    let funcCnt := length funcs in
    let analysed (funcs : list funcs_t) (funcCnt : nat) : world :=
      let fuzzer :=
        set_backtrace (w_fuzzer w) (arch_hashCallstack (w_hfuzz w) funcs funcCnt false) in
      let fuzzer :=
        if is_arm cpu && (funcCnt =? 1)%nat then
          match st_lr st with
          | None => fuzzer
          | Some lr =>
              set_backtrace fuzzer
                (Z.lxor (backtrace fuzzer) (u64 (util_hash (last3 (reg_str cpu lr)))))
          end
        else fuzzer in
      mk_world (w_hfuzz w) fuzzer (w_files w) (w_calls w) in
    if (funcCnt =? 0)%nat then
      if negb (st_pc st =? 0) then
        let f := funcs_get funcs 0 in
        analysed (funcs_set funcs 0 {| pc := st_pc st; func := func f; line := line f |}) 1%nat
      else w
    else analysed funcs funcCnt.

(** ** The sanitizer report parser *)

(** What [malloc] or [realloc] hands to [getline] when its call number [i]
    has to allocate: the address of the block, and the bytes the block holds
    behind the line and its NUL. *)
Variable getline_block : nat -> Z * string.

(** [(uintptr_t) x]: on each of the CPUs a pointer has the size of a
    register. Pointer arithmetic is arithmetic on addresses. *)
Definition ptr (x : Z) : Z := reg_cast cpu x.

(** [snprintf(header, sizeof(header), "==%d==ERROR: AddressSanitizer:", pid)] *)
Definition asan_header (pid : Z) : string :=
  snprintf 35 ("==" +:+ fmt_d pid +:+ "==ERROR: AddressSanitizer:").

(** [snprintf(framePrefix, sizeof(framePrefix), "#%" PRIu8, frameIdx)] *)
Definition asan_framePrefix (frameIdx : Z) : string :=
  snprintf 5 ("#" +:+ fmt_u frameIdx).

(** The parser's locals with [lineptr] at the offset [off] of the block
    [b]. *)
Definition set_lineptr (a : asan_t) (b : block_t) (off : nat) : asan_t :=
  mk_asan (headerFound a) (frameIdx a) (framePrefix a) (Some b) off (cAddr a)
    (crashAddr a) (op a) (a_funcs a).

Definition set_op (a : asan_t) (op' : string) : asan_t :=
  mk_asan (headerFound a) (frameIdx a) (framePrefix a) (a_block a) (lineptr a) (cAddr a)
    (crashAddr a) op' (a_funcs a).

(** [getline(&lineptr, &n, fReport)], call number [i], which reads [line]:
    the block [lineptr] points to afterwards. The pointer handed to
    [getline] has to be null or one that [malloc] returned; once
    [++lineptr] has run it is neither. The line and its NUL go to the start
    of the block when they fit, and the rest of the block keeps what it
    held; otherwise the block is allocated anew. *)
Definition getline (i : nat) (a : asan_t) (line : string) : outcome block_t :=
  if negb (lineptr a =? 0)%nat then Fault
  else
    let need := S (String.length line) in
    let fresh :=
      mk_block (getline_block i).1 (line +:+ String NUL (getline_block i).2) in
    match a_block a with
    | Some b =>
        if (need <=? String.length (b_bytes b))%nat
        then Done (mk_block (b_base b) (line +:+ String NUL (str_drop need (b_bytes b))))
        else Done fresh
    | None => Done fresh
    end.

(** The round taken while [headerFound == false]; [lineptr] is the start of
    the block [b]. *)
Definition asan_seek_header (header : string) (a : asan_t) (b : block_t)
    : outcome asan_t :=
  let headerSz := strlen header in
  if (headerSz <? strlen (b_bytes b))%nat && strncmp_eq header (b_bytes b) headerSz then
    match strstr (b_bytes b) "address 0x" with
    | Some k =>
        (* cAddr = cAddr + strlen("address ") *)
        let c := (k + strlen "address ")%nat in
        let cAddr' := b_base b + Z.of_nat c in
        let endOff := ptr_of cAddr' (strchr (str_drop c (b_bytes b)) SP) in
        (* cAddr[endOff - cAddr] = '\0' *)
        match block_store b (ptr (cAddr' + (endOff - cAddr'))) NUL with
        | Fault => Fault
        | Done b' =>
            match block_cstr b' cAddr' with
            | Fault => Fault
            | Done text =>
                Done (mk_asan true (frameIdx a) (framePrefix a) (Some b') 0 cAddr'
                        (reg_cast cpu (strtoull text 16)) (op a) (a_funcs a))
            end
        end
    | None =>
        Done (mk_asan true (frameIdx a) (framePrefix a) (Some b) 0 0 0 (op a) (a_funcs a))
    end
  else Done a.

(** What [cAddr] points at when it is not null: the text [strstr(lineptr,
    cAddr)] looks for. *)
Definition asan_cAddr_text (b : block_t) (cAddr : Z) : outcome (option string) :=
  if cAddr =? 0 then Done None
  else
    match block_cstr b cAddr with
    | Fault => Fault
    | Done c => Done (Some c)
    end.

(** [if (cAddr && strstr(lineptr, cAddr)) { ... }]: the new [*op]. *)
Definition asan_op (cAddr : option string) (lineptr : string) (op : string) : string :=
  match cAddr with
  | None => op
  | Some c =>
      match strstr lineptr c with
      | None => op
      | Some _ =>
          (* if (strncmp(lineptr, "READ", 4)) *)
          if negb (strncmp_eq lineptr "READ" 4) then "READ"
          (* else if (strncmp(lineptr, "WRITE", 5)) *)
          else if negb (strncmp_eq lineptr "WRITE" 5) then "WRITE"
          else op
      end
  end.

(** [startOff], [plusOff] and [endOff] for the token at the offset [t]. *)
Definition asan_startOff (b : block_t) (t : nat) : Z :=
  ptr (ptr_of (b_base b + Z.of_nat t) (strchr (str_drop t (b_bytes b)) "(") + 1).
Definition asan_plusOff (b : block_t) (t : nat) : Z :=
  ptr_of (b_base b + Z.of_nat t) (strchr (str_drop t (b_bytes b)) "+").
Definition asan_endOff (b : block_t) (t : nat) : Z :=
  ptr_of (b_base b + Z.of_nat t) (strrchr (str_drop t (b_bytes b)) ")").

(** [targetStr[endOff - startOff] = '\0'], made before any of the three
    pointers is tested. *)
Definition asan_cut (b : block_t) (t : nat) : outcome block_t :=
  block_store b
    (ptr (b_base b + Z.of_nat t + (asan_endOff b t - asan_startOff b t))) NUL.

(** The branch [else { ... }] of the test on the three pointers: what is
    stored in [funcs[frameIdx].func] and [funcs[frameIdx].line]. [b'] is the
    block after the store of [asan_cut]; [func] keeps its bytes from
    [dsoSz] on. *)
Definition asan_dso (b' : block_t) (targetStr startOff plusOff : Z) (f0 : funcs_t)
    : outcome (string * Z) :=
  (* MIN(sizeof(funcs[frameIdx].func), (size_t) (plusOff - startOff)) *)
  let dsoSz := Z.to_nat (Z.min (Z.of_nat _HF_FUNC_NAME_SZ) (ptr (plusOff - startOff))) in
  (* memcpy(funcs[frameIdx].func, startOff, dsoSz) *)
  match block_read b' startOff dsoSz with
  | Fault => Fault
  | Done dso =>
      (* codeOff = targetStr + (plusOff - startOff) + 1 *)
      match block_cstr b' (ptr (targetStr + (plusOff - startOff) + 1)) with
      | Fault => Fault
      | Done codeOff =>
          Done (dso +:+ str_drop dsoSz (func f0), u32 (strtoull codeOff 16))
      end
  end.

(** The body of [if (strncmp(lineptr, framePrefix, strlen(framePrefix)) ==
    0)] after the depth test, with [lineptr] at the offset [l] of [b]: the
    block as the three [strtok_r] calls and the store leave it, and the
    entry [funcs[frameIdx]], of which [f0] is the value before. *)
Definition asan_frame (b : block_t) (l : nat) (f0 : funcs_t) : outcome (block_t * funcs_t) :=
  let '(_, savePtr1, mem1) := strtok_r (b_bytes b) l in
  let '(pcTok, savePtr2, mem2) := strtok_r mem1 savePtr1 in
  match pcTok with
  | None => Fault
  | Some p =>
      let pc' := reg_cast cpu (strtoull (str_drop p mem2) 16) in
      let '(targetTok, _, mem3) := strtok_r mem2 savePtr2 in
      match targetTok with
      | None => Fault
      | Some t =>
          let b3 := mk_block (b_base b) mem3 in
          match asan_cut b3 t with
          | Fault => Fault
          | Done b' =>
              if (asan_startOff b3 t =? 0) || (asan_endOff b3 t =? 0)
                 || (asan_plusOff b3 t =? 0)
              then Done (b', {| pc := pc'; func := func f0; line := line f0 |})
              else
                match asan_dso b' (b_base b + Z.of_nat t) (asan_startOff b3 t)
                        (asan_plusOff b3 t) f0 with
                | Fault => Fault
                | Done (func', line') =>
                    Done (b', {| pc := pc'; func := func'; line := line' |})
                end
          end
      end
  end.

(** Trim leading spaces: how often [++lineptr] runs. *)
Fixpoint space_run (s : string) : nat :=
  match s with
  | String c s' => if negb (Ascii.eqb c NUL) && isspace c then S (space_run s') else O
  | EmptyString => O
  end.

(** The round taken once the header has been found; [lineptr] is the start
    of the block [b] when the round begins. *)
Definition asan_frames (a : asan_t) (b : block_t) : round_t :=
  let l := space_run (b_bytes b) in
  let a := set_lineptr a b l in
  let s := str_drop l (b_bytes b) in
  if String.eqb (cstr s) "" && negb (frameIdx a =? 0) then Break a
  else if (strlen s <? 10)%nat then Continue a
  else
    match asan_cAddr_text b (cAddr a) with
    | Fault => Faulted
    | Done c =>
        let a := set_op a (asan_op c s (op a)) in
        if strncmp_eq s (framePrefix a) (strlen (framePrefix a)) then
          if Z.of_nat _HF_MAX_FUNCS <=? frameIdx a then Break a
          else
            let i := Z.to_nat (frameIdx a) in
            match asan_frame b l (funcs_get (a_funcs a) i) with
            | Fault => Faulted
            | Done (b', f) =>
                let frameIdx' := u8 (frameIdx a + 1) in
                Continue (mk_asan (headerFound a) frameIdx' (asan_framePrefix frameIdx')
                            (Some b') l (cAddr a) (crashAddr a) (op a)
                            (funcs_set (a_funcs a) i f))
            end
        else Continue a
    end.

(** The [for (;;)] loop over the lines [getline] returns, from its call
    number [i] on, until it returns -1. *)
Fixpoint asan_loop (header : string) (i : nat) (lines : list string) (a : asan_t)
    : outcome asan_t :=
  match lines with
  | [] => Done a
  | line :: lines' =>
      match getline i a line with
      | Fault => Fault
      | Done b =>
          if negb (headerFound a) then
            match asan_seek_header header (set_lineptr a b 0) b with
            | Fault => Fault
            | Done a' => asan_loop header (S i) lines' a'
            end
          else
            match asan_frames a b with
            | Continue a' => asan_loop header (S i) lines' a'
            | Break a' => Done a'
            | Faulted => Fault
            end
      end
  end.

(** [arch_parseAsanReport(hfuzz, pid, funcs, &crashAddr, &op)]; [log] is the
    lines of the report file as [getline] returns them, [None] when [fopen]
    fails. The result is the returned count with [funcs], [*crashAddr] and
    [*op] as left. [free(lineptr)] needs the pointer [malloc] returned, as
    [getline] does. The caller below records the [fopen] and the final
    [unlink] in the world. *)
Definition arch_parseAsanReport (pid : Z) (log : option (list string))
    (funcs : list funcs_t) (crashAddr0 : Z) (op0 : string)
    : outcome (Z * list funcs_t * Z * string) :=
  match log with
  | None => Done (-1, funcs, crashAddr0, op0)
  | Some lines =>
      match asan_loop (asan_header pid) 0 lines
              (mk_asan false 0 (asan_framePrefix 0) None 0 0 crashAddr0 op0 funcs) with
      | Fault => Fault
      | Done a =>
          if negb (lineptr a =? 0)%nat then Fault
          else Done (frameIdx a, a_funcs a, crashAddr a, op a)
      end
  end.

(** ** The sanitizer exit path *)

(** [arch_sanCodeToStr] *)
Definition arch_sanCodeToStr (exitCode : Z) : string :=
  if exitCode =? HF_MSAN_EXIT_CODE then "MSAN"
  else if exitCode =? HF_ASAN_EXIT_CODE then "ASAN"
  else if exitCode =? HF_UBSAN_EXIT_CODE then "UBSAN"
  else "UNKNW".

(** [snprintf(crashReport, sizeof(crashReport), "%s/%s.%d", hfuzz->workDir,
    kLOGPREFIX, pid)] *)
Definition asan_report_path (hfuzz : honggfuzz_t) (pid : Z) : string :=
  snprintf PATH_MAX (workDir hfuzz +:+ "/" +:+ kLOGPREFIX +:+ "." +:+ fmt_d pid).

(** The three [snprintf(fuzzer->crashFileName, ...)] of
    [arch_ptraceExitSaveData]. *)
Definition exit_crash_name (hfuzz : honggfuzz_t) (fuzzer : fuzzer_t) (ex : exit_t)
    (pc crashAddr : Z) (op : string) : string :=
  if flipRate_is_zero hfuzz && useVerifier hfuzz then
    snprintf PATH_MAX (workDir hfuzz +:+ "/" +:+ origFileName fuzzer)
  else
    let common :=
      workDir hfuzz +:+ "/" +:+ arch_sanCodeToStr (ex_exitCode ex)
      +:+ ".PC." +:+ fmt_x (reg_cast cpu pc)
      +:+ ".STACK." +:+ fmt_x (backtrace fuzzer)
      +:+ ".CODE." +:+ op
      +:+ ".ADDR." +:+ fmt_p crashAddr
      +:+ ".INSTR." +:+ "[UNKNOWN]" in
    if negb (backtrace fuzzer =? 0) && saveUnique hfuzz then
      snprintf PATH_MAX (common +:+ "." +:+ fileExtn hfuzz)
    else
      snprintf PATH_MAX (common +:+ "." +:+ ex_localtime ex +:+ "." +:+ fileExtn hfuzz).

(** [funcs[i].func] as ["%s"] prints it: the bytes before the first NUL,
    which has to lie inside the array. *)
Definition func_text (f : funcs_t) : outcome string :=
  if (_HF_FUNC_NAME_SZ <=? strlen (func f))%nat then Fault else Done (cstr (func f)).

(** The calls made for one entry of the [STACK:] block. *)
Definition exit_report_frame (f : funcs_t) : outcome (list string) :=
  if negb (String.eqb (cstr (func f)) "") then
    match func_text f with
    | Fault => Fault
    | Done name =>
        Done [ " <" +:+ fmt_reg cpu (pc f) +:+ "> ";
               "[" +:+ name +:+ " + 0x" +:+ fmt_x (u32 (line f)) +:+ "]" +:+ LF ]
    end
  else Done [ " <" +:+ fmt_reg cpu (pc f) +:+ "> "; "[]" +:+ LF ].

(** [for (int i = 0; i < funcCnt; i++)] over the entries. *)
Fixpoint exit_report_frames (frames : list funcs_t) : outcome (list string) :=
  match frames with
  | [] => Done []
  | f :: frames' =>
      match exit_report_frame f, exit_report_frames frames' with
      | Done l, Done ls => Done (l ++ ls)
      | _, _ => Fault
      end
  end.

(** The report written at the end of [arch_ptraceExitSaveData]. *)
Definition exit_report (fuzzer : fuzzer_t) (ex : exit_t) (funcs : list funcs_t)
    (funcCnt : Z) (crashAddr : Z) (op : string) : outcome string :=
  let head :=
    [ "ORIG_FNAME: " +:+ origFileName fuzzer +:+ LF;
      "FUZZ_FNAME: " +:+ crashFileName fuzzer +:+ LF;
      "PID: " +:+ fmt_d (ex_pid ex) +:+ LF;
      "EXIT CODE: " +:+ fmt_d (ex_exitCode ex) +:+ " ("
        +:+ arch_sanCodeToStr (ex_exitCode ex) +:+ ")" +:+ LF;
      "OPERATION: " +:+ op +:+ LF;
      "FAULT ADDRESS: " +:+ fmt_p crashAddr +:+ LF ] in
  if 0 <? funcCnt then
    match exit_report_frames
            (map (funcs_get funcs) (seq 0 (Z.to_nat funcCnt))) with
    | Fault => Fault
    | Done stack =>
        Done (report_of
                (head
                 ++ [ "STACK HASH: " +:+ fmt_0x 16 (backtrace fuzzer) +:+ LF;
                      "STACK:" +:+ LF ]
                 ++ stack))
    end
  else Done (report_of head).

(** From the file name to the end of [arch_ptraceExitSaveData]. *)
Definition exit_save (w : world) (ex : exit_t) (funcs : list funcs_t) (funcCnt : Z)
    (pc crashAddr : Z) (op : string) : outcome world :=
  let hfuzz := w_hfuzz w in
  let fuzzer :=
    set_crashFileName (w_fuzzer w)
      (exit_crash_name hfuzz (w_fuzzer w) ex pc crashAddr op) in
  let copied := files_copyFile (w_files w) (ex_copy_ok ex) (crashFileName fuzzer) in
  let calls :=
    w_calls w
    ++ [Call_copyFile (fileName fuzzer) (crashFileName fuzzer) copied.1.1 copied.1.2] in
  match copied with
  | (true, _, files) =>
      let hfuzz :=
        set_uniqueCrashesCnt hfuzz (sync_fetch_and_add (uniqueCrashesCnt hfuzz) 1) in
      let hfuzz :=
        set_dynFileIterExpire hfuzz (sync_fetch_and_and (dynFileIterExpire hfuzz) 0) in
      match exit_report fuzzer ex funcs funcCnt crashAddr op with
      | Fault => Fault
      | Done text => Done (mk_world hfuzz (set_report fuzzer text) files calls)
      end
  | (false, true, files) =>
      (* Clear stack hash so that verifier can understand we hit a duplicate *)
      Done (mk_world hfuzz (set_backtrace fuzzer 0) files calls)
  | (false, false, files) =>
      (* In case of write error, clear crashFileName so that other monitored
         TIDs can retry *)
      Done (mk_world hfuzz (set_crashFileName fuzzer "") files calls)
  end.

(** [arch_ptraceExitSaveData(hfuzz, pid, fuzzer, exitCode)] *)
Definition arch_ptraceExitSaveData (w : world) (ex : exit_t) : outcome world :=
  (* Save only the first hit for each worker *)
  if negb (String.eqb (crashFileName (w_fuzzer w)) "") then Done w
  else
    let hfuzz := set_crashesCnt (w_hfuzz w) (sync_fetch_and_add (crashesCnt (w_hfuzz w)) 1) in
    let hfuzz :=
      set_dynFileIterExpire hfuzz
        (sync_fetch_and_and (dynFileIterExpire hfuzz) _HF_DYNFILE_SUB_MASK) in
    let w1 := mk_world hfuzz (w_fuzzer w) (w_files w) (w_calls w) in
    if ex_exitCode ex =? HF_ASAN_EXIT_CODE then
      let path := asan_report_path hfuzz (ex_pid ex) in
      match arch_parseAsanReport (ex_pid ex) (ex_log ex) [] 0 "UNKNOWN" with
      | Fault => Fault
      | Done (funcCnt, funcs, crashAddr, op) =>
          if funcCnt =? -1 then
            Done (mk_world hfuzz (w_fuzzer w) (w_files w)
                    (w_calls w ++ [Call_parseAsanReport path]))
          else
            let fuzzer :=
              set_backtrace (w_fuzzer w)
                (arch_hashCallstack hfuzz funcs (Z.to_nat funcCnt) false) in
            exit_save
              (mk_world hfuzz fuzzer (w_files w ∖ {[path]})
                 (w_calls w ++ [Call_parseAsanReport path; Call_unlink path]))
              ex funcs funcCnt (pc (funcs_get funcs 0)) crashAddr op
      end
    else exit_save w1 ex [] 0 0 0 "UNKNOWN".
(** ** Reading the tracee's memory *)

(** [sizeof(long)] on the Linux ABI of the CPU. *)
Definition LONG_SIZE : nat := REG_SIZE cpu.

(** An [errno] a failed [ptrace] request leaves. *)
Definition EIO : Z := 5.

(** Whether [ptrace] stores 0 in [errno] when a PEEK request succeeds, as
    the wrapper of glibc does; a wrapper that only forwards the system call
    leaves [errno] as it was. *)
Variable ptrace_peek_clears_errno : bool.

(** [for (int x = 0; x < cnt; x++)] of [arch_getProcMem], entered at [x] with
    [n] rounds to go: [memsz] and [buf] at the [return]. *)
Fixpoint getProcMem_loop (peek : Z -> option (list Z)) (pc : Z) (n x : nat)
    (errno : Z) (memsz : nat) (buf : list Z) : nat * list Z :=
  match n with
  | O => (memsz, buf)
  | S n' =>
      let addr := pc + s32 (Z.of_nat (x * LONG_SIZE)) in
      let ret := peek addr in
      let errno :=
        match ret with
        | Some _ => if ptrace_peek_clears_errno then 0 else errno
        | None => EIO
        end in
      if negb (errno =? 0) then (memsz, buf)
      else
        getProcMem_loop peek pc n' (S x) errno (memsz + LONG_SIZE)
          (memcpy_at buf (x * LONG_SIZE) (take LONG_SIZE (default [] ret)))
  end.

(** [arch_getProcMem(pid, buf, len, pc)]: the returned size and [buf]. *)
Definition arch_getProcMem (buf : list Z) (len : nat) (pc : Z)
    (readv : option (list Z)) (errno : Z) (peek : Z -> option (list Z))
    : nat * list Z :=
  match readv with
  | Some data =>
      if (length data =? len)%nat then (len, memcpy_at buf 0 data)
      else getProcMem_loop peek pc (len / LONG_SIZE) 0 errno 0 (memcpy_at buf 0 data)
  | None => getProcMem_loop peek pc (len / LONG_SIZE) 0 errno 0 buf
  end.

(** The words the loop asks for, in order. *)
Definition word_addrs (pc : Z) (len : nat) : list Z :=
  map (fun x => pc + s32 (Z.of_nat (x * LONG_SIZE))) (seq 0 (len / LONG_SIZE)).

(** The readable words at the head of a list of addresses. *)
Fixpoint readable_prefix (peek : Z -> option (list Z)) (addrs : list Z) : nat :=
  match addrs with
  | [] => 0
  | a :: addrs' => if is_set (peek a) then S (readable_prefix peek addrs') else 0
  end.

(** ** The instruction at the PC *)

(** [_HF_INSTR_SZ] of [common.h]. *)
Variable _HF_INSTR_SZ : nat.

(** [defined(__ANDROID__)] *)
Variable android : bool.

(** [arch_getInstrStr(pid, &pc, instr)]: [*pc] and [instr] as left; [pc0] is
    [*pc] on entry. *)
Definition arch_getInstrStr (pc0 : Z) (o : instr_t) : Z * string :=
  let instr := snprintf _HF_INSTR_SZ "[UNKNOWN]" in
  if in_pcRegSz o =? 0 then (pc0, instr)
  else
    let pc := in_pc o in
    let '(memsz, buf) :=
      arch_getProcMem (in_buf o) (MAX_INSTR_SZ cpu) pc (in_readv o) (in_errno o)
        (in_peek o) in
    if (memsz =? 0)%nat then (pc, snprintf _HF_INSTR_SZ "[NOT_MMAPED]")
    else if android then
      match in_capstone o buf with
      | None => (pc, instr)
      | Some (mnemonic, op_str) =>
          (pc, instr_sanitize _HF_INSTR_SZ
                 (snprintf _HF_INSTR_SZ (cstr mnemonic +:+ " " +:+ cstr op_str)))
      end
    else (pc, instr_sanitize _HF_INSTR_SZ (in_bfd o buf memsz)).

(** ** Dispatch on the wait status *)

(** The test made twice on an exit status. *)
Definition sanitizer_exit (exitCode : Z) : bool :=
  (exitCode =? HF_MSAN_EXIT_CODE) || (exitCode =? HF_ASAN_EXIT_CODE)
  || (exitCode =? HF_UBSAN_EXIT_CODE).

(** The same test on the [unsigned long] of the event message. *)
Definition sanitizer_exit_ul (exitCode : Z) : bool :=
  (exitCode =? u64 HF_MSAN_EXIT_CODE) || (exitCode =? u64 HF_ASAN_EXIT_CODE)
  || (exitCode =? u64 HF_UBSAN_EXIT_CODE).

(** [arch_ptraceEvent(hfuzz, fuzzer, status, pid)] *)
Definition arch_ptraceEvent (w : world) (status pid : Z) (ev : event_t)
    : outcome analysed_t :=
  if __WEVENT status =? PTRACE_EVENT_EXIT then
    match ev_msg ev with
    | None => Done (Analysed w None)
    | Some event_msg =>
        if WIFEXITED event_msg then
          if sanitizer_exit_ul (WEXITSTATUS event_msg) then
            match arch_ptraceExitSaveData w
                    (exit_at pid (s32 (WEXITSTATUS event_msg)) (ev_exit ev)) with
            | Fault => Fault
            | Done w' => Done (Analysed w' (Some 0))
            end
          else Done (Analysed w (Some 0))
        else Done (Analysed w (Some 0))
    end
  else Done (Analysed w (Some 0)).

(** [defined(WIFCONTINUED)] after [<sys/wait.h>] *)
Variable have_WIFCONTINUED : bool.

(** [arch_ptraceAnalyze(hfuzz, status, pid, fuzzer)]. Reading [arch_sigs]
    at an index from [NSIG] on is outside the table. *)
Definition arch_ptraceAnalyze (w : world) (status pid : Z) (ev : event_t)
    : outcome analysed_t :=
  if WIFSTOPPED status && negb (__WEVENT status =? 0) then
    arch_ptraceEvent w status pid ev
  else if WIFSTOPPED status then
    if NSIG <=? WSTOPSIG status then Fault
    else if arch_sigs_important android (WSTOPSIG status) then
      if mainWorker (w_fuzzer w) then
        match arch_ptraceSaveData w (stop_at pid (ev_stop ev)) with
        | Fault => Fault
        | Done w' => Done (Analysed w' (Some (WSTOPSIG status)))
        end
      else
        Done (Analysed (arch_ptraceAnalyzeData w (stop_at pid (ev_stop ev)) (ev_pcRegSz ev))
                (Some (WSTOPSIG status)))
    else Done (Analysed w (Some (WSTOPSIG status)))
  else if (if android && negb have_WIFCONTINUED
           then WIFCONTINUED_fallback status else WIFCONTINUED status)
       then Done (Analysed w None)
  else if WIFEXITED status then
    if sanitizer_exit (WEXITSTATUS status) then
      match arch_ptraceExitSaveData w (exit_at pid (WEXITSTATUS status) (ev_exit ev)) with
      | Fault => Fault
      | Done w' => Done (Analysed w' None)
      end
    else Done (Analysed w None)
  else if WIFSIGNALED status then Done (Analysed w None)
  else Done Aborted.

(** ** The fingerprint in closed form *)

(** From [h = 0], XOR in [util_hash] of the last three characters of each PC
    as [reg_str] prints it. *)
Definition hash_of_pcs (pcs : list Z) : Z :=
  fold_left (fun h p => Z.lxor h (u64 (util_hash (last3 (reg_str cpu p))))) pcs 0.

(** The PCs of the first [min funcCnt numMajorFrames] frames. *)
Definition major_pcs (hfuzz : honggfuzz_t) (funcs : list funcs_t) (funcCnt : nat)
    : list Z :=
  map (fun i => pc (funcs_get funcs i)) (seq 0 (Nat.min funcCnt (numMajorFrames hfuzz))).

(** ** Outcomes of a copy that finds its destination *)

(** What the claim about duplicates says of one run: the worker's
    [crashFileName] is cleared, [uniqueCrashesCnt] and the report are as
    before. *)
Definition reported_duplicate (w w' : world) : Prop :=
  crashFileName (w_fuzzer w') = ""
  /\ uniqueCrashesCnt (w_hfuzz w') = uniqueCrashesCnt (w_hfuzz w)
  /\ report (w_fuzzer w') = report (w_fuzzer w).

(** What the sanitizer exit path does instead: [crashFileName] keeps the
    name of the existing file, which is not empty, and the stack hash is
    cleared. *)
Definition kept_duplicate (w w' : world) (dst : string) : Prop :=
  crashFileName (w_fuzzer w') = dst
  /\ dst <> ""
  /\ backtrace (w_fuzzer w') = 0
  /\ uniqueCrashesCnt (w_hfuzz w') = uniqueCrashesCnt (w_hfuzz w)
  /\ report (w_fuzzer w') = report (w_fuzzer w).

(** ** The third token of a frame line *)

(** [targetStr] of [arch_parseAsanReport] when the line has three tokens:
    the offset the third [strtok_r] call returns, and the bytes as the
    three calls leave them. *)
Definition asan_target (mem : string) (l : nat) : option (nat * string) :=
  let '(_, savePtr1, mem1) := strtok_r mem l in
  let '(pcTok, savePtr2, mem2) := strtok_r mem1 savePtr1 in
  let '(targetTok, _, mem3) := strtok_r mem2 savePtr2 in
  match pcTok, targetTok with
  | Some _, Some t => Some (t, mem3)
  | _, _ => None
  end.

(** The block lies inside the address space. *)
Definition block_inside (b : block_t) : Prop :=
  0 <= b_base b
  /\ b_base b + Z.of_nat (String.length (b_bytes b)) <= 2 ^ (8 * Z.of_nat (REG_SIZE cpu)).

(** The block lies where its own size and twice its size from the end of
    the address space are free: neither in the first bytes of the address
    space nor in the last. *)
Definition block_placed (b : block_t) : Prop :=
  Z.of_nat (String.length (b_bytes b)) <= b_base b
  /\ b_base b + 2 * Z.of_nat (String.length (b_bytes b))
     <= 2 ^ (8 * Z.of_nat (REG_SIZE cpu)).

(** ** Fixed-width hexadecimal *)

(** The [n] low hexadecimal digits of [x], most significant first. *)
Fixpoint hex_fixed (n : nat) (x : Z) : string :=
  match n with
  | O => EmptyString
  | S n' => hex_fixed n' (x / 16) +:+ String (digit_char (x mod 16)) EmptyString
  end.

(** No byte of the string is NUL. *)
Fixpoint no_nul (s : string) : bool :=
  match s with
  | EmptyString => true
  | String c s' => negb (Ascii.eqb c NUL) && no_nul s'
  end.

(** ** Names and calls of the save paths *)

(** The name [saveCrash] gives the crash file of a stop, as a function of
    the world at the label and of the local [saveUnique]. *)
Definition saveCrash_name (w : world) (st : stop_t) (saveUnique : bool) : string :=
  let pc := if disableRandomization (w_hfuzz w) then st_pc st else 0 in
  let sig_addr := if disableRandomization (w_hfuzz w) then st_si_addr st else 0 in
  let sig_addr := if SI_FROMUSER (st_si_code st) then 0 else sig_addr in
  crash_name (w_hfuzz w) (w_fuzzer w) st saveUnique pc sig_addr.

(** The calls that consult a white list or a black list. *)
Definition filter_call (c : call_t) : bool :=
  match c with
  | Call_btContainsWLSymbol | Call_fastArray64Search _ | Call_btContainsBLSymbol => true
  | _ => false
  end.

(** ** Lines of a sanitizer report *)

(** The test a line has to pass to be taken for the header. *)
Definition header_line (header lineptr : string) : bool :=
  (strlen header <? strlen lineptr)%nat && strncmp_eq header lineptr (strlen header).

(** No byte of the string is NUL or [c]. *)
Definition str_free (c : ascii) (s : string) : bool :=
  str_forall (fun x => negb (Ascii.eqb x NUL) && negb (Ascii.eqb x c)) s.

(** A third token of the form [(module+offset)], the offset given as all
    its characters but the last, [off], and the last, [z]. *)
Definition dso_token (module off : string) (z : ascii) (rest : string) : string :=
  String "(" (module +:+ String "+" (off +:+ String z (String ")" rest))).

(** ** The same crash seen twice *)

(** A [honggfuzz_t] without its counters: what is configured. *)
Definition config (h : honggfuzz_t) : honggfuzz_t :=
  set_crashesCnt
    (set_uniqueCrashesCnt (set_blCrashesCnt (set_dynFileIterExpire h 0) 0) 0) 0.

(** Two stops that differ at most in the process, the time, and the luck of
    the copies. *)
Definition same_crash (st1 st2 : stop_t) : Prop :=
  st_si_signo st1 = st_si_signo st2 /\ st_si_code st1 = st_si_code st2
  /\ st_si_addr st1 = st_si_addr st2 /\ st_pc st1 = st_pc st2
  /\ st_instr st1 = st_instr st2 /\ st_unwind st1 = st_unwind st2
  /\ st_lr st1 = st_lr st2.

(** No white list, no black list, and file names made from the crash. *)
Definition unfiltered (h : honggfuzz_t) : Prop :=
  symbolsWhitelist h = None /\ blacklist h = None /\ symbolsBlacklist h = None
  /\ flipRate_is_zero h && useVerifier h = false.

(** * Properties *)

(** ** Register values in print *)

Lemma append_cons (x : ascii) (a b : string) : String x a +:+ b = String x (a +:+ b).
Proof. reflexivity. Qed.

Lemma append_assoc (a b c : string) : (a +:+ b) +:+ c = a +:+ (b +:+ c).
Proof.
  induction a as [|x a IH]; [reflexivity|]. rewrite !append_cons, IH. reflexivity.
Qed.

Lemma append_nil_r (a : string) : a +:+ "" = a.
Proof.
  induction a as [|x a IH]; [reflexivity|]. rewrite append_cons, IH. reflexivity.
Qed.

Lemma length_append (a b : string) :
  String.length (a +:+ b) = (String.length a + String.length b)%nat.
Proof.
  induction a as [|x a IH]; [reflexivity|]. rewrite append_cons. simpl. rewrite IH.
  reflexivity.
Qed.

Lemma fmt_radix_acc (fuel : nat) (base : Z) :
  forall (v : Z) (acc : string),
    fmt_radix fuel base v acc = fmt_radix fuel base v "" +:+ acc.
Proof.
  induction fuel as [|fuel IH]; intros v acc; simpl; [reflexivity|].
  destruct (v / base =? 0); [reflexivity|].
  rewrite IH. rewrite (IH _ (String _ "")). rewrite append_assoc. reflexivity.
Qed.

(** [fmt_radix] in base 16 prints the shortest [hex_fixed] that holds the
    value. *)
Lemma fmt_radix_hex (fuel : nat) :
  forall x : Z,
    0 <= x < 16 ^ Z.of_nat fuel ->
    (1 <= fuel)%nat ->
    exists k : nat,
      (1 <= k <= fuel)%nat
      /\ x < 16 ^ Z.of_nat k
      /\ (k = 1%nat \/ 16 ^ (Z.of_nat k - 1) <= x)
      /\ fmt_radix fuel 16 x "" = hex_fixed k x.
Proof.
  induction fuel as [|fuel IH]; intros x Hx Hf; [lia|]. simpl.
  destruct (x / 16 =? 0) eqn:Hq.
  - apply Z.eqb_eq in Hq. exists 1%nat.
    assert (x < 16) by (apply Z.div_small_iff in Hq; lia).
    repeat split; lia.
  - apply Z.eqb_neq in Hq.
    assert (H16 : 16 <= x).
    { destruct (Z_lt_le_dec x 16) as [Hlt|Hge]; [|exact Hge].
      exfalso. apply Hq. apply Z.div_small. lia. }
    assert (Hfuel : (1 <= fuel)%nat).
    { destruct fuel; [|lia]. simpl in Hx. lia. }
    assert (Hx' : 0 <= x / 16 < 16 ^ Z.of_nat fuel).
    { split; [apply Z.div_pos; lia|].
      apply Z.div_lt_upper_bound; [lia|].
      rewrite Nat2Z.inj_succ, Z.pow_succ_r in Hx by lia. lia. }
    destruct (IH (x / 16) Hx' Hfuel) as (k & Hk & Hlt & Hmin & Hfmt).
    exists (S k). rewrite fmt_radix_acc, Hfmt. simpl hex_fixed.
    rewrite Nat2Z.inj_succ.
    repeat split; try lia.
    + rewrite Z.pow_succ_r by lia.
      pose proof (Z.mul_div_le x 16 ltac:(lia)).
      pose proof (Z.mod_pos_bound x 16 ltac:(lia)).
      pose proof (Z.div_mod x 16 ltac:(lia)). lia.
    + right. replace (Z.succ (Z.of_nat k) - 1) with (Z.succ (Z.of_nat k - 1)) by lia.
      rewrite Z.pow_succ_r by lia.
      pose proof (Z.mul_div_le x 16 ltac:(lia)).
      destruct Hmin as [->|Hmin]; [simpl; lia|]. lia.
Qed.

Lemma zeros_snoc (n : nat) : zeros n +:+ "0" = String "0" (zeros n).
Proof.
  induction n as [|n IH]; [reflexivity|].
  simpl zeros. rewrite append_cons, IH. reflexivity.
Qed.

Lemma hex_fixed_zero (n : nat) : hex_fixed n 0 = zeros n.
Proof.
  induction n as [|n IH]; [reflexivity|].
  simpl hex_fixed. change (0 / 16) with 0.
  change (String (digit_char (0 mod 16)) "") with "0"%string.
  rewrite IH. apply zeros_snoc.
Qed.

Lemma hex_fixed_pad (k : nat) :
  forall (m : nat) (x : Z),
    0 <= x < 16 ^ Z.of_nat k ->
    hex_fixed (m + k) x = zeros m +:+ hex_fixed k x.
Proof.
  induction k as [|k IH]; intros m x Hx.
  - simpl in Hx. assert (x = 0) as -> by lia.
    rewrite Nat.add_0_r, hex_fixed_zero. simpl. rewrite append_nil_r. reflexivity.
  - replace (m + S k)%nat with (S (m + k)) by lia. simpl.
    rewrite IH, append_assoc; [reflexivity|].
    split; [apply Z.div_pos; lia|].
    apply Z.div_lt_upper_bound; [lia|].
    rewrite Nat2Z.inj_succ, Z.pow_succ_r in Hx by lia. lia.
Qed.

Lemma length_hex_fixed (n : nat) : forall x : Z, String.length (hex_fixed n x) = n.
Proof.
  induction n as [|n IH]; intros x; simpl; [reflexivity|].
  rewrite length_append, IH. simpl. lia.
Qed.

(** ["%0<w>lx"] of a value that fits in [w] digits is its [w] digits. *)
Lemma fmt_0x_fixed (w : nat) (x : Z) :
  (1 <= w <= 64)%nat ->
  0 <= x < 16 ^ Z.of_nat w ->
  fmt_0x w x = hex_fixed w x.
Proof.
  intros Hw Hx. unfold fmt_0x, fmt_x.
  destruct (fmt_radix_hex 64 x) as (k & Hk & Hlt & Hmin & Hfmt); [|lia|].
  { split; [lia|]. apply Z.lt_le_trans with (16 ^ Z.of_nat w); [lia|].
    apply Z.pow_le_mono_r; lia. }
  rewrite Hfmt, length_hex_fixed.
  assert (Hkw : (k <= w)%nat).
  { destruct Hmin as [->|Hmin]; [lia|].
    destruct (le_lt_dec k w) as [Hle|Hgt]; [exact Hle|]. exfalso.
    assert (16 ^ Z.of_nat w <= 16 ^ (Z.of_nat k - 1)) by (apply Z.pow_le_mono_r; lia).
    lia. }
  rewrite <- hex_fixed_pad by lia. f_equal. lia.
Qed.

Lemma str_take_all (n : nat) :
  forall s : string, (String.length s <= n)%nat -> str_take n s = s.
Proof.
  induction n as [|n IH]; intros [|c s] H; simpl in *; try reflexivity; try lia.
  rewrite IH by lia. reflexivity.
Qed.

Lemma reg_cast_range (c : cpu_t) (v : Z) :
  0 <= reg_cast c v < 16 ^ Z.of_nat (2 * REG_SIZE c).
Proof.
  unfold reg_cast.
  replace (16 ^ Z.of_nat (2 * REG_SIZE c)) with (2 ^ (8 * Z.of_nat (REG_SIZE c)))
    by (destruct c; reflexivity).
  apply Z.mod_pos_bound. destruct c; reflexivity.
Qed.

(** The printed register is ["0x"] and [2 * sizeof(REG_TYPE)] lowercase
    hexadecimal digits: [snprintf] cuts nothing off. *)
Lemma reg_str_fixed (c : cpu_t) (v : Z) :
  reg_str c v = "0x" +:+ hex_fixed (2 * REG_SIZE c) (reg_cast c v)
  /\ String.length (reg_str c v) = (2 + 2 * REG_SIZE c)%nat.
Proof.
  assert (E : reg_str c v = "0x" +:+ hex_fixed (2 * REG_SIZE c) (reg_cast c v)).
  { unfold reg_str, fmt_reg, snprintf.
    rewrite fmt_0x_fixed by (try apply reg_cast_range; destruct c; simpl; lia).
    apply str_take_all. rewrite length_append, length_hex_fixed.
    unfold REGSIZEINCHAR. simpl. lia. }
  split; [exact E|]. rewrite E, length_append, length_hex_fixed. reflexivity.
Qed.

Lemma cstr_no_nul (s : string) : no_nul s = true -> cstr s = s.
Proof.
  induction s as [|c s IH]; simpl; [reflexivity|].
  destruct (Ascii.eqb c NUL); simpl; [discriminate|].
  intros H. rewrite IH by exact H. reflexivity.
Qed.

Lemma no_nul_append (a b : string) : no_nul (a +:+ b) = no_nul a && no_nul b.
Proof.
  induction a as [|c a IH]; [reflexivity|].
  rewrite append_cons. simpl. rewrite IH, andb_assoc. reflexivity.
Qed.

Lemma digit_char_not_nul (d : Z) : Ascii.eqb (digit_char d) NUL = false.
Proof.
  unfold digit_char. generalize (Z.to_nat d). intros n.
  do 17 (try (destruct n as [|n]; [reflexivity|])). reflexivity.
Qed.

Lemma no_nul_hex_fixed (n : nat) : forall x : Z, no_nul (hex_fixed n x) = true.
Proof.
  induction n as [|n IH]; intros x; simpl hex_fixed; [reflexivity|].
  rewrite no_nul_append, IH. simpl. rewrite digit_char_not_nul. reflexivity.
Qed.

Lemma str_drop_append (a b : string) : str_drop (String.length a) (a +:+ b) = b.
Proof. induction a as [|c a IH]; [reflexivity|]. rewrite append_cons. simpl. exact IH. Qed.

Lemma hex_fixed_low3 (m : nat) (x : Z) :
  hex_fixed (3 + m) x = hex_fixed m (x / 16 / 16 / 16) +:+ hex_fixed 3 x.
Proof.
  replace (3 + m)%nat with (S (S (S m))) by lia. simpl hex_fixed.
  rewrite !append_assoc. reflexivity.
Qed.

(** The three bytes [arch_hashCallstack] hands to [util_hash] are the three
    low hexadecimal digits of the register value. *)
Lemma reg_str_last3 (c : cpu_t) (v : Z) :
  last3 (reg_str c v) = hex_fixed 3 (reg_cast c v).
Proof.
  destruct (reg_str_fixed c v) as [E Hlen].
  assert (Hm : exists m : nat, (2 * REG_SIZE c)%nat = (3 + m)%nat)
    by (destruct c; simpl; eexists; reflexivity).
  destruct Hm as [m Hm].
  unfold last3, strlen.
  rewrite cstr_no_nul
    by (rewrite E, no_nul_append, no_nul_hex_fixed; reflexivity).
  rewrite Hlen, E, Hm, hex_fixed_low3, <- append_assoc.
  replace (2 + (3 + m) - 3)%nat
    with (String.length ("0x" +:+ hex_fixed m (reg_cast c v / 16 / 16 / 16)))
    by (rewrite length_append, length_hex_fixed; simpl; lia).
  rewrite str_drop_append. apply str_take_all. rewrite length_hex_fixed. lia.
Qed.

(** ** Stack fingerprint *)

Lemma hashCallstack_loop_fold (fuel : nat) (funcs : list funcs_t) (funcCnt k : nat) :
  forall (i : nat) (hash : Z),
    (k <= fuel + i)%nat ->
    hashCallstack_loop fuel funcs funcCnt k i hash
    = fold_left (fun h p => Z.lxor h (u64 (util_hash (last3 (reg_str cpu p)))))
        (map (fun j => pc (funcs_get funcs j)) (seq i (Nat.min funcCnt k - i))) hash.
Proof.
  induction fuel as [|fuel IH]; intros i hash Hk; simpl.
  - replace (Nat.min funcCnt k - i)%nat with 0%nat by lia. reflexivity.
  - destruct (i <? funcCnt)%nat eqn:Hc; destruct (i <? k)%nat eqn:Hm; simpl;
      try (apply Nat.ltb_ge in Hc); try (apply Nat.ltb_ge in Hm);
      try (replace (Nat.min funcCnt k - i)%nat with 0%nat by lia; reflexivity).
    apply Nat.ltb_lt in Hc, Hm.
    replace (Nat.min funcCnt k - i)%nat with (S (Nat.min funcCnt k - S i)) by lia.
    simpl. rewrite IH by lia. reflexivity.
Qed.

Lemma hashCallstack_unmasked (hfuzz : honggfuzz_t) (funcs : list funcs_t) (funcCnt : nat) :
  arch_hashCallstack hfuzz funcs funcCnt false = hash_of_pcs (major_pcs hfuzz funcs funcCnt).
Proof.
  unfold arch_hashCallstack, hash_of_pcs, major_pcs. simpl.
  rewrite hashCallstack_loop_fold by lia. rewrite Nat.sub_0_r. reflexivity.
Qed.

Lemma hashCallstack_masked (hfuzz : honggfuzz_t) (funcs : list funcs_t) (funcCnt : nat)
    (enableMasking : bool) :
  arch_hashCallstack hfuzz funcs funcCnt enableMasking
  = if enableMasking && (funcCnt =? 1)%nat
    then Z.lor (hash_of_pcs (major_pcs hfuzz funcs funcCnt)) (u64 _HF_SINGLE_FRAME_MASK)
    else hash_of_pcs (major_pcs hfuzz funcs funcCnt).
Proof.
  rewrite <- hashCallstack_unmasked. unfold arch_hashCallstack.
  destruct enableMasking; reflexivity.
Qed.

Lemma funcs_get_set_ne (funcs : list funcs_t) (i j : nat) (f : funcs_t) :
  i <> j -> funcs_get (funcs_set funcs i f) j = funcs_get funcs j.
Proof.
  intros Hne. unfold funcs_get, funcs_set.
  rewrite list_lookup_insert_ne by exact Hne.
  destruct (decide (j < length funcs)%nat) as [Hlt|Hge].
  - rewrite lookup_app_l by exact Hlt. reflexivity.
  - rewrite lookup_app_r by lia.
    rewrite (lookup_ge_None_2 funcs j) by lia.
    destruct (replicate (S i - length funcs) funcs_zero !! (j - length funcs)%nat) eqn:E.
    + apply lookup_replicate in E as [-> _]. reflexivity.
    + reflexivity.
Qed.

(** C1. The stack fingerprint is a function of the PCs of the first
    [min funcCnt numMajorFrames] frames: it is the XOR, from 0, of
    [util_hash] of the last three characters of each of these PCs printed by
    [reg_str], which prints ["0x"] and the [2 * sizeof(REG_TYPE)] lowercase
    hexadecimal digits of the register value, with [_HF_SINGLE_FRAME_MASK]
    ORed in when masking is on and the count is one, and nothing else; so
    two frame arrays of the same count whose first major PCs agree get the
    same hash, whatever the masking flag, and storing another frame at an
    index from [numMajorFrames] on leaves the hash as it is. *)
Theorem hashCallstack_major_frames (hfuzz : honggfuzz_t) (funcs1 funcs2 : list funcs_t)
    (funcCnt : nat) (enableMasking : bool) :
  major_pcs hfuzz funcs1 funcCnt = major_pcs hfuzz funcs2 funcCnt ->
  arch_hashCallstack hfuzz funcs1 funcCnt enableMasking
    = (if enableMasking && (funcCnt =? 1)%nat
       then Z.lor (hash_of_pcs (major_pcs hfuzz funcs1 funcCnt)) (u64 _HF_SINGLE_FRAME_MASK)
       else hash_of_pcs (major_pcs hfuzz funcs1 funcCnt))
  /\ (forall p : Z,
        reg_str cpu p = "0x" +:+ hex_fixed (2 * REG_SIZE cpu) (reg_cast cpu p)
        /\ last3 (reg_str cpu p) = hex_fixed 3 (reg_cast cpu p))
  /\ arch_hashCallstack hfuzz funcs1 funcCnt enableMasking
     = arch_hashCallstack hfuzz funcs2 funcCnt enableMasking
  /\ (forall (i : nat) (f : funcs_t),
        (numMajorFrames hfuzz <= i)%nat ->
        arch_hashCallstack hfuzz (funcs_set funcs1 i f) funcCnt enableMasking
        = arch_hashCallstack hfuzz funcs1 funcCnt enableMasking).
Proof.
  intros Hagree. split; [apply hashCallstack_masked|].
  split; [intros p; split; [apply reg_str_fixed|apply reg_str_last3]|]. split.
  - rewrite !hashCallstack_masked, Hagree. reflexivity.
  - intros i f Hi. rewrite !hashCallstack_masked.
    assert (Hpcs : major_pcs hfuzz (funcs_set funcs1 i f) funcCnt
                   = major_pcs hfuzz funcs1 funcCnt).
    { unfold major_pcs. apply map_ext_in. intros j Hj.
      apply in_seq in Hj. rewrite funcs_get_set_ne by lia. reflexivity. }
    rewrite Hpcs. reflexivity.
Qed.

(** ** The signal save path *)

Lemma saveCrash_backtrace (w w' : world) (st : stop_t) (funcs : list funcs_t)
    (funcCnt : nat) (su : bool) :
  saveCrash w st funcs funcCnt su = Done w' ->
  backtrace (w_fuzzer w') = backtrace (w_fuzzer w).
Proof.
  unfold saveCrash. intros H.
  repeat case_match; simplify_eq; reflexivity.
Qed.

Lemma filter_and_save_backtrace (w w' : world) (st : stop_t) (funcs : list funcs_t)
    (funcCnt : nat) (su : bool) :
  filter_and_save w st funcs funcCnt su = Done w' ->
  backtrace (w_fuzzer w') = backtrace (w_fuzzer w).
Proof.
  unfold filter_and_save. intros H.
  repeat case_match; simplify_eq;
    try (apply saveCrash_backtrace in H; exact H); reflexivity.
Qed.

(** The hash a signal stop leaves in [fuzzer->backtrace] is the one computed
    before the duplicate test. *)
Lemma arch_ptraceSaveData_backtrace (w w' : world) (st : stop_t) :
  ignored (w_hfuzz w) st = false ->
  arch_ptraceSaveData w st = Done w' ->
  backtrace (w_fuzzer w') = backtrace (hash_stage w st).1.2.
Proof.
  intros Hign. unfold arch_ptraceSaveData. rewrite Hign.
  destruct (hash_stage w st) as [[[funcs funcCnt] fuzzer] su]. simpl.
  destruct (duplicate _ _).
  - intros H; inversion H; reflexivity.
  - intros H. apply filter_and_save_backtrace in H. exact H.
Qed.

(** The hash left by the stage that ends with the single-frame block. *)
Lemma hash_stage_backtrace (w : world) (st : stop_t) (funcs : list funcs_t)
    (funcCnt : nat) (su : bool) :
  unwind_or_pc (w_hfuzz w) st = (funcs, funcCnt, su) ->
  backtrace (hash_stage w st).1.2
  = Z.lxor (arch_hashCallstack (w_hfuzz w) funcs funcCnt su)
      (if su && (funcCnt =? 1)%nat && is_arm cpu
       then u64 (util_hash (last3 (reg_str cpu (default 0 (st_lr st)))))
       else 0).
Proof.
  intros Hunw. unfold hash_stage, single_frame. rewrite Hunw.
  destruct (useSanCov (w_hfuzz w)), su, (funcCnt =? 1)%nat, (is_arm cpu); simpl;
    rewrite ?Z.lxor_0_r; reflexivity.
Qed.

Lemma testbit_u64_63 (x : Z) : Z.testbit (u64 x) 63 = Z.testbit x 63.
Proof. unfold u64. apply Z.mod_pow2_bits_low. lia. Qed.

(** Folding in a value that has no bit of the mask commutes with the
    masking. *)
Lemma lxor_lor_mask (h l m : Z) :
  Z.land l m = 0 -> Z.lxor (Z.lor h m) l = Z.lor (Z.lxor h l) m.
Proof.
  intros Hl. apply Z.bits_inj'. intros n Hn.
  apply (f_equal (fun x => Z.testbit x n)) in Hl.
  rewrite Z.land_spec, Z.bits_0 in Hl.
  rewrite !Z.lxor_spec, !Z.lor_spec, Z.lxor_spec.
  destruct (Z.testbit h n), (Z.testbit l n), (Z.testbit m n); try reflexivity;
    discriminate Hl.
Qed.

Lemma land_lor_mask (x m : Z) : Z.land (Z.lor x m) m = m.
Proof.
  apply Z.bits_inj'. intros n Hn. rewrite Z.land_spec, Z.lor_spec.
  destruct (Z.testbit x n), (Z.testbit m n); reflexivity.
Qed.

(** C2. [util_hash] is not in this file; as long as its value for three
    hexadecimal digits has no bit of [_HF_SINGLE_FRAME_MASK], the stack
    hash of a single frame hashed with [saveUnique] set carries the mask on
    every CPU. [arch_hashCallstack] ORs the mask in, and on ARM and ARM64
    the hash of the link register is XORed in after that; the stored value
    is the one that folding the link register in first and masking
    afterwards gives. A stack that the local [saveUnique] does not mask
    leaves the plain XOR fold in [fuzzer->backtrace]. *)
Theorem single_frame_mask (w w' : world) (st : stop_t) (funcs : list funcs_t)
    (funcCnt : nat) (su : bool) :
  (forall v : Z,
     Z.land (u64 (util_hash (hex_fixed 3 v))) (u64 _HF_SINGLE_FRAME_MASK) = 0) ->
  ignored (w_hfuzz w) st = false ->
  unwind_or_pc (w_hfuzz w) st = (funcs, funcCnt, su) ->
  arch_ptraceSaveData w st = Done w' ->
  (su = false ->
   backtrace (w_fuzzer w') = hash_of_pcs (major_pcs (w_hfuzz w) funcs funcCnt))
  /\ (su = true -> funcCnt = 1%nat ->
      let lr_hash := u64 (util_hash (last3 (reg_str cpu (default 0 (st_lr st))))) in
      backtrace (w_fuzzer w')
      = Z.lor (Z.lxor (hash_of_pcs (major_pcs (w_hfuzz w) funcs 1))
                 (if is_arm cpu then lr_hash else 0))
          (u64 _HF_SINGLE_FRAME_MASK)
      /\ Z.land (backtrace (w_fuzzer w')) (u64 _HF_SINGLE_FRAME_MASK)
         = u64 _HF_SINGLE_FRAME_MASK
      /\ (Z.testbit _HF_SINGLE_FRAME_MASK 63 = true ->
          Z.testbit (backtrace (w_fuzzer w')) 63 = true)).
Proof.
  intros Hsmall Hign Hunw Hsave.
  rewrite (arch_ptraceSaveData_backtrace w w' st Hign Hsave).
  rewrite (hash_stage_backtrace w st funcs funcCnt su Hunw).
  rewrite hashCallstack_masked. split.
  - intros ->. simpl. apply Z.lxor_0_r.
  - intros -> ->. cbv zeta. cbn [andb Nat.eqb].
    assert (Hfold : Z.lxor
                      (Z.lor (hash_of_pcs (major_pcs (w_hfuzz w) funcs 1))
                         (u64 _HF_SINGLE_FRAME_MASK))
                      (if is_arm cpu
                       then u64 (util_hash (last3 (reg_str cpu (default 0 (st_lr st)))))
                       else 0)
                    = Z.lor
                        (Z.lxor (hash_of_pcs (major_pcs (w_hfuzz w) funcs 1))
                           (if is_arm cpu
                            then u64 (util_hash (last3 (reg_str cpu (default 0 (st_lr st)))))
                            else 0))
                        (u64 _HF_SINGLE_FRAME_MASK)).
    { apply lxor_lor_mask. destruct (is_arm cpu); [|reflexivity].
      rewrite reg_str_last3. apply Hsmall. }
    rewrite Hfold. split; [reflexivity|]. split; [apply land_lor_mask|].
    intros Hbit. rewrite Z.lor_spec, testbit_u64_63, Hbit. apply orb_true_r.
Qed.

(** The hashing stage writes [backtrace] and [sanCovCnts.crashesCnt] only. *)
Lemma hash_stage_frame (w : world) (st : stop_t) :
  crashFileName (hash_stage w st).1.2 = crashFileName (w_fuzzer w)
  /\ report (hash_stage w st).1.2 = report (w_fuzzer w)
  /\ fileName (hash_stage w st).1.2 = fileName (w_fuzzer w).
Proof.
  unfold hash_stage, single_frame.
  destruct (unwind_or_pc (w_hfuzz w) st) as [[funcs funcCnt] su].
  repeat case_match; simplify_eq; simpl; auto.
Qed.

(** C4. When [crashFileName] is set and the hash just computed equals the
    one stored before, [arch_ptraceSaveData] returns before the increment of
    [crashesCnt]: the shared [honggfuzz_t] (with [crashesCnt],
    [blCrashesCnt] and [uniqueCrashesCnt]) is as before, no collaborator is
    called (no filter, no copy) and the files are as before. *)
Theorem duplicate_dropped (w : world) (st : stop_t) :
  crashFileName (w_fuzzer w) <> "" ->
  backtrace (w_fuzzer w) = backtrace (hash_stage w st).1.2 ->
  exists w' : world,
    arch_ptraceSaveData w st = Done w'
    /\ w_hfuzz w' = w_hfuzz w
    /\ crashesCnt (w_hfuzz w') = crashesCnt (w_hfuzz w)
    /\ blCrashesCnt (w_hfuzz w') = blCrashesCnt (w_hfuzz w)
    /\ uniqueCrashesCnt (w_hfuzz w') = uniqueCrashesCnt (w_hfuzz w)
    /\ w_calls w' = w_calls w
    /\ w_files w' = w_files w
    /\ crashFileName (w_fuzzer w') = crashFileName (w_fuzzer w)
    /\ report (w_fuzzer w') = report (w_fuzzer w).
Proof.
  intros Hname Hsame. unfold arch_ptraceSaveData.
  destruct (ignored (w_hfuzz w) st).
  - exists w. repeat split; reflexivity.
  - destruct (hash_stage_frame w st) as (Hcf & Hrep & _).
    destruct (hash_stage w st) as [[[funcs funcCnt] fuzzer] su]. simpl in *.
    assert (Hdup : duplicate (backtrace (w_fuzzer w)) fuzzer = true).
    { unfold duplicate. rewrite Hcf, Hsame, Z.eqb_refl.
      destruct (String.eqb_spec (crashFileName (w_fuzzer w)) ""); [contradiction|reflexivity]. }
    rewrite Hdup. eexists. split; [reflexivity|]. simpl. repeat split; assumption.
Qed.

(** C7, as the code has it. A signal that is not user-induced, with a
    non-zero PC and a fault address below [ignoreAddr], is dropped: the
    whole state is as before. *)
Theorem ignored_below_ignoreAddr (w : world) (st : stop_t) :
  SI_FROMUSER (st_si_code st) = false ->
  st_pc st <> 0 ->
  st_si_addr st < ignoreAddr (w_hfuzz w) ->
  arch_ptraceSaveData w st = Done w.
Proof.
  intros Huser Hpc Haddr. unfold arch_ptraceSaveData, ignored.
  rewrite Huser. apply Z.eqb_neq in Hpc. rewrite Hpc.
  apply Z.ltb_lt in Haddr. rewrite Haddr. reflexivity.
Qed.

(** C5. A crash that reaches the filters (not ignored, not a duplicate)
    with no white-listed symbol in its backtrace and whose stack hash
    [fastArray64Search] finds in the black list: [blCrashesCnt] goes up by
    one (modulo 2^64), [uniqueCrashesCnt] stays, the only calls made are the
    filters up to the search, so no file is copied, and the files and the
    report are as before. *)
Theorem blacklisted_hash_dropped (w : world) (st : stop_t) (funcs : list funcs_t)
    (funcCnt : nat) (fuzzer : fuzzer_t) (su : bool) (bl : list Z) :
  ignored (w_hfuzz w) st = false ->
  hash_stage w st = (funcs, funcCnt, fuzzer, su) ->
  duplicate (backtrace (w_fuzzer w)) fuzzer = false ->
  (symbolsWhitelist (w_hfuzz w) = None
   \/ arch_btContainsWLSymbol
        (set_crashesCnt (w_hfuzz w) (sync_fetch_and_add (crashesCnt (w_hfuzz w)) 1))
        funcCnt funcs = None) ->
  blacklist (w_hfuzz w) = Some bl ->
  fastArray64Search bl (blacklistCnt (w_hfuzz w)) (backtrace fuzzer) <> -1 ->
  exists w' : world,
    arch_ptraceSaveData w st = Done w'
    /\ blCrashesCnt (w_hfuzz w') = u64 (blCrashesCnt (w_hfuzz w) + 1)
    /\ (0 <= blCrashesCnt (w_hfuzz w) < 2 ^ 64 - 1 ->
        blCrashesCnt (w_hfuzz w') = blCrashesCnt (w_hfuzz w) + 1)
    /\ uniqueCrashesCnt (w_hfuzz w') = uniqueCrashesCnt (w_hfuzz w)
    /\ w_calls w'
       = w_calls w
         ++ (if is_set (symbolsWhitelist (w_hfuzz w)) then [Call_btContainsWLSymbol] else [])
         ++ [Call_fastArray64Search (backtrace fuzzer)]
    /\ w_files w' = w_files w
    /\ report (w_fuzzer w') = report (w_fuzzer w)
    /\ crashFileName (w_fuzzer w') = crashFileName (w_fuzzer w).
Proof.
  intros Hign Hstage Hdup Hwl Hbl Hfound.
  destruct (hash_stage_frame w st) as (Hcf & Hrep & _). rewrite Hstage in Hcf, Hrep.
  simpl in Hcf, Hrep.
  unfold arch_ptraceSaveData. rewrite Hign, Hstage, Hdup.
  unfold filter_and_save. cbn [w_hfuzz w_fuzzer w_files w_calls].
  set (hfuzz' := set_crashesCnt (w_hfuzz w) _) in *.
  assert (Hnone : match symbolsWhitelist hfuzz' with
                  | Some _ => arch_btContainsWLSymbol hfuzz' funcCnt funcs
                  | None => None
                  end = None).
  { destruct Hwl as [Hwl|Hwl].
    - subst hfuzz'. simpl. rewrite Hwl. reflexivity.
    - destruct (symbolsWhitelist hfuzz'); [exact Hwl|reflexivity]. }
  rewrite Hnone.
  replace (blacklist hfuzz') with (Some bl) by (symmetry; exact Hbl).
  replace (blacklistCnt hfuzz') with (blacklistCnt (w_hfuzz w)) by reflexivity.
  apply Z.eqb_neq in Hfound. rewrite Hfound. cbn [negb].
  eexists. split; [reflexivity|]. cbn [w_hfuzz w_fuzzer w_files w_calls].
  assert (Hcnt : blCrashesCnt
                   (set_blCrashesCnt hfuzz' (sync_fetch_and_add (blCrashesCnt hfuzz') 1))
                 = u64 (blCrashesCnt (w_hfuzz w) + 1)) by reflexivity.
  rewrite Hcnt. repeat split; try assumption.
  - intros Hrange. unfold u64. apply Z.mod_small. lia.
  - rewrite <- app_assoc. reflexivity.
Qed.

(** C8. With [crashFileName] already set, [arch_ptraceExitSaveData]
    returns at once: the whole state (counters, [dynFileIterExpire], worker,
    files, calls) is as before, whatever the stack hash. *)
Theorem exit_first_hit_only (w : world) (ex : exit_t) :
  crashFileName (w_fuzzer w) <> "" ->
  arch_ptraceExitSaveData w ex = Done w.
Proof.
  intros Hname. unfold arch_ptraceExitSaveData.
  destruct (String.eqb_spec (crashFileName (w_fuzzer w)) ""); [contradiction|reflexivity].
Qed.

(** ** A copy that finds its destination *)

Lemma saveCrash_log (w w' : world) (st : stop_t) (funcs : list funcs_t)
    (funcCnt : nat) (su : bool) :
  saveCrash w st funcs funcCnt su = Done w' ->
  exists tail : list call_t,
    w_calls w' = w_calls w ++ tail
    /\ forall src dst, In (Call_copyFile src dst false true) tail -> reported_duplicate w w'.
Proof.
  unfold saveCrash, reported_duplicate. intros H.
  destruct (files_copyFile _ _ _) as [[[] e] files]; cbn [fst snd] in H.
  - repeat case_match; simplify_eq; cbn [w_calls];
      eexists; (split; [try rewrite <- app_assoc; reflexivity|]);
      intros src dst Hin; simpl in Hin; intuition discriminate.
  - destruct e; simplify_eq; cbn [w_calls w_fuzzer w_hfuzz];
      eexists; (split; [reflexivity|]); intros src dst Hin; simpl in Hin.
    + repeat split; reflexivity.
    + intuition discriminate.
Qed.

Lemma filter_and_save_log (w w' : world) (st : stop_t) (funcs : list funcs_t)
    (funcCnt : nat) (su : bool) :
  filter_and_save w st funcs funcCnt su = Done w' ->
  exists tail : list call_t,
    w_calls w' = w_calls w ++ tail
    /\ forall src dst, In (Call_copyFile src dst false true) tail -> reported_duplicate w w'.
Proof.
  unfold filter_and_save. intros H.
  repeat case_match; simplify_eq;
    try (apply saveCrash_log in H as (tail & Hcalls & Hdup); cbn [w_calls] in Hcalls;
         rewrite Hcalls, <- ?app_assoc; eexists; split; [reflexivity|];
         intros src dst Hin; rewrite ?in_app_iff in Hin; simpl in Hin;
         destruct (Hdup src dst) as (? & ? & ?); [intuition discriminate|];
         repeat split; assumption);
    cbn [w_calls]; rewrite <- ?app_assoc; eexists; (split; [reflexivity|]);
    intros src dst Hin; rewrite ?in_app_iff in Hin; simpl in Hin; intuition discriminate.
Qed.

Lemma arch_ptraceSaveData_log (w w' : world) (st : stop_t) :
  arch_ptraceSaveData w st = Done w' ->
  exists tail : list call_t,
    w_calls w' = w_calls w ++ tail
    /\ forall src dst, In (Call_copyFile src dst false true) tail -> reported_duplicate w w'.
Proof.
  unfold arch_ptraceSaveData. intros H.
  destruct (ignored (w_hfuzz w) st).
  { simplify_eq. exists []. rewrite app_nil_r. split; [reflexivity|]. intros ? ? []. }
  destruct (hash_stage_frame w st) as (Hcf & Hrep & _).
  destruct (hash_stage w st) as [[[funcs funcCnt] fuzzer] su]. simpl in Hcf, Hrep.
  destruct (duplicate _ _).
  { simplify_eq. exists []. cbn [w_calls]. rewrite app_nil_r.
    split; [reflexivity|]. intros ? ? []. }
  apply filter_and_save_log in H as (tail & Hcalls & Hdup). cbn [w_calls] in Hcalls.
  exists tail. split; [exact Hcalls|].
  intros src dst Hin. destruct (Hdup src dst Hin) as (H1 & H2 & H3).
  cbn [w_hfuzz w_fuzzer] in H2, H3. repeat split; [exact H1|exact H2|congruence].
Qed.

Lemma append_nonempty_r (a b : string) : b <> "" -> a +:+ b <> "".
Proof. destruct a; simpl; [auto|discriminate]. Qed.

Lemma append_nonempty_l (a b : string) : a <> "" -> a +:+ b <> "".
Proof. destruct a; simpl; [contradiction|discriminate]. Qed.

Lemma snprintf_nonempty (n : nat) (s : string) : (2 <= n)%nat -> s <> "" -> snprintf n s <> "".
Proof.
  intros Hn Hs. unfold snprintf. destruct (n - 1)%nat eqn:E; [lia|].
  destruct s; [contradiction|discriminate].
Qed.

Lemma exit_crash_name_nonempty (hfuzz : honggfuzz_t) (fuzzer : fuzzer_t) (ex : exit_t)
    (pc' crashAddr' : Z) (op' : string) :
  exit_crash_name hfuzz fuzzer ex pc' crashAddr' op' <> "".
Proof.
  assert (HP : (2 <= PATH_MAX)%nat) by (unfold PATH_MAX; lia).
  unfold exit_crash_name.
  repeat case_match; apply snprintf_nonempty; try exact HP;
    repeat first [ apply append_nonempty_l; apply append_nonempty_r; discriminate
                 | apply append_nonempty_r; discriminate ].
Qed.

Lemma exit_save_log (w w' : world) (ex : exit_t) (funcs : list funcs_t) (funcCnt : Z)
    (pc' crashAddr' : Z) (op' : string) :
  exit_save w ex funcs funcCnt pc' crashAddr' op' = Done w' ->
  exists c : call_t,
    w_calls w' = w_calls w ++ [c]
    /\ forall src dst, c = Call_copyFile src dst false true -> kept_duplicate w w' dst.
Proof.
  unfold exit_save, kept_duplicate.
  pose proof (exit_crash_name_nonempty (w_hfuzz w) (w_fuzzer w) ex pc' crashAddr' op') as Hne.
  destruct (files_copyFile _ _ _) as [[[] e] files]; cbn [fst snd].
  - destruct (exit_report _ _ _ _ _ _); [|discriminate]. intros [= <-].
    eexists. split; [reflexivity|]. intros src dst Hc. discriminate.
  - destruct e; intros [= <-]; cbn [w_calls w_fuzzer w_hfuzz]; eexists;
      (split; [reflexivity|]); intros src dst Hc; [|discriminate].
    injection Hc as _ <-. simpl. repeat split. exact Hne.
Qed.

Lemma arch_ptraceExitSaveData_log (w w' : world) (ex : exit_t) :
  arch_ptraceExitSaveData w ex = Done w' ->
  exists tail : list call_t,
    w_calls w' = w_calls w ++ tail
    /\ forall src dst, In (Call_copyFile src dst false true) tail -> kept_duplicate w w' dst.
Proof.
  unfold arch_ptraceExitSaveData. intros H.
  destruct (negb _).
  { simplify_eq. exists []. rewrite app_nil_r. split; [reflexivity|]. intros ? ? []. }
  destruct (ex_exitCode ex =? HF_ASAN_EXIT_CODE).
  - destruct (arch_parseAsanReport _ _ _ _ _) as [[[[funcCnt funcs] crashAddr'] op']|];
      [|discriminate].
    destruct (funcCnt =? -1).
    { simplify_eq. cbn [w_calls]. eexists. split; [reflexivity|].
      intros src dst Hin. simpl in Hin. intuition discriminate. }
    apply exit_save_log in H as (c & Hcalls & Hdup).
    rewrite Hcalls. cbn [w_calls]. rewrite <- app_assoc.
    eexists. split; [reflexivity|].
    intros src dst Hin. simpl in Hin.
    destruct Hin as [Hin|[Hin|[Hin|[]]]]; try discriminate.
    destruct (Hdup src dst Hin) as (H1 & H2 & H3 & H4 & H5).
    repeat split; assumption.
  - apply exit_save_log in H as (c & Hcalls & Hdup).
    rewrite Hcalls. cbn [w_calls].
    eexists. split; [reflexivity|].
    intros src dst Hin. simpl in Hin.
    destruct Hin as [Hin|[]].
    destruct (Hdup src dst Hin) as (H1 & H2 & H3 & H4 & H5).
    repeat split; assumption.
Qed.

(** C6, as the code has it. When the copy of the crash file returns false
    with [dstExists] set, [uniqueCrashesCnt] is not incremented and no
    report is written on either path. The signal path then clears
    [crashFileName]; the sanitizer exit path keeps the name of the existing
    file in [crashFileName] and clears the stack hash instead. *)
Theorem copy_onto_existing_file (w w' : world) (new : list call_t) (src dst : string) :
  w_calls w' = w_calls w ++ new ->
  In (Call_copyFile src dst false true) new ->
  (forall st : stop_t, arch_ptraceSaveData w st = Done w' -> reported_duplicate w w')
  /\ (forall ex : exit_t, arch_ptraceExitSaveData w ex = Done w' -> kept_duplicate w w' dst).
Proof.
  intros Hcalls Hin. split.
  - intros st H. apply arch_ptraceSaveData_log in H as (tail & Hcalls' & Hdup).
    rewrite Hcalls in Hcalls'. apply app_inv_head in Hcalls'. subst tail.
    exact (Hdup src dst Hin).
  - intros ex H. apply arch_ptraceExitSaveData_log in H as (tail & Hcalls' & Hdup).
    rewrite Hcalls in Hcalls'. apply app_inv_head in Hcalls'. subst tail.
    exact (Hdup src dst Hin).
Qed.
(** ** The sanitizer report parser *)

Lemma strncmp_READ_not_WRITE (lineptr : string) :
  strncmp_eq lineptr "READ" 4 = true -> strncmp_eq lineptr "WRITE" 5 = false.
Proof.
  unfold strncmp_eq.
  change (str_take 4 (cstr "READ")) with "READ".
  change (str_take 5 (cstr "WRITE")) with "WRITE".
  destruct (cstr lineptr) as [|c s]; intros H; apply String.eqb_eq in H;
    cbn [str_take] in H; [discriminate|].
  injection H as -> _. apply String.eqb_neq. cbn [str_take]. discriminate.
Qed.

(** The two [strncmp] tests are taken on a non-zero result: on a line that
    holds the text of the crash address, [*op] becomes ["WRITE"] when the
    line begins with ["READ"] and ["READ"] in every other case. *)
Lemma asan_op_inverted (c lineptr op0 : string) :
  asan_op (Some c) lineptr op0
  = match strstr lineptr c with
    | None => op0
    | Some _ => if strncmp_eq lineptr "READ" 4 then "WRITE" else "READ"
    end.
Proof.
  unfold asan_op. destruct (strstr lineptr c); [|reflexivity].
  destruct (strncmp_eq lineptr "READ" 4) eqn:HR; simpl; [|reflexivity].
  rewrite (strncmp_READ_not_WRITE lineptr HR). reflexivity.
Qed.

(** A round that goes past the length test leaves in [*op] what [asan_op]
    computes from the text at [cAddr]. *)
Lemma asan_frames_op (a a' : asan_t) (b : block_t) (c : option string) :
  (10 <= strlen (str_drop (space_run (b_bytes b)) (b_bytes b)))%nat ->
  asan_cAddr_text b (cAddr a) = Done c ->
  asan_frames a b = Continue a' \/ asan_frames a b = Break a' ->
  op a' = asan_op c (str_drop (space_run (b_bytes b)) (b_bytes b)) (op a).
Proof.
  intros Hlen Hc. unfold asan_frames.
  cbn [set_lineptr set_op frameIdx framePrefix cAddr op a_funcs headerFound crashAddr].
  assert (Hne : String.eqb (cstr (str_drop (space_run (b_bytes b)) (b_bytes b))) "" = false).
  { apply String.eqb_neq. intros E. unfold strlen in Hlen. rewrite E in Hlen.
    simpl in Hlen. lia. }
  rewrite Hne. cbn [andb]. apply Nat.ltb_ge in Hlen. rewrite Hlen, Hc.
  intros H. repeat case_match; destruct H as [H|H]; simplify_eq; reflexivity.
Qed.

(** *** Bytes and offsets *)

Lemma cstr_append_nul (s r : string) : cstr (s +:+ String NUL r) = cstr s.
Proof.
  induction s as [|c s IH]; [reflexivity|]. rewrite append_cons. cbn [cstr].
  rewrite IH. reflexivity.
Qed.

Lemma length_str_set (i : nat) (c : ascii) :
  forall s : string, String.length (str_set i c s) = String.length s.
Proof.
  induction i as [|i IH]; intros [|d s]; simpl; try reflexivity.
  rewrite IH. reflexivity.
Qed.


Lemma str_drop_drop (n : nat) :
  forall (m : nat) (s : string), str_drop n (str_drop m s) = str_drop (m + n) s.
Proof.
  intros m. revert n. induction m as [|m IH]; intros n s; [reflexivity|].
  destruct s as [|d s]; simpl; [destruct n; reflexivity|]. apply IH.
Qed.

(** The byte at an offset heads what is left behind that offset. *)
Lemma str_drop_byte_at (n : nat) :
  forall s : string,
    (n < String.length s)%nat ->
    str_drop n s = String (byte_at s n) (str_drop (S n) s).
Proof.
  unfold byte_at. induction n as [|n IH]; intros [|d s] Hn; simpl in *; try lia.
  - reflexivity.
  - rewrite (IH s) by lia. reflexivity.
Qed.

Lemma byte_at_end (n : nat) :
  forall s : string, (String.length s <= n)%nat -> byte_at s n = NUL.
Proof.
  unfold byte_at. induction n as [|n IH]; intros [|d s] Hn; simpl in *;
    try reflexivity; try lia.
  apply IH. lia.
Qed.





(** *** [strtok_r] *)

Lemma strcspn_sp_pos (s : string) (c : ascii) :
  Ascii.eqb c NUL = false -> Ascii.eqb c SP = false ->
  (1 <= strcspn_sp (String c s))%nat.
Proof. intros Hn Hs. cbn [strcspn_sp]. rewrite Hn, Hs. simpl. lia. Qed.

Lemma strspn_sp_stops (s : string) :
  Ascii.eqb (byte_at s (strspn_sp s)) SP = false.
Proof.
  induction s as [|c s IH]; [reflexivity|]. cbn [strspn_sp].
  destruct (Ascii.eqb c SP) eqn:Hc; [exact IH|exact Hc].
Qed.

Lemma byte_at_drop (n k : nat) (s : string) :
  byte_at (str_drop n s) k = byte_at s (n + k).
Proof.
  revert s. induction n as [|n IH]; intros s; [reflexivity|].
  destruct s as [|d s]; [destruct k; reflexivity|]. apply IH.
Qed.

(** A token lies between the offset the search starts at and the new
    [savePtr], and the call leaves the length of the bytes as it is. *)
Lemma strtok_r_token (mem mem' : string) (s p save : nat) :
  strtok_r mem s = (Some p, save, mem') ->
  (s <= p < save)%nat /\ String.length mem' = String.length mem.
Proof.
  unfold strtok_r.
  set (p0 := (s + strspn_sp (str_drop s mem))%nat).
  destruct (Ascii.eqb (byte_at mem p0) NUL) eqn:Hnul; [discriminate|].
  assert (Hsp : Ascii.eqb (byte_at mem p0) SP = false).
  { unfold p0. rewrite <- byte_at_drop. apply strspn_sp_stops. }
  assert (Hin : (p0 < String.length mem)%nat).
  { destruct (Nat.lt_ge_cases p0 (String.length mem)) as [H|H]; [exact H|].
    rewrite (byte_at_end _ _ H) in Hnul. discriminate. }
  assert (Hpos : (1 <= strcspn_sp (str_drop p0 mem))%nat).
  { rewrite (str_drop_byte_at _ _ Hin). apply strcspn_sp_pos; assumption. }
  destruct (Ascii.eqb (byte_at mem (p0 + _)) NUL); intros H;
    injection H as <- <- <-.
  - split; [unfold p0 in *; lia|reflexivity].
  - split; [unfold p0 in *; lia|apply length_str_set].
Qed.

Lemma strtok_r_save (mem mem' : string) (s save : nat) (tok : option nat) :
  strtok_r mem s = (tok, save, mem') ->
  (s <= save)%nat /\ String.length mem' = String.length mem.
Proof.
  destruct tok as [p|].
  - intros H. apply strtok_r_token in H. lia.
  - unfold strtok_r. intros H. repeat case_match; simplify_eq. split; [lia|reflexivity].
Qed.

(** The third token of a line stands behind another one. *)
Lemma asan_target_bounds (mem mem3 : string) (l t : nat) :
  asan_target mem l = Some (t, mem3) ->
  (1 <= t < String.length mem3)%nat /\ String.length mem3 = String.length mem.
Proof.
  unfold asan_target.
  destruct (strtok_r mem l) as [[t1 s1] m1] eqn:H1.
  destruct (strtok_r m1 s1) as [[t2 s2] m2] eqn:H2.
  destruct (strtok_r m2 s2) as [[t3 s3] m3] eqn:H3.
  destruct t2 as [p|]; [|discriminate]. destruct t3 as [t'|]; [|discriminate].
  intros [= <- <-].
  apply strtok_r_save in H1 as [Hs1 Hl1].
  apply strtok_r_token in H2 as [Hs2 Hl2].
  pose proof H3 as H3'. apply strtok_r_token in H3 as [Hs3 Hl3].
  split; [|congruence]. split; [lia|].
  unfold strtok_r in H3'.
  destruct (Ascii.eqb (byte_at m2 _) NUL) eqn:Hnul; [discriminate|].
  assert (Ht : t' = (s2 + strspn_sp (str_drop s2 m2))%nat)
    by (repeat case_match; simplify_eq; reflexivity).
  rewrite <- Ht in Hnul.
  destruct (Nat.lt_ge_cases t' (String.length m2)) as [H|H]; [lia|].
  rewrite (byte_at_end _ _ H) in Hnul. discriminate.
Qed.

(** *** Addresses *)

Lemma ptr_small (x : Z) : 0 <= x < 2 ^ (8 * Z.of_nat (REG_SIZE cpu)) -> ptr x = x.
Proof. intros H. unfold ptr, reg_cast. apply Z.mod_small. exact H. Qed.



Lemma ptr_range (x : Z) : 0 <= ptr x < 2 ^ (8 * Z.of_nat (REG_SIZE cpu)).
Proof. unfold ptr, reg_cast. apply Z.mod_pos_bound. apply Z.pow_pos_nonneg; lia. Qed.

Lemma block_off_inside (b : block_t) (i : nat) :
  (i < String.length (b_bytes b))%nat ->
  block_off b (b_base b + Z.of_nat i) = Some i.
Proof.
  intros Hi. unfold block_off.
  assert (H1 : (b_base b <=? b_base b + Z.of_nat i) = true) by (apply Z.leb_le; lia).
  assert (H2 : (b_base b + Z.of_nat i <? b_base b + Z.of_nat (String.length (b_bytes b)))
               = true) by (apply Z.ltb_lt; lia).
  rewrite H1, H2. cbn [andb]. f_equal. lia.
Qed.

Lemma block_off_mk (base : Z) (bytes : string) (i : nat) :
  (i < String.length bytes)%nat ->
  block_off (mk_block base bytes) (base + Z.of_nat i) = Some i.
Proof. intros Hi. apply (block_off_inside (mk_block base bytes) i). exact Hi. Qed.



(** *** Where the store lands *)

Section Cut.

Variable b : block_t.
Variable t : nat.
Hypothesis Hplaced : block_placed b.
Hypothesis Ht : (1 <= t < String.length (b_bytes b))%nat.





End Cut.




(** ** Task enumeration *)

Lemma array_store_length (a a' : list Z) (i : nat) (v : Z) :
  array_store a i v = Done a' -> length a' = length a.
Proof.
  unfold array_store. destruct (i <? length a)%nat; [|discriminate].
  intros [= <-]. apply length_insert.
Qed.

Lemma array_store_defined (a : list Z) (i : nat) (v : Z) :
  array_store a i v <> Fault <-> (i < length a)%nat.
Proof.
  unfold array_store. destruct (i <? length a)%nat eqn:E.
  - apply Nat.ltb_lt in E. split; [auto|discriminate].
  - apply Nat.ltb_ge in E. split; [contradiction|lia].
Qed.

(** The loop keeps the array's length, and as long as it is entered below
    [thrSz] it leaves with at most [thrSz] tasks. *)
Lemma listThreads_loop_bounds (thrSz : nat) (ents : list readdir_t) :
  forall (tasks tasks' : list Z) (count count' : nat),
    listThreads_loop ents tasks thrSz count = Done (tasks', Some count') ->
    length tasks' = length tasks
    /\ (count <= count')%nat
    /\ ((count < thrSz)%nat -> (count' <= thrSz)%nat).
Proof.
  induction ents as [|e ents IH]; intros tasks tasks' count count'; simpl.
  - intros [= <- <-]. repeat split; lia.
  - destruct e as [|d_name]; [discriminate|].
    destruct (s32 (strtol d_name 10) =? 0); [apply IH|].
    destruct (array_store tasks count _) as [tasks1|] eqn:Hst; [|discriminate].
    apply array_store_length in Hst.
    destruct (thrSz <=? S count)%nat eqn:Hfull.
    + intros [= <- <-]. apply Nat.leb_le in Hfull. repeat split; [exact Hst|lia|lia].
    + intros H. apply IH in H as (H1 & H2 & H3). apply Nat.leb_gt in Hfull.
      repeat split; [congruence|lia|intros _; apply H3; lia].
Qed.

(** C9. With an array of [thrSz + 1] entries and [count] tasks collected,
    [arch_listThreads] stores the terminating zero at index [count + 1].
    The store is inside the array exactly when [count < thrSz]; the loop
    leaves with [count <= thrSz], and when it has filled the array to
    capacity ([count = thrSz]) the index [count + 1] is the length of the
    array, one past its last entry, and the call faults. *)
Theorem listThreads_terminator (tasks tasks' : list Z) (thrSz count : nat)
    (ents : list readdir_t) :
  length tasks = S thrSz ->
  listThreads_loop ents tasks thrSz 0 = Done (tasks', Some count) ->
  arch_listThreads tasks thrSz (Some ents)
  = match array_store tasks' (count + 1) 0 with
    | Fault => Fault
    | Done tasks'' => Done (negb (count <? 1)%nat, tasks'')
    end
  /\ length tasks' = S thrSz
  /\ ((1 <= thrSz)%nat -> (count <= thrSz)%nat)
  /\ (arch_listThreads tasks thrSz (Some ents) <> Fault <-> (count < thrSz)%nat)
  /\ (count = thrSz ->
      (count + 1)%nat = length tasks'
      /\ arch_listThreads tasks thrSz (Some ents) = Fault).
Proof.
  intros Hlen Hloop.
  destruct (listThreads_loop_bounds thrSz ents tasks tasks' 0 count Hloop) as (Hl & _ & Hc).
  assert (Hcall : arch_listThreads tasks thrSz (Some ents)
                  = match array_store tasks' (count + 1) 0 with
                    | Fault => Fault
                    | Done tasks'' => Done (negb (count <? 1)%nat, tasks'')
                    end).
  { unfold arch_listThreads, listThreads_zero_index. rewrite Hloop. reflexivity. }
  split; [exact Hcall|]. split; [congruence|]. split; [intros H; apply Hc; lia|].
  rewrite Hcall. split.
  - pose proof (array_store_defined tasks' (count + 1) 0) as Hdef.
    destruct (array_store tasks' (count + 1) 0) eqn:E.
    + split; [intros _|discriminate].
      assert (H : (count + 1 < length tasks')%nat) by (apply Hdef; discriminate). lia.
    + split; [contradiction|]. intros Hlt. exfalso.
      assert (H : @Fault (list Z) <> Fault) by (apply Hdef; lia). contradiction.
  - intros ->. split; [lia|].
    unfold array_store.
    assert (E : (thrSz + 1 <? length tasks')%nat = false) by (apply Nat.ltb_ge; lia).
    rewrite E. reflexivity.
Qed.

(** Without a [readdir_r] error the loop collects every thread listed, up
    to [thrSz] of them. *)
Lemma listThreads_loop_count (thrSz : nat) (ents : list readdir_t) :
  forallb readdir_ok ents = true ->
  forall (tasks : list Z) (count : nat),
    (count < thrSz)%nat ->
    length tasks = S thrSz ->
    exists tasks' : list Z,
      listThreads_loop ents tasks thrSz count
      = Done (tasks', Some (Nat.min thrSz (count + numeric_count ents)))
      /\ length tasks' = S thrSz.
Proof.
  unfold numeric_count.
  induction ents as [|e ents IH]; intros Hok tasks count Hc Hlen; simpl.
  - exists tasks. rewrite Nat.add_0_r, Nat.min_r by lia. split; [reflexivity|exact Hlen].
  - destruct e as [|d_name]; simpl in Hok; [discriminate|]. simpl.
    destruct (s32 (strtol d_name 10) =? 0); simpl.
    + apply IH; assumption.
    + unfold array_store.
      assert (Hin : (count <? length tasks)%nat = true) by (apply Nat.ltb_lt; lia).
      rewrite Hin.
      destruct (thrSz <=? S count)%nat eqn:Hfull.
      * apply Nat.leb_le in Hfull. eexists. rewrite Nat.min_l by lia.
        replace thrSz with (S count) by lia.
        split; [reflexivity|]. rewrite length_insert. lia.
      * apply Nat.leb_gt in Hfull.
        destruct (IH Hok (<[count := s32 (strtol d_name 10)]> tasks) (S count))
          as (tasks' & Hloop & Hlen'); [lia|rewrite length_insert; exact Hlen|].
        exists tasks'. rewrite Hloop.
        replace (S count + length (List.filter numeric_entry ents))%nat
          with (count + S (length (List.filter numeric_entry ents)))%nat by lia.
        split; [reflexivity|exact Hlen'].
Qed.

(** A process with at least [thrSz] threads makes [arch_listThreads] store
    the zero past the end of an array of [thrSz + 1] entries. *)
Lemma listThreads_full_faults (tasks : list Z) (thrSz : nat) (ents : list readdir_t) :
  forallb readdir_ok ents = true ->
  (1 <= thrSz <= numeric_count ents)%nat ->
  length tasks = S thrSz ->
  arch_listThreads tasks thrSz (Some ents) = Fault.
Proof.
  intros Hok Hfull Hlen. unfold arch_listThreads.
  destruct (listThreads_loop_count thrSz ents Hok tasks 0) as (tasks' & Hloop & Hlen');
    [lia|exact Hlen|].
  rewrite Hloop. rewrite Nat.min_l by lia.
  unfold array_store, listThreads_zero_index.
  assert (E : (thrSz + 1 <? length tasks')%nat = false) by (apply Nat.ltb_ge; lia).
  rewrite E. reflexivity.
Qed.

(** [arch_ptraceAttach] on a process with [MAX_THREAD_IN_TASK] threads or
    more: the enumeration fills [tasks] and the zero is stored at index
    [MAX_THREAD_IN_TASK + 1] of an array of that many entries. *)
Lemma ptraceAttach_full_faults (pid : Z) (seize : Z -> bool) (ents : list readdir_t) :
  seize pid = true ->
  forallb readdir_ok ents = true ->
  (MAX_THREAD_IN_TASK <= numeric_count ents)%nat ->
  arch_ptraceAttach pid seize (Some ents) = Fault.
Proof.
  intros Hseize Hok Hfull. unfold arch_ptraceAttach. rewrite Hseize. cbn [negb].
  rewrite listThreads_full_faults; [reflexivity|exact Hok| |].
  - split; [unfold MAX_THREAD_IN_TASK; lia|exact Hfull].
  - rewrite length_replicate. lia.
Qed.
(** ** What the fingerprint cannot tell apart *)

(** Drop the parameters of the section that the goal does not mention,
    then decide a goal of linear arithmetic with division and remainder by
    constants. *)
Ltac section_clear :=
  try clear have_WIFCONTINUED; try clear android; try clear _HF_INSTR_SZ; try clear ptrace_peek_clears_errno; try clear getline_block;
  try clear HF_USE_CAPSTONE;
  try clear HF_UBSAN_EXIT_CODE; try clear HF_ASAN_EXIT_CODE; try clear HF_MSAN_EXIT_CODE;
  try clear kLOGPREFIX; try clear _HF_REPORT_SIZE; try clear util_ssnprintf;
  try clear fmt_p; try clear fastArray64Search; try clear arch_btContainsBLSymbol;
  try clear arch_btContainsWLSymbol; try clear _HF_DYNFILE_SUB_MASK;
  try clear _HF_SINGLE_FRAME_MASK; try clear util_hash; try clear cpu.

Ltac div_mod_lia := section_clear; Z.div_mod_to_equations; lia.

Lemma hex_fixed_mod (n : nat) :
  forall x : Z, hex_fixed n (x mod 16 ^ Z.of_nat n) = hex_fixed n x.
Proof using Type.
  induction n as [|n IH]; intros x; [reflexivity|].
  cbn [hex_fixed].
  replace (16 ^ Z.of_nat (S n)) with (16 * 16 ^ Z.of_nat n)
    by (rewrite Nat2Z.inj_succ, Z.pow_succ_r; lia).
  assert (Hpos : 0 < 16 ^ Z.of_nat n) by (apply Z.pow_pos_nonneg; lia).
  rewrite Z.rem_mul_r by lia.
  assert (H1 : forall q : Z, (x mod 16 + 16 * q) / 16 = q) by (intros q; div_mod_lia).
  assert (H2 : forall q : Z, (x mod 16 + 16 * q) mod 16 = x mod 16) by (intros q; div_mod_lia).
  rewrite H1, H2, IH. reflexivity.
Qed.

(** The three characters that are hashed are the three low hexadecimal
    digits of the PC. *)
Lemma last3_reg_str_mod (c : cpu_t) (v : Z) :
  last3 (reg_str c v) = hex_fixed 3 (v mod 4096).
Proof using Type.
  rewrite reg_str_last3, <- (hex_fixed_mod 3 (reg_cast c v)).
  f_equal. unfold reg_cast. change (16 ^ Z.of_nat 3) with 4096.
  destruct c; simpl; div_mod_lia.
Qed.

Lemma hash_of_pcs_mod (pcs1 pcs2 : list Z) :
  map (fun p => p mod 4096) pcs1 = map (fun p => p mod 4096) pcs2 ->
  hash_of_pcs pcs1 = hash_of_pcs pcs2.
Proof using Type.
  unfold hash_of_pcs. generalize 0 as h. revert pcs2.
  induction pcs1 as [|p pcs1 IH]; intros [|q pcs2] h Heq; simplify_eq/=; [reflexivity|].
  rewrite !last3_reg_str_mod. rewrite H. apply IH. exact H0.
Qed.

Lemma fold_xor_permutation (g : Z -> Z) (l l' : list Z) :
  l ≡ₚ l' ->
  forall h : Z,
    fold_left (fun h p => Z.lxor h (g p)) l h = fold_left (fun h p => Z.lxor h (g p)) l' h.
Proof using Type.
  induction 1 as [|x l l' _ IH|x y l|l l' l'' _ IH1 _ IH2]; intros h; simpl.
  - reflexivity.
  - apply IH.
  - rewrite !Z.lxor_assoc, (Z.lxor_comm (g y) (g x)). reflexivity.
  - rewrite IH1. apply IH2.
Qed.

Lemma major_pcs_all_from (funcs : list funcs_t) :
  forall pre : list funcs_t,
    map (fun i => pc (funcs_get (pre ++ funcs) i)) (seq (length pre) (length funcs))
    = map pc funcs.
Proof using Type.
  induction funcs as [|f funcs IH]; intros pre; [reflexivity|].
  simpl. f_equal.
  - unfold funcs_get. rewrite list_lookup_middle by reflexivity. reflexivity.
  - specialize (IH (pre ++ [f])). rewrite <- app_assoc in IH. simpl in IH.
    rewrite length_app in IH. simpl in IH.
    replace (length pre + 1)%nat with (S (length pre)) in IH by lia. exact IH.
Qed.

(** When every frame is a major one the fingerprint reads all of them. *)
Lemma major_pcs_all (hfuzz : honggfuzz_t) (funcs : list funcs_t) :
  (length funcs <= numMajorFrames hfuzz)%nat ->
  major_pcs hfuzz funcs (length funcs) = map pc funcs.
Proof using Type.
  intros Hle. unfold major_pcs. rewrite Nat.min_l by exact Hle.
  apply (major_pcs_all_from funcs []).
Qed.

(** X1. The fingerprint sees each PC through its twelve low bits only: two
    stacks of the same depth whose major PCs agree modulo 4096, frame by
    frame, get the same hash, with or without masking. *)
Theorem hash_low_twelve_bits (hfuzz : honggfuzz_t) (funcs1 funcs2 : list funcs_t)
    (funcCnt : nat) (enableMasking : bool) :
  map (fun p => p mod 4096) (major_pcs hfuzz funcs1 funcCnt)
  = map (fun p => p mod 4096) (major_pcs hfuzz funcs2 funcCnt) ->
  arch_hashCallstack hfuzz funcs1 funcCnt enableMasking
  = arch_hashCallstack hfuzz funcs2 funcCnt enableMasking.
Proof using Type.
  intros Heq. rewrite !hashCallstack_masked.
  rewrite (hash_of_pcs_mod _ _ Heq). reflexivity.
Qed.

(** X2. The fingerprint does not depend on the order of the major frames: two
    stacks of the same depth whose major PCs are a permutation of each
    other get the same hash. *)
Theorem hash_order_insensitive (hfuzz : honggfuzz_t) (funcs1 funcs2 : list funcs_t)
    (funcCnt : nat) (enableMasking : bool) :
  major_pcs hfuzz funcs1 funcCnt ≡ₚ major_pcs hfuzz funcs2 funcCnt ->
  arch_hashCallstack hfuzz funcs1 funcCnt enableMasking
  = arch_hashCallstack hfuzz funcs2 funcCnt enableMasking.
Proof using Type.
  intros Hperm. rewrite !hashCallstack_masked. unfold hash_of_pcs.
  rewrite (fold_xor_permutation _ _ _ Hperm 0). reflexivity.
Qed.

(** X3. Two frames whose PCs agree modulo 4096 cancel. A stack that is no
    deeper than [numMajorFrames], so that each of its frames is a major
    one, and that holds such a pair, one frame after the other, is hashed,
    without masking, like the stack without the pair. *)
Theorem hash_equal_frames_cancel (hfuzz : honggfuzz_t) (l1 l2 : list funcs_t)
    (f f' : funcs_t) :
  pc f mod 4096 = pc f' mod 4096 ->
  (length (l1 ++ f :: f' :: l2) <= numMajorFrames hfuzz)%nat ->
  arch_hashCallstack hfuzz (l1 ++ f :: f' :: l2) (length (l1 ++ f :: f' :: l2)) false
  = arch_hashCallstack hfuzz (l1 ++ l2) (length (l1 ++ l2)) false.
Proof using Type.
  intros Hpc Hlen. rewrite !hashCallstack_unmasked.
  rewrite !major_pcs_all
    by (rewrite ?length_app in *; simpl in *; lia).
  unfold hash_of_pcs. rewrite !map_app. simpl. rewrite !fold_left_app. simpl.
  rewrite !last3_reg_str_mod, Hpc, Z.lxor_assoc, Z.lxor_nilpotent, Z.lxor_0_r.
  reflexivity.
Qed.
(** ** The worker that only analyses *)

(** [arch_ptraceAnalyzeData] leaves everything but the stack hash. *)
Lemma analyzeData_frame (w : world) (st : stop_t) (pcRegSz : Z) :
  w_hfuzz (arch_ptraceAnalyzeData w st pcRegSz) = w_hfuzz w
  /\ w_files (arch_ptraceAnalyzeData w st pcRegSz) = w_files w
  /\ w_calls (arch_ptraceAnalyzeData w st pcRegSz) = w_calls w
  /\ w_fuzzer (arch_ptraceAnalyzeData w st pcRegSz)
     = set_backtrace (w_fuzzer w)
         (backtrace (w_fuzzer (arch_ptraceAnalyzeData w st pcRegSz))).
Proof using Type.
  unfold arch_ptraceAnalyzeData.
  destruct w as [hfuzz [fn ofn cfn bt scc rep mw] files calls].
  destruct (pcRegSz =? 0); [repeat split; reflexivity|].
  destruct (st_unwind st) as [|f0 fs]; simpl.
  - destruct (st_pc st =? 0); simpl; [repeat split; reflexivity|].
    repeat split; try reflexivity.
    destruct (is_arm cpu), (st_lr st); reflexivity.
  - repeat split; try reflexivity.
    destruct (is_arm cpu && (length fs =? 0)%nat), (st_lr st); reflexivity.
Qed.

(** X4. A worker that is not the main one never counts, saves or calls a
    collaborator: [arch_ptraceAnalyzeData] can only store a stack hash. When
    the PC cannot be read, or when there is neither a frame nor a PC, it
    leaves even the hash of the previous crash in place. *)
Theorem analyzeData_only_stores_hash (w : world) (st : stop_t) (pcRegSz : Z) :
  w_hfuzz (arch_ptraceAnalyzeData w st pcRegSz) = w_hfuzz w
  /\ w_files (arch_ptraceAnalyzeData w st pcRegSz) = w_files w
  /\ w_calls (arch_ptraceAnalyzeData w st pcRegSz) = w_calls w
  /\ w_fuzzer (arch_ptraceAnalyzeData w st pcRegSz)
     = set_backtrace (w_fuzzer w)
         (backtrace (w_fuzzer (arch_ptraceAnalyzeData w st pcRegSz)))
  /\ (pcRegSz = 0 \/ (st_unwind st = [] /\ st_pc st = 0) ->
      arch_ptraceAnalyzeData w st pcRegSz = w).
Proof using Type.
  destruct (analyzeData_frame w st pcRegSz) as (H1 & H2 & H3 & H4).
  split; [exact H1|]. split; [exact H2|]. split; [exact H3|]. split; [exact H4|].
  unfold arch_ptraceAnalyzeData. intros [Hsz|[Hunw Hpc]].
  - rewrite Hsz. reflexivity.
  - rewrite Hunw, Hpc. destruct (pcRegSz =? 0); reflexivity.
Qed.

Lemma unwind_or_pc_frames (hfuzz : honggfuzz_t) (st : stop_t) :
  (1 <= length (st_unwind st))%nat ->
  unwind_or_pc hfuzz st = (st_unwind st, length (st_unwind st), saveUnique hfuzz).
Proof using Type.
  intros Hlen. unfold unwind_or_pc.
  destruct (length (st_unwind st)) eqn:E; [lia|]. reflexivity.
Qed.

(** X5. For a stack of two frames or more the two workers agree: the hash the
    main worker stores for a stop is the hash the analysing worker stores
    for it, the plain XOR fold over the major frames. *)
Theorem analyzeData_agrees_with_saveData (w w' : world) (st : stop_t) (pcRegSz : Z) :
  pcRegSz <> 0 ->
  (2 <= length (st_unwind st))%nat ->
  ignored (w_hfuzz w) st = false ->
  arch_ptraceSaveData w st = Done w' ->
  backtrace (w_fuzzer (arch_ptraceAnalyzeData w st pcRegSz)) = backtrace (w_fuzzer w')
  /\ backtrace (w_fuzzer w')
     = hash_of_pcs (major_pcs (w_hfuzz w) (st_unwind st) (length (st_unwind st))).
Proof using Type.
  intros Hsz Hlen Hign Hsave.
  assert (Hne1 : (length (st_unwind st) =? 1)%nat = false) by (apply Nat.eqb_neq; lia).
  assert (Hne0 : (length (st_unwind st) =? 0)%nat = false) by (apply Nat.eqb_neq; lia).
  assert (Hw' : backtrace (w_fuzzer w')
                = hash_of_pcs (major_pcs (w_hfuzz w) (st_unwind st) (length (st_unwind st)))).
  { rewrite (arch_ptraceSaveData_backtrace w w' st Hign Hsave).
    rewrite (hash_stage_backtrace w st _ _ _ (unwind_or_pc_frames _ st ltac:(lia))).
    rewrite hashCallstack_masked, Hne1, !andb_false_r. simpl.
    rewrite Z.lxor_0_r. reflexivity. }
  split; [|exact Hw'].
  rewrite Hw'. unfold arch_ptraceAnalyzeData.
  apply Z.eqb_neq in Hsz. rewrite Hsz, Hne0, Hne1, andb_false_r. simpl.
  apply hashCallstack_unmasked.
Qed.

(** ** Counters and files of the signal path *)

Lemma land_u64_0 (x : Z) : sync_fetch_and_and x 0 = 0.
Proof using Type. unfold sync_fetch_and_and. change (u64 0) with 0. apply Z.land_0_r. Qed.

(** Reduce the projections of the records that were just built. *)
Ltac fields :=
  cbn [w_hfuzz w_fuzzer w_files w_calls crashFileName fileName origFileName backtrace
       report mainWorker sanCovCnts_crashesCnt set_crashFileName set_report set_backtrace
       set_sanCovCnts_crashesCnt set_uniqueCrashesCnt set_dynFileIterExpire set_crashesCnt
       set_blCrashesCnt crashesCnt uniqueCrashesCnt blCrashesCnt dynFileIterExpire
       saveMaps disableRandomization fst snd] in *.

Lemma saveCrash_accounting (w w' : world) (st : stop_t) (funcs : list funcs_t)
    (funcCnt : nat) (su : bool) :
  saveCrash w st funcs funcCnt su = Done w' ->
  crashesCnt (w_hfuzz w') = crashesCnt (w_hfuzz w)
  /\ blCrashesCnt (w_hfuzz w') = blCrashesCnt (w_hfuzz w)
  /\ w_files w ⊆ w_files w'
  /\ (uniqueCrashesCnt (w_hfuzz w') = uniqueCrashesCnt (w_hfuzz w)
      /\ w_files w' = w_files w
      \/ uniqueCrashesCnt (w_hfuzz w') = u64 (uniqueCrashesCnt (w_hfuzz w) + 1)
         /\ crashFileName (w_fuzzer w') ∈ w_files w'
         /\ (crashFileName (w_fuzzer w') ∉ w_files w)
         /\ dynFileIterExpire (w_hfuzz w') = 0).
Proof using Type. section_clear.
  unfold saveCrash, files_copyFile. intros H.
  repeat case_match; simplify_eq; fields;
    repeat match goal with
           | Hd : bool_decide _ = false |- _ => apply bool_decide_eq_false in Hd
           end;
    (split; [reflexivity|split; [reflexivity|split; [set_solver|]]]);
    first [ left; split; reflexivity
          | right; split; [reflexivity|];
            split; [set_solver|]; split; [assumption|apply land_u64_0] ].
Qed.

Lemma filter_and_save_accounting (w w' : world) (st : stop_t) (funcs : list funcs_t)
    (funcCnt : nat) (su : bool) :
  filter_and_save w st funcs funcCnt su = Done w' ->
  crashesCnt (w_hfuzz w') = crashesCnt (w_hfuzz w)
  /\ w_files w ⊆ w_files w'
  /\ (blCrashesCnt (w_hfuzz w') = blCrashesCnt (w_hfuzz w)
      \/ blCrashesCnt (w_hfuzz w') = u64 (blCrashesCnt (w_hfuzz w) + 1)
         /\ w_files w' = w_files w
         /\ uniqueCrashesCnt (w_hfuzz w') = uniqueCrashesCnt (w_hfuzz w)
         /\ w_fuzzer w' = w_fuzzer w)
  /\ (uniqueCrashesCnt (w_hfuzz w') = uniqueCrashesCnt (w_hfuzz w)
      /\ w_files w' = w_files w
      \/ uniqueCrashesCnt (w_hfuzz w') = u64 (uniqueCrashesCnt (w_hfuzz w) + 1)
         /\ crashFileName (w_fuzzer w') ∈ w_files w'
         /\ (crashFileName (w_fuzzer w') ∉ w_files w)
         /\ dynFileIterExpire (w_hfuzz w') = 0).
Proof using Type.
  unfold filter_and_save. intros H.
  repeat case_match; simplify_eq;
    first [ apply saveCrash_accounting in H as (Hc & Hb & Hf & Hu); fields;
            split; [exact Hc|]; split; [exact Hf|]; split; [left; exact Hb|exact Hu]
          | fields; split; [reflexivity|]; split; [set_solver|];
            split; [right; repeat split; reflexivity|left; split; reflexivity] ].
Qed.

Lemma hash_stage_keeps (w : world) (st : stop_t) (funcs : list funcs_t) (funcCnt : nat)
    (fuzzer : fuzzer_t) (su : bool) :
  hash_stage w st = (funcs, funcCnt, fuzzer, su) ->
  crashFileName fuzzer = crashFileName (w_fuzzer w)
  /\ report fuzzer = report (w_fuzzer w)
  /\ fileName fuzzer = fileName (w_fuzzer w).
Proof using Type.
  unfold hash_stage, single_frame. intros H.
  destruct (unwind_or_pc (w_hfuzz w) st) as [[funcs0 funcCnt0] su0].
  repeat case_match; simplify_eq; repeat split; reflexivity.
Qed.

(** X6. The counters and the work directory over one signal stop. A stop adds
    at most one to [crashesCnt]. A crash that a black list drops is counted
    in [crashesCnt] and in [blCrashesCnt] and changes neither the files, nor
    [uniqueCrashesCnt], nor the worker's crash file name and report. A
    unique crash is counted exactly when a file that did not exist has been
    written under the worker's [crashFileName], and then
    [dynFileIterExpire] is zero. No file is ever removed. *)
Theorem saveData_accounting (w w' : world) (st : stop_t) :
  arch_ptraceSaveData w st = Done w' ->
  (crashesCnt (w_hfuzz w') = crashesCnt (w_hfuzz w)
   \/ crashesCnt (w_hfuzz w') = u64 (crashesCnt (w_hfuzz w) + 1))
  /\ w_files w ⊆ w_files w'
  /\ (blCrashesCnt (w_hfuzz w') = blCrashesCnt (w_hfuzz w)
      \/ blCrashesCnt (w_hfuzz w') = u64 (blCrashesCnt (w_hfuzz w) + 1)
         /\ crashesCnt (w_hfuzz w') = u64 (crashesCnt (w_hfuzz w) + 1)
         /\ w_files w' = w_files w
         /\ uniqueCrashesCnt (w_hfuzz w') = uniqueCrashesCnt (w_hfuzz w)
         /\ crashFileName (w_fuzzer w') = crashFileName (w_fuzzer w)
         /\ report (w_fuzzer w') = report (w_fuzzer w))
  /\ (uniqueCrashesCnt (w_hfuzz w') = uniqueCrashesCnt (w_hfuzz w)
      /\ w_files w' = w_files w
      \/ uniqueCrashesCnt (w_hfuzz w') = u64 (uniqueCrashesCnt (w_hfuzz w) + 1)
         /\ crashesCnt (w_hfuzz w') = u64 (crashesCnt (w_hfuzz w) + 1)
         /\ crashFileName (w_fuzzer w') ∈ w_files w'
         /\ (crashFileName (w_fuzzer w') ∉ w_files w)
         /\ dynFileIterExpire (w_hfuzz w') = 0).
Proof using Type.
  unfold arch_ptraceSaveData. intros H.
  destruct (ignored (w_hfuzz w) st).
  { simplify_eq. split; [left; reflexivity|]. split; [set_solver|].
    split; [left; reflexivity|left; split; reflexivity]. }
  destruct (hash_stage w st) as [[[funcs funcCnt] fuzzer] su] eqn:Hstage.
  apply hash_stage_keeps in Hstage as (Hname & Hrep & _).
  destruct (duplicate (backtrace (w_fuzzer w)) fuzzer).
  { simplify_eq. fields. split; [left; reflexivity|]. split; [set_solver|].
    split; [left; reflexivity|left; split; reflexivity]. }
  apply filter_and_save_accounting in H as (Hc & Hf & Hb & Hu). fields.
  split; [right; exact Hc|]. split; [exact Hf|]. split.
  - destruct Hb as [Hb|(Hb & Hfiles & Huniq & Hfz)]; [left; exact Hb|right].
    rewrite Hfz. repeat split; assumption.
  - destruct Hu as [Hu|(Hu & Hin & Hnot & Hdyn)]; [left; exact Hu|right].
    repeat split; assumption.
Qed.
(** ** White list and black lists *)

Lemma saveCrash_calls (w w' : world) (st : stop_t) (funcs : list funcs_t)
    (funcCnt : nat) (su : bool) :
  saveCrash w st funcs funcCnt su = Done w' ->
  exists (ret dstExists : bool) (tail : list call_t),
    w_calls w'
    = w_calls w
      ++ Call_copyFile (fileName (w_fuzzer w)) (saveCrash_name w st su) ret dstExists :: tail
    /\ forallb (fun c => negb (filter_call c)) tail = true.
Proof using Type.
  unfold saveCrash, saveCrash_name, files_copyFile. fields. intros H.
  repeat case_match; simplify_eq; fields;
    first [ do 2 eexists; exists []; split; [reflexivity|reflexivity]
          | do 3 eexists; split; [rewrite <- app_assoc; reflexivity|reflexivity] ].
Qed.

(** X7. A crash with a white-listed symbol goes to the copy whatever the
    black lists hold and whatever [saveUnique] says: no black list is
    consulted, [blCrashesCnt] stays, and the call after the one to the white
    list is [files_copyFile], whatever it returns, with the name made for
    [saveUnique == false]. That name is [workDir/origFileName] in the dry
    run with a verifier, and the one with the time and the pid
    otherwise. *)
Theorem whitelist_overrides_blacklists (w w' : world) (st : stop_t)
    (funcs : list funcs_t) (funcCnt : nat) (fuzzer : fuzzer_t) (su : bool)
    (symbols : list string) (symbol : string) :
  ignored (w_hfuzz w) st = false ->
  hash_stage w st = (funcs, funcCnt, fuzzer, su) ->
  duplicate (backtrace (w_fuzzer w)) fuzzer = false ->
  symbolsWhitelist (w_hfuzz w) = Some symbols ->
  arch_btContainsWLSymbol
    (set_crashesCnt (w_hfuzz w) (sync_fetch_and_add (crashesCnt (w_hfuzz w)) 1))
    funcCnt funcs = Some symbol ->
  arch_ptraceSaveData w st = Done w' ->
  blCrashesCnt (w_hfuzz w') = blCrashesCnt (w_hfuzz w)
  /\ crashesCnt (w_hfuzz w') = u64 (crashesCnt (w_hfuzz w) + 1)
  /\ exists (ret dstExists : bool) (tail : list call_t),
       w_calls w'
       = w_calls w
         ++ Call_btContainsWLSymbol
            :: Call_copyFile (fileName (w_fuzzer w))
                 (saveCrash_name (mk_world (w_hfuzz w) fuzzer (w_files w) (w_calls w)) st false)
                 ret dstExists
            :: tail
       /\ forallb (fun c => negb (filter_call c)) tail = true
       /\ saveCrash_name (mk_world (w_hfuzz w) fuzzer (w_files w) (w_calls w)) st false
          = if flipRate_is_zero (w_hfuzz w) && useVerifier (w_hfuzz w)
            then snprintf PATH_MAX (workDir (w_hfuzz w) +:+ "/" +:+ origFileName fuzzer)
            else
              let pc := if disableRandomization (w_hfuzz w) then st_pc st else 0 in
              let sig_addr :=
                if SI_FROMUSER (st_si_code st) then 0
                else if disableRandomization (w_hfuzz w) then st_si_addr st else 0 in
              let common :=
                workDir (w_hfuzz w) +:+ "/" +:+ arch_sigs_descr (st_si_signo st)
                +:+ ".PC." +:+ fmt_x (reg_cast cpu pc)
                +:+ ".STACK." +:+ fmt_x (backtrace fuzzer)
                +:+ ".CODE." +:+ fmt_d (st_si_code st)
                +:+ ".ADDR." +:+ fmt_p sig_addr
                +:+ ".INSTR." +:+ st_instr st in
              snprintf PATH_MAX
                (common +:+ "." +:+ st_localtime st +:+ "." +:+ fmt_d (st_pid st)
                 +:+ "." +:+ fileExtn (w_hfuzz w)).
Proof using Type.
  intros Hign Hstage Hdup Hwl Hsym. unfold arch_ptraceSaveData.
  rewrite Hign, Hstage, Hdup. unfold filter_and_save. fields.
  change (symbolsWhitelist (set_crashesCnt (w_hfuzz w)
            (sync_fetch_and_add (crashesCnt (w_hfuzz w)) 1)))
    with (symbolsWhitelist (w_hfuzz w)).
  rewrite Hwl, Hsym. cbn [is_set]. intros Hsave.
  pose proof (saveCrash_accounting _ _ _ _ _ _ Hsave) as (Hc & Hb & _).
  apply saveCrash_calls in Hsave as (ret & dstExists & tail & Hcalls & Htail).
  fields. split; [exact Hb|]. split; [exact Hc|].
  exists ret, dstExists, tail. split; [|split; [exact Htail|]].
  - rewrite Hcalls, <- app_assoc.
    apply hash_stage_keeps in Hstage as (_ & _ & Hfn). rewrite Hfn. reflexivity.
  - unfold saveCrash_name, crash_name. fields. reflexivity.
Qed.

(** ** Counters and files of the sanitizer exit path *)

Lemma exit_save_accounting (w w' : world) (ex : exit_t) (funcs : list funcs_t)
    (funcCnt pc0 crashAddr0 : Z) (op0 : string) :
  exit_save w ex funcs funcCnt pc0 crashAddr0 op0 = Done w' ->
  crashesCnt (w_hfuzz w') = crashesCnt (w_hfuzz w)
  /\ blCrashesCnt (w_hfuzz w') = blCrashesCnt (w_hfuzz w)
  /\ w_files w ⊆ w_files w'
  /\ (exists (src dst : string) (ret dstExists : bool),
        w_calls w' = w_calls w ++ [Call_copyFile src dst ret dstExists])
  /\ (uniqueCrashesCnt (w_hfuzz w') = uniqueCrashesCnt (w_hfuzz w)
      /\ w_files w' = w_files w
      \/ uniqueCrashesCnt (w_hfuzz w') = u64 (uniqueCrashesCnt (w_hfuzz w) + 1)
         /\ crashFileName (w_fuzzer w') ∈ w_files w'
         /\ (crashFileName (w_fuzzer w') ∉ w_files w)
         /\ dynFileIterExpire (w_hfuzz w') = 0).
Proof using Type. section_clear.
  unfold exit_save, files_copyFile. intros H.
  repeat case_match; simplify_eq; fields;
    repeat match goal with
           | Hd : bool_decide _ = false |- _ => apply bool_decide_eq_false in Hd
           end;
    (split; [reflexivity|split; [reflexivity|split; [set_solver|]]]);
    (split; [do 4 eexists; reflexivity|]);
    first [ left; split; reflexivity
          | right; split; [reflexivity|];
            split; [set_solver|]; split; [assumption|apply land_u64_0] ].
Qed.

(** X8. The counters and the work directory over one sanitizer exit. The exit
    path consults no white list and no black list and never touches
    [blCrashesCnt]; it adds at most one to [crashesCnt]; the only file it
    can remove is the sanitizer log it has parsed; and a unique crash is
    counted exactly when a file that did not exist has been written under
    the worker's [crashFileName], with [dynFileIterExpire] zero then. *)
Theorem exitSaveData_accounting (w w' : world) (ex : exit_t) :
  arch_ptraceExitSaveData w ex = Done w' ->
  blCrashesCnt (w_hfuzz w') = blCrashesCnt (w_hfuzz w)
  /\ (crashesCnt (w_hfuzz w') = crashesCnt (w_hfuzz w)
      \/ crashesCnt (w_hfuzz w') = u64 (crashesCnt (w_hfuzz w) + 1))
  /\ (exists new : list call_t,
        w_calls w' = w_calls w ++ new
        /\ forallb (fun c => negb (filter_call c)) new = true)
  /\ w_files w ∖ {[ asan_report_path (w_hfuzz w) (ex_pid ex) ]} ⊆ w_files w'
  /\ (uniqueCrashesCnt (w_hfuzz w') = uniqueCrashesCnt (w_hfuzz w)
      \/ uniqueCrashesCnt (w_hfuzz w') = u64 (uniqueCrashesCnt (w_hfuzz w) + 1)
         /\ crashFileName (w_fuzzer w') ∈ w_files w'
         /\ dynFileIterExpire (w_hfuzz w') = 0).
Proof using Type.
  unfold arch_ptraceExitSaveData. intros H.
  destruct (negb (crashFileName (w_fuzzer w) =? "")%string).
  { simplify_eq. split; [reflexivity|]. split; [left; reflexivity|].
    split; [exists []; rewrite app_nil_r; split; reflexivity|].
    split; [apply subseteq_difference_l; reflexivity|left; reflexivity]. }
  destruct (ex_exitCode ex =? HF_ASAN_EXIT_CODE).
  - destruct (arch_parseAsanReport _ _ _ _ _) as [[[[funcCnt funcs] crashAddr1] op1]|];
      [|discriminate].
    destruct (funcCnt =? -1).
    + simplify_eq. fields. split; [reflexivity|]. split; [right; reflexivity|].
      split; [eexists; split; reflexivity|].
      split; [apply subseteq_difference_l; reflexivity|left; reflexivity].
    + apply exit_save_accounting in H
        as (Hc & Hb & Hf & (src & dst & ret & de & Hcalls) & Hu).
      fields. split; [exact Hb|]. split; [right; exact Hc|].
      split.
      { rewrite Hcalls, <- app_assoc. eexists; split; reflexivity. }
      split; [exact Hf|].
      destruct Hu as [[Hu _]|(Hu & Hin & _ & Hdyn)]; [left; exact Hu|right].
      repeat split; assumption.
  - apply exit_save_accounting in H
      as (Hc & Hb & Hf & (src & dst & ret & de & Hcalls) & Hu).
    fields. split; [exact Hb|]. split; [right; exact Hc|].
    split.
    { rewrite Hcalls. eexists; split; reflexivity. }
    split; [apply subseteq_difference_l; exact Hf|].
    destruct Hu as [[Hu _]|(Hu & Hin & _ & Hdyn)]; [left; exact Hu|right].
    repeat split; assumption.
Qed.

(** X9. When the sanitizer log cannot be opened the exit path saves nothing and
    leaves [crashFileName] empty, but it has counted the crash: a second
    call for the same exit counts it once more. *)
Theorem exit_missing_log_recounts (w : world) (ex : exit_t) :
  crashFileName (w_fuzzer w) = "" ->
  ex_exitCode ex = HF_ASAN_EXIT_CODE ->
  ex_log ex = None ->
  exists w1 w2 : world,
    arch_ptraceExitSaveData w ex = Done w1
    /\ arch_ptraceExitSaveData w1 ex = Done w2
    /\ w_fuzzer w1 = w_fuzzer w /\ w_fuzzer w2 = w_fuzzer w
    /\ w_files w1 = w_files w /\ w_files w2 = w_files w
    /\ uniqueCrashesCnt (w_hfuzz w2) = uniqueCrashesCnt (w_hfuzz w)
    /\ crashesCnt (w_hfuzz w1) = u64 (crashesCnt (w_hfuzz w) + 1)
    /\ crashesCnt (w_hfuzz w2) = u64 (u64 (crashesCnt (w_hfuzz w) + 1) + 1).
Proof using Type.
  intros Hname Hcode Hlog.
  assert (Hstep : forall v : world,
             crashFileName (w_fuzzer v) = "" ->
             exists v' : world,
               arch_ptraceExitSaveData v ex = Done v'
               /\ w_fuzzer v' = w_fuzzer v /\ w_files v' = w_files v
               /\ uniqueCrashesCnt (w_hfuzz v') = uniqueCrashesCnt (w_hfuzz v)
               /\ crashesCnt (w_hfuzz v') = u64 (crashesCnt (w_hfuzz v) + 1)).
  { intros v Hv. unfold arch_ptraceExitSaveData. rewrite Hv, Hcode, Hlog.
    rewrite Z.eqb_refl. cbn [negb String.eqb arch_parseAsanReport Z.eqb].
    eexists. split; [reflexivity|]. repeat split; reflexivity. }
  destruct (Hstep w Hname) as (w1 & H1 & Hf1 & Hfi1 & Hu1 & Hc1).
  destruct (Hstep w1 ltac:(rewrite Hf1; exact Hname)) as (w2 & H2 & Hf2 & Hfi2 & Hu2 & Hc2).
  exists w1, w2. repeat split; try assumption; congruence.
Qed.
(** ** More on the report parser *)

Lemma length_funcs_set (funcs : list funcs_t) (i : nat) (f : funcs_t) :
  length (funcs_set funcs i f) = Nat.max (length funcs) (S i).
Proof using Type.
  unfold funcs_set. rewrite length_insert, length_app, length_replicate. lia.
Qed.

Lemma asan_seek_header_keeps (header : string) (a a' : asan_t) (b : block_t) :
  asan_seek_header header a b = Done a' ->
  frameIdx a' = frameIdx a /\ a_funcs a' = a_funcs a.
Proof using Type.
  unfold asan_seek_header. intros H.
  repeat case_match; simplify_eq; split; reflexivity.
Qed.

(** One round after the header: the depth stays within [_HF_MAX_FUNCS],
    does not decrease, and the entries from the new depth on are as
    before. *)
Lemma asan_frames_bounded (a : asan_t) (b : block_t) :
  0 <= frameIdx a <= Z.of_nat _HF_MAX_FUNCS ->
  forall a' : asan_t,
    asan_frames a b = Continue a' \/ asan_frames a b = Break a' ->
    frameIdx a <= frameIdx a' <= Z.of_nat _HF_MAX_FUNCS
    /\ (forall i : nat,
          frameIdx a' <= Z.of_nat i -> funcs_get (a_funcs a') i = funcs_get (a_funcs a) i)
    /\ ((length (a_funcs a) <= _HF_MAX_FUNCS)%nat ->
        (length (a_funcs a') <= _HF_MAX_FUNCS)%nat).
Proof using Type.
  intros Hidx a' H. unfold asan_frames in H.
  assert (Hsame : forall c : asan_t,
             frameIdx c = frameIdx a -> a_funcs c = a_funcs a ->
             frameIdx a <= frameIdx c <= Z.of_nat _HF_MAX_FUNCS
             /\ (forall i : nat,
                   frameIdx c <= Z.of_nat i ->
                   funcs_get (a_funcs c) i = funcs_get (a_funcs a) i)
             /\ ((length (a_funcs a) <= _HF_MAX_FUNCS)%nat ->
                 (length (a_funcs c) <= _HF_MAX_FUNCS)%nat)).
  { intros c Hi Hf. rewrite Hi, Hf. split; [lia|]. split; [reflexivity|auto]. }
  cbn [set_lineptr set_op frameIdx framePrefix cAddr op a_funcs headerFound crashAddr] in H.
  destruct (_ && _) in H.
  { destruct H as [H|H]; simplify_eq. apply Hsame; reflexivity. }
  destruct (_ <? _)%nat in H.
  { destruct H as [H|H]; simplify_eq. apply Hsame; reflexivity. }
  destruct (asan_cAddr_text _ _) as [c|] in H; [|destruct H; discriminate].
  destruct (strncmp_eq _ _ _) in H.
  2: { destruct H as [H|H]; simplify_eq. apply Hsame; reflexivity. }
  destruct (Z.of_nat _HF_MAX_FUNCS <=? frameIdx a) eqn:Hmax.
  { destruct H as [H|H]; simplify_eq. apply Hsame; reflexivity. }
  apply Z.leb_gt in Hmax.
  destruct (asan_frame _ _ _) as [[b' f]|]; [|destruct H; discriminate].
  destruct H as [H|H]; simplify_eq. cbn [frameIdx a_funcs].
  assert (Hu8 : u8 (frameIdx a + 1) = frameIdx a + 1).
  { unfold u8. apply Z.mod_small. unfold _HF_MAX_FUNCS in *. lia. }
  rewrite Hu8. split; [lia|]. split.
  - intros i Hi. apply funcs_get_set_ne. lia.
  - intros Hlen. rewrite length_funcs_set. unfold _HF_MAX_FUNCS in *. lia.
Qed.

Lemma asan_loop_bounded (header : string) (lines : list string) :
  forall (n : nat) (a a' : asan_t),
    0 <= frameIdx a <= Z.of_nat _HF_MAX_FUNCS ->
    asan_loop header n lines a = Done a' ->
    frameIdx a <= frameIdx a' <= Z.of_nat _HF_MAX_FUNCS
    /\ (forall i : nat,
          frameIdx a' <= Z.of_nat i -> funcs_get (a_funcs a') i = funcs_get (a_funcs a) i)
    /\ ((length (a_funcs a) <= _HF_MAX_FUNCS)%nat ->
        (length (a_funcs a') <= _HF_MAX_FUNCS)%nat).
Proof using Type.
  induction lines as [|line lines IH]; intros n a a' Hidx H; cbn [asan_loop] in H.
  { simplify_eq. split; [lia|]. split; [reflexivity|auto]. }
  destruct (getline n a line) as [b|]; [|discriminate].
  destruct (negb (headerFound a)).
  - destruct (asan_seek_header header _ b) as [a1|] eqn:Hseek; [|discriminate].
    apply asan_seek_header_keeps in Hseek as [Hi Hf]. cbn [set_lineptr frameIdx a_funcs] in Hi, Hf.
    apply IH in H; [|rewrite Hi; exact Hidx].
    rewrite Hi, Hf in H. exact H.
  - destruct (asan_frames a b) as [a1|a1|] eqn:Hround; [| |discriminate].
    + destruct (asan_frames_bounded a b Hidx a1 (or_introl Hround)) as (H1 & H2 & H3).
      apply IH in H as (H4 & H5 & H6); [|lia].
      split; [lia|]. split; [|auto].
      intros i Hi. rewrite H5 by exact Hi. apply H2. lia.
    + simplify_eq. apply (asan_frames_bounded a b Hidx a' (or_intror Hround)).
Qed.

(** X10. The parser never leaves the frame array: the count it returns is -1
    exactly when the report cannot be opened and is at most
    [_HF_MAX_FUNCS] otherwise, the entries from the returned count on are
    what they were, and an array of [_HF_MAX_FUNCS] entries is not
    outgrown. *)
Theorem parseAsanReport_frames_bounded (pid : Z) (log : option (list string))
    (funcs funcs' : list funcs_t) (crashAddr0 crashAddr' n : Z) (op0 op' : string) :
  arch_parseAsanReport pid log funcs crashAddr0 op0 = Done (n, funcs', crashAddr', op') ->
  (n = -1 <-> log = None)
  /\ -1 <= n <= Z.of_nat _HF_MAX_FUNCS
  /\ (forall i : nat, n <= Z.of_nat i -> funcs_get funcs' i = funcs_get funcs i)
  /\ ((length funcs <= _HF_MAX_FUNCS)%nat -> (length funcs' <= _HF_MAX_FUNCS)%nat).
Proof using Type.
  unfold arch_parseAsanReport. intros H. destruct log as [lines|].
  - destruct (asan_loop _ _ _ _) as [a|] eqn:Hloop; [|discriminate].
    destruct (negb (lineptr a =? 0)%nat); [discriminate|]. simplify_eq.
    apply asan_loop_bounded in Hloop as (H1 & H2 & H3);
      [|cbn [frameIdx]; unfold _HF_MAX_FUNCS; lia].
    cbn [frameIdx a_funcs] in *.
    split; [split; [lia|discriminate]|]. split; [lia|]. split; assumption.
  - simplify_eq. split; [split; reflexivity|].
    split; [unfold _HF_MAX_FUNCS; lia|]. split; [reflexivity|auto].
Qed.

(** What [getline] leaves at the start of the block is the line and its
    NUL. *)
Lemma getline_bytes (n : nat) (a : asan_t) (line : string) :
  lineptr a = 0%nat ->
  exists (base : Z) (r : string),
    getline n a line = Done (mk_block base (line +:+ String NUL r)).
Proof using Type.
  intros Hl. unfold getline. rewrite Hl. cbn [Nat.eqb negb].
  destruct (a_block a) as [b|]; [destruct (_ <=? _)%nat|]; do 2 eexists; reflexivity.
Qed.

Lemma getline_advanced (n : nat) (a : asan_t) (line : string) :
  lineptr a <> 0%nat -> getline n a line = Fault.
Proof using Type.
  intros Hl. unfold getline. apply Nat.eqb_neq in Hl. rewrite Hl. reflexivity.
Qed.

Lemma header_line_block (header line r : string) :
  (strlen header <? strlen (line +:+ String NUL r))%nat
  && strncmp_eq header (line +:+ String NUL r) (strlen header)
  = header_line header line.
Proof using Type.
  unfold header_line, strlen, strncmp_eq. rewrite cstr_append_nul. reflexivity.
Qed.

Lemma asan_loop_no_header (header : string) (lines : list string) :
  forall (n : nat) (a : asan_t),
    headerFound a = false ->
    lineptr a = 0%nat ->
    forallb (fun l => negb (header_line header l)) lines = true ->
    exists a' : asan_t,
      asan_loop header n lines a = Done a'
      /\ lineptr a' = 0%nat /\ frameIdx a' = frameIdx a /\ a_funcs a' = a_funcs a
      /\ crashAddr a' = crashAddr a /\ op a' = op a.
Proof using Type.
  induction lines as [|line lines IH]; intros n a Hfound Hl Hall.
  { exists a. repeat split; assumption. }
  simpl in Hall. apply andb_true_iff in Hall as [Hline Hall].
  apply negb_true_iff in Hline.
  cbn [asan_loop]. destruct (getline_bytes n a line Hl) as (base & r & ->).
  rewrite Hfound. cbn [negb]. unfold asan_seek_header. cbn [b_bytes].
  rewrite header_line_block, Hline.
  destruct (IH (S n) (set_lineptr a (mk_block base (line +:+ String NUL r)) 0))
    as (a' & Hloop & H1 & H2 & H3 & H4 & H5); [exact Hfound|reflexivity|exact Hall|].
  exists a'. repeat split; assumption.
Qed.

(** X11. Without a header line for this very process nothing is parsed: if no
    line of the report starts with the header text built from [pid] (and
    goes on after it), the parser returns zero frames and leaves the frame
    array, the crash address and the operation as they were, whatever frame
    lines the report holds. *)
Theorem parseAsanReport_needs_header (pid : Z) (lines : list string)
    (funcs : list funcs_t) (crashAddr0 : Z) (op0 : string) :
  forallb (fun l => negb (header_line (asan_header pid) l)) lines = true ->
  arch_parseAsanReport pid (Some lines) funcs crashAddr0 op0
  = Done (0, funcs, crashAddr0, op0).
Proof using Type.
  intros Hall. unfold arch_parseAsanReport.
  destruct (asan_loop_no_header (asan_header pid) lines 0
              (mk_asan false 0 (asan_framePrefix 0) None 0 0 crashAddr0 op0 funcs))
    as (a' & Hloop & H1 & H2 & H3 & H4 & H5); [reflexivity|reflexivity|exact Hall|].
  rewrite Hloop, H1. cbn [Nat.eqb negb]. rewrite H2, H3, H4, H5. reflexivity.
Qed.

(** *** The offset of a frame *)

Lemma strchr_from_skip (c : ascii) (a s : string) :
  str_free c a = true ->
  forall i : nat, strchr_from i (a +:+ s) c = strchr_from (i + String.length a) s c.
Proof using Type.
  unfold str_free. induction a as [|x a IH]; intros Hfree i.
  - change ("" +:+ s) with s. rewrite Nat.add_0_r. reflexivity.
  - rewrite append_cons. cbn [strchr_from str_forall String.length] in *.
    apply andb_true_iff in Hfree as [Hx Ha]. apply andb_true_iff in Hx as [Hn Hc].
    apply negb_true_iff in Hn, Hc. rewrite Hn, Hc, IH by exact Ha.
    f_equal. lia.
Qed.

Lemma strrchr_from_skip_to (c : ascii) (s : string) :
  Ascii.eqb c NUL = false ->
  forall (a : string) (i : nat) (last : option nat),
    no_nul a = true ->
    strrchr_from i (a +:+ String c s) c last
    = strrchr_from (S (i + String.length a)) s c (Some (i + String.length a))%nat.
Proof using Type.
  intros Hc. induction a as [|x a IH]; intros i last Hno.
  - change ("" +:+ String c s) with (String c s). cbn [strrchr_from String.length].
    rewrite Hc, Ascii.eqb_refl, Nat.add_0_r. reflexivity.
  - rewrite append_cons. cbn [strrchr_from no_nul String.length] in *.
    apply andb_true_iff in Hno as [Hx Ha]. apply negb_true_iff in Hx.
    rewrite Hx, IH by exact Ha.
    replace (S i + String.length a)%nat with (i + S (String.length a))%nat by lia.
    reflexivity.
Qed.

Lemma strrchr_from_absent (c : ascii) (s : string) :
  str_forall (fun x => negb (Ascii.eqb x c)) s = true ->
  forall (i : nat) (last : option nat), strrchr_from i s c last = last.
Proof using Type.
  induction s as [|x s IH]; intros Hno i last; [reflexivity|].
  cbn [strrchr_from str_forall] in *.
  apply andb_true_iff in Hno as [Hx Hs]. apply negb_true_iff in Hx.
  destruct (Ascii.eqb x NUL); [reflexivity|]. rewrite Hx. apply IH. exact Hs.
Qed.

Lemma str_set_append (a s : string) (x y : ascii) :
  str_set (String.length a) y (a +:+ String x s) = a +:+ String y s.
Proof using Type.
  induction a as [|z a IH]; [reflexivity|].
  rewrite !append_cons. cbn [str_set String.length]. rewrite IH. reflexivity.
Qed.

Lemma str_take_append (n : nat) :
  forall a b : string, (n <= String.length a)%nat -> str_take n (a +:+ b) = str_take n a.
Proof using Type.
  induction n as [|n IH]; intros a b Hn; [reflexivity|].
  destruct a as [|x a]; [simpl in Hn; lia|].
  rewrite append_cons. cbn [str_take]. rewrite IH by (simpl in Hn; lia). reflexivity.
Qed.

Lemma str_take_min (n : nat) :
  forall a : string, str_take (Nat.min n (String.length a)) a = str_take n a.
Proof using Type.
  induction n as [|n IH]; intros a; [reflexivity|].
  destruct a as [|x a]; [reflexivity|].
  cbn [String.length]. rewrite <- Nat.succ_min_distr. cbn [str_take]. rewrite IH.
  reflexivity.
Qed.

Lemma no_nul_str_take (n : nat) :
  forall a : string, no_nul a = true -> no_nul (str_take n a) = true.
Proof using Type.
  induction n as [|n IH]; intros a Ha; [reflexivity|].
  destruct a as [|x a]; [reflexivity|].
  cbn [no_nul str_take] in *. apply andb_true_iff in Ha as [Hx Ha].
  rewrite Hx, IH by exact Ha. reflexivity.
Qed.

Lemma str_free_no_nul (c : ascii) (a : string) : str_free c a = true -> no_nul a = true.
Proof using Type.
  unfold str_free. induction a as [|x a IH]; intros H; [reflexivity|].
  cbn [no_nul str_forall] in *. apply andb_true_iff in H as [Hx Ha].
  apply andb_true_iff in Hx as [Hn _]. rewrite Hn, IH by exact Ha. reflexivity.
Qed.


Lemma str_set_app_r (pre s : string) (k : nat) (c : ascii) :
  str_set (String.length pre + k) c (pre +:+ s) = pre +:+ str_set k c s.
Proof using Type.
  induction pre as [|x pre IH]; [reflexivity|].
  rewrite !append_cons. cbn [String.length Nat.add str_set]. rewrite IH. reflexivity.
Qed.

Lemma str_drop_app_r (pre s : string) (k : nat) :
  str_drop (String.length pre + k) (pre +:+ s) = str_drop k s.
Proof using Type.
  induction pre as [|x pre IH]; [reflexivity|].
  rewrite append_cons. cbn [String.length Nat.add str_drop]. exact IH.
Qed.

Lemma str_take_drop (n : nat) : forall s : string, str_take n s +:+ str_drop n s = s.
Proof using Type.
  induction n as [|n IH]; intros [|x s]; try reflexivity.
  cbn [str_take str_drop]. rewrite append_cons, IH. reflexivity.
Qed.

Lemma length_str_take (n : nat) :
  forall s : string, (n <= String.length s)%nat -> String.length (str_take n s) = n.
Proof using Type.
  induction n as [|n IH]; intros [|x s] Hn; simpl in *; try reflexivity; try lia.
  rewrite IH by lia. reflexivity.
Qed.

(** The C string that starts a buffer is a prefix of it. *)
Lemma cstr_prefix (s : string) : cstr s +:+ str_drop (String.length (cstr s)) s = s.
Proof using Type.
  induction s as [|x s IH]; [reflexivity|]. cbn [cstr].
  destruct (Ascii.eqb x NUL); [reflexivity|].
  rewrite append_cons. cbn [String.length str_drop]. rewrite IH. reflexivity.
Qed.

Lemma no_nul_cstr (s : string) : no_nul (cstr s) = true.
Proof using Type.
  induction s as [|x s IH]; [reflexivity|]. cbn [cstr].
  destruct (Ascii.eqb x NUL) eqn:Hx; [reflexivity|].
  cbn [no_nul]. rewrite Hx, IH. reflexivity.
Qed.

Lemma strchr_from_cstr (s : string) (c : ascii) :
  forall i : nat, strchr_from i s c = strchr_from i (cstr s) c.
Proof using Type.
  induction s as [|x s IH]; intros i; [reflexivity|]. cbn [cstr strchr_from].
  destruct (Ascii.eqb x NUL) eqn:Hx; [reflexivity|].
  cbn [strchr_from]. rewrite Hx, IH. reflexivity.
Qed.

Lemma strrchr_from_cstr (s : string) (c : ascii) :
  forall (i : nat) (last : option nat),
    strrchr_from i s c last = strrchr_from i (cstr s) c last.
Proof using Type.
  induction s as [|x s IH]; intros i last; [reflexivity|]. cbn [cstr strrchr_from].
  destruct (Ascii.eqb x NUL) eqn:Hx; [reflexivity|].
  cbn [strrchr_from]. rewrite Hx, IH. reflexivity.
Qed.

Lemma has_nul_app_nul (a r : string) : has_nul (a +:+ String NUL r) = true.
Proof using Type.
  induction a as [|x a IH]; [reflexivity|].
  rewrite append_cons. cbn [has_nul]. rewrite IH. apply orb_true_r.
Qed.

Lemma block_placed_inside (b : block_t) : block_placed b -> block_inside b.
Proof using Type. unfold block_placed, block_inside. lia. Qed.

(** A token [(module+offset)]: where its three marks are. *)
Lemma dso_token_marks (module off : string) (z : ascii) (rest : string) :
  no_nul (dso_token module off z rest) = true ->
  str_free "+" module = true ->
  str_forall (fun x => negb (Ascii.eqb x ")")) rest = true ->
  strchr (dso_token module off z rest) "(" = Some 0%nat
  /\ strchr (dso_token module off z rest) "+" = Some (S (String.length module))
  /\ strrchr (dso_token module off z rest) ")"
     = Some (String.length module + String.length off + 3)%nat.
Proof using Type.
  intros Hno Hm Hrest. unfold dso_token in *.
  cbn [no_nul] in Hno. rewrite no_nul_append in Hno. cbn [no_nul] in Hno.
  rewrite no_nul_append in Hno. cbn [no_nul] in Hno.
  apply andb_true_iff in Hno as [_ Hno]. apply andb_true_iff in Hno as [Hmod Hno].
  apply andb_true_iff in Hno as [_ Hno]. apply andb_true_iff in Hno as [Hoff Hno].
  apply andb_true_iff in Hno as [Hz _]. apply negb_true_iff in Hz.
  split; [reflexivity|]. split.
  - unfold strchr. cbn [strchr_from].
    change (Ascii.eqb "(" NUL) with false. change (Ascii.eqb "(" "+") with false.
    rewrite strchr_from_skip by exact Hm. cbn [strchr_from].
    change (Ascii.eqb "+" NUL) with false. rewrite Ascii.eqb_refl. reflexivity.
  - set (pre := String "(" (module +:+ String "+" off)).
    assert (Htok : String "(" (module +:+ String "+" (off +:+ String z (String ")" rest)))
                   = (pre +:+ String z "") +:+ String ")" rest).
    { unfold pre. repeat first [rewrite append_cons|rewrite append_assoc].
      reflexivity. }
    assert (Hpre : no_nul (pre +:+ String z "") = true).
    { unfold pre. rewrite no_nul_append. cbn [no_nul]. rewrite no_nul_append.
      cbn [no_nul]. change (Ascii.eqb "(" NUL) with false.
      change (Ascii.eqb "+" NUL) with false. rewrite Hmod, Hoff, Hz. reflexivity. }
    rewrite Htok. unfold strrchr.
    rewrite strrchr_from_skip_to; [|reflexivity|exact Hpre].
    rewrite strrchr_from_absent by exact Hrest.
    unfold pre. rewrite length_append. cbn [String.length]. rewrite length_append.
    cbn [String.length]. f_equal. lia.
Qed.

(** X12. A frame line whose third token is [(module+offset)] stores the module
    name, cut at the size of [func], and an offset read from the text of
    the offset without its last character: the store that ends the token
    is made one byte early, on that character. *)
Theorem asan_frame_offset_loses_last_digit (b : block_t) (l : nat) (f0 : funcs_t)
    (t : nat) (mem3 : string) (module off : string) (z : ascii) (rest : string) :
  asan_target (b_bytes b) l = Some (t, mem3) ->
  cstr (str_drop t mem3) = dso_token module off z rest ->
  str_free "+" module = true ->
  str_forall (fun x => negb (Ascii.eqb x ")")) rest = true ->
  block_inside b ->
  exists (b' : block_t) (f : funcs_t),
    asan_frame b l f0 = Done (b', f)
    /\ func f
       = str_take _HF_FUNC_NAME_SZ module
         +:+ str_drop (Nat.min _HF_FUNC_NAME_SZ (String.length module)) (func f0)
    /\ line f = u32 (strtoull (String "+" off) 16).
Proof using Type.
  intros Htarget Htok Hm Hrest [Hlow Hhigh].
  destruct (asan_target_bounds _ _ _ _ Htarget) as [Ht Hlen].
  rewrite <- Hlen in Hhigh.
  pose proof (no_nul_cstr (str_drop t mem3)) as Hno. rewrite Htok in Hno.
  destruct (dso_token_marks module off z rest Hno Hm Hrest) as (Hopen & Hplus & Hclose).
  unfold strchr in Hopen, Hplus. unfold strrchr in Hclose.
  rewrite <- Htok, <- strchr_from_cstr in Hopen, Hplus.
  rewrite <- Htok, <- strrchr_from_cstr in Hclose.
  fold (strchr (str_drop t mem3) "(") in Hopen.
  fold (strchr (str_drop t mem3) "+") in Hplus.
  fold (strrchr (str_drop t mem3) ")") in Hclose.
  (* the bytes of the block around the token *)
  set (m := String.length module) in *. set (o := String.length off) in *.
  set (tail := str_drop (String.length (cstr (str_drop t mem3))) (str_drop t mem3)).
  assert (Hmem : mem3
                 = str_take t mem3
                   +:+ String "("
                         (module +:+ String "+" (off +:+ String z (String ")" (rest +:+ tail))))).
  { rewrite <- (str_take_drop t mem3) at 1. f_equal.
    rewrite <- (cstr_prefix (str_drop t mem3)) at 1. fold tail. rewrite Htok.
    unfold dso_token. repeat first [rewrite append_cons|rewrite append_assoc].
    reflexivity. }
  assert (Hpre : String.length (str_take t mem3) = t) by (apply length_str_take; lia).
  assert (Hlong : (t + (m + o + 4) <= String.length mem3)%nat).
  { rewrite Hmem at 1. rewrite length_append, Hpre. cbn [String.length].
    rewrite length_append. cbn [String.length]. rewrite length_append.
    cbn [String.length]. fold m o. lia. }
  cbn [no_nul] in Hno. unfold dso_token in Hno. cbn [no_nul] in Hno.
  rewrite no_nul_append in Hno. cbn [no_nul] in Hno.
  rewrite no_nul_append in Hno. cbn [no_nul] in Hno.
  apply andb_true_iff in Hno as [_ Hno]. apply andb_true_iff in Hno as [Hmod Hno].
  apply andb_true_iff in Hno as [_ Hno]. apply andb_true_iff in Hno as [Hoff _].
  (* the store *)
  assert (Hcut : asan_cut (mk_block (b_base b) mem3) t
                 = Done (mk_block (b_base b)
                           (str_take t mem3
                            +:+ String "("
                                  (module
                                   +:+ String "+"
                                         (off +:+ String NUL (String ")" (rest +:+ tail))))))).
  { unfold asan_cut, asan_endOff, asan_startOff, block_store. cbn [b_base b_bytes].
    rewrite Hopen, Hclose. cbn [ptr_of]. fold m o.
    rewrite (ptr_small (b_base b + Z.of_nat t + Z.of_nat 0 + 1)) by lia.
    replace (b_base b + Z.of_nat t
             + (b_base b + Z.of_nat t + Z.of_nat (m + o + 3)
                - (b_base b + Z.of_nat t + Z.of_nat 0 + 1)))
      with (b_base b + Z.of_nat (t + (m + o + 2))) by lia.
    rewrite ptr_small by lia.
    rewrite block_off_mk by lia. cbn [b_base b_bytes].
    f_equal. f_equal. rewrite Hmem at 1.
    rewrite <- Hpre at 1. rewrite str_set_app_r. f_equal.
    replace (m + o + 2)%nat with (S (m + S o)) by lia. cbn [str_set]. f_equal.
    unfold m. rewrite str_set_app_r. f_equal.
    cbn [str_set]. f_equal. unfold o.
    replace (String.length off) with (String.length off + 0)%nat by lia.
    rewrite str_set_app_r. reflexivity. }
  set (mem4 := str_take t mem3
               +:+ String "("
                     (module +:+ String "+" (off +:+ String NUL (String ")" (rest +:+ tail)))))
    in *.
  assert (Hlen4 : String.length mem4 = String.length mem3).
  { unfold mem4. rewrite Hmem at 2. rewrite !length_append. cbn [String.length].
    rewrite !length_append. cbn [String.length]. rewrite !length_append.
    cbn [String.length]. reflexivity. }
  (* the three pointers *)
  unfold asan_frame. unfold asan_target in Htarget.
  destruct (strtok_r (b_bytes b) l) as [[t1 s1] m1].
  destruct (strtok_r m1 s1) as [[t2 s2] m2].
  destruct (strtok_r m2 s2) as [[t3 s3] m3].
  destruct t2 as [p|]; [|discriminate]. destruct t3 as [t'|]; [|discriminate].
  injection Htarget as -> ->. rewrite Hcut.
  assert (Hstart : asan_startOff (mk_block (b_base b) mem3) t = b_base b + Z.of_nat t + 1).
  { unfold asan_startOff. cbn [b_base b_bytes]. rewrite Hopen. cbn [ptr_of].
    rewrite ptr_small by lia. lia. }
  assert (Hp : asan_plusOff (mk_block (b_base b) mem3) t
               = b_base b + Z.of_nat t + Z.of_nat (S m)).
  { unfold asan_plusOff. cbn [b_base b_bytes]. rewrite Hplus. reflexivity. }
  assert (He : asan_endOff (mk_block (b_base b) mem3) t
               = b_base b + Z.of_nat t + Z.of_nat (m + o + 3)).
  { unfold asan_endOff. cbn [b_base b_bytes]. rewrite Hclose. reflexivity. }
  rewrite Hstart, Hp, He.
  assert (H1 : (b_base b + Z.of_nat t + 1 =? 0) = false) by (apply Z.eqb_neq; lia).
  assert (H2 : (b_base b + Z.of_nat t + Z.of_nat (m + o + 3) =? 0) = false)
    by (apply Z.eqb_neq; lia).
  assert (H3 : (b_base b + Z.of_nat t + Z.of_nat (S m) =? 0) = false)
    by (apply Z.eqb_neq; lia).
  rewrite H1, H2, H3. cbn [orb].
  (* the copy and the offset *)
  unfold asan_dso.
  replace (b_base b + Z.of_nat t + Z.of_nat (S m) - (b_base b + Z.of_nat t + 1))
    with (Z.of_nat m) by lia.
  rewrite (ptr_small (Z.of_nat m)) by lia.
  replace (Z.to_nat (Z.min (Z.of_nat _HF_FUNC_NAME_SZ) (Z.of_nat m)))
    with (Nat.min _HF_FUNC_NAME_SZ m) by lia.
  assert (Hread : block_read (mk_block (b_base b) mem4) (b_base b + Z.of_nat t + 1)
                    (Nat.min _HF_FUNC_NAME_SZ m)
                  = Done (str_take _HF_FUNC_NAME_SZ module)).
  { unfold block_read.
    destruct (Nat.min _HF_FUNC_NAME_SZ m =? 0)%nat eqn:Hz.
    - apply Nat.eqb_eq in Hz. f_equal.
      rewrite <- str_take_min. fold m. rewrite Hz. reflexivity.
    - apply Nat.eqb_neq in Hz.
      replace (b_base b + Z.of_nat t + 1) with (b_base b + Z.of_nat (t + 1)) by lia.
      rewrite block_off_mk by lia.
      replace (b_base b + Z.of_nat (t + 1) + Z.of_nat (Nat.min _HF_FUNC_NAME_SZ m) - 1)
        with (b_base b + Z.of_nat (t + Nat.min _HF_FUNC_NAME_SZ m)) by lia.
      rewrite block_off_mk by lia.
      f_equal. cbn [b_bytes]. unfold mem4. rewrite <- Hpre at 1.
      rewrite str_drop_app_r. cbn [str_drop].
      rewrite str_take_append by (fold m; lia).
      unfold m. apply str_take_min. }
  rewrite Hread.
  replace (b_base b + Z.of_nat t + Z.of_nat m + 1)
    with (b_base b + Z.of_nat (t + S m)) by lia.
  rewrite ptr_small by lia.
  assert (Hcode : block_cstr (mk_block (b_base b) mem4) (b_base b + Z.of_nat (t + S m))
                  = Done (String "+" off)).
  { unfold block_cstr.
    rewrite block_off_mk by lia. cbn [b_bytes].
    assert (Hdrop : str_drop (t + S m) mem4
                    = String "+" off +:+ String NUL (String ")" (rest +:+ tail))).
    { unfold mem4. rewrite <- Hpre at 1. rewrite str_drop_app_r. cbn [str_drop].
      unfold m. replace (String.length module) with (String.length module + 0)%nat by lia.
      rewrite str_drop_app_r. reflexivity. }
    rewrite Hdrop, has_nul_app_nul, cstr_append_nul.
    rewrite cstr_no_nul; [reflexivity|].
    cbn [no_nul]. change (Ascii.eqb "+" NUL) with false. exact Hoff. }
  rewrite Hcode. do 2 eexists. split; [reflexivity|]. cbn [func line].
  split; reflexivity.
Qed.

(** *** Lines that begin with white space *)

Lemma isspace_not_nul (c : ascii) : isspace c = true -> Ascii.eqb c NUL = false.
Proof using Type.
  destruct c as [[] [] [] [] [] [] [] []]; intros H; try reflexivity; discriminate H.
Qed.

(** A round leaves [lineptr] as far into the block as the trimming took
    it. *)
Lemma asan_frames_lineptr (a a' : asan_t) (b : block_t) :
  asan_frames a b = Continue a' \/ asan_frames a b = Break a' ->
  lineptr a' = space_run (b_bytes b).
Proof using Type.
  unfold asan_frames. intros H.
  repeat case_match; destruct H as [H|H]; simplify_eq; reflexivity.
Qed.

(** With [lineptr] advanced the loop cannot end well: its next [getline]
    is handed that pointer, and so is [free] when there is no next line. *)
Lemma asan_loop_advanced (header : string) (lines : list string) (n : nat) (a : asan_t) :
  lineptr a <> 0%nat ->
  match asan_loop header n lines a with
  | Done a' => lineptr a' <> 0%nat
  | Fault => True
  end.
Proof using Type.
  intros Hl. destruct lines as [|line lines]; [exact Hl|].
  cbn [asan_loop]. rewrite getline_advanced by exact Hl. exact I.
Qed.

(** What the loop does with a line that begins with white space, once the
    header has been found. *)
Lemma asan_loop_indented (header : string) (c : ascii) (x : string)
    (lines : list string) (n : nat) (a : asan_t) :
  headerFound a = true ->
  isspace c = true ->
  match asan_loop header n (String c x :: lines) a with
  | Done a' => lineptr a' <> 0%nat
  | Fault => True
  end.
Proof using Type.
  intros Hfound Hc. cbn [asan_loop].
  destruct (getline n a (String c x)) as [b|] eqn:Hget; [|exact I].
  assert (Hrun : space_run (b_bytes b) <> 0%nat).
  { destruct (Nat.eq_dec (lineptr a) 0%nat) as [Hl|Hl];
      [|rewrite getline_advanced in Hget by exact Hl; discriminate].
    destruct (getline_bytes n a (String c x) Hl) as (base & r & Hb).
    rewrite Hb in Hget. injection Hget as <-. cbn [b_bytes].
    rewrite append_cons. cbn [space_run].
    rewrite (isspace_not_nul c Hc), Hc. discriminate. }
  rewrite Hfound. cbn [negb].
  destruct (asan_frames a b) as [a1|a1|] eqn:Hround; [| |exact I].
  - apply asan_loop_advanced.
    rewrite (asan_frames_lineptr a a1 b (or_introl Hround)). exact Hrun.
  - rewrite (asan_frames_lineptr a a1 b (or_intror Hround)). exact Hrun.
Qed.

(** Lines that do not begin with the prefix of the first frame leave the
    depth at zero, so none of them ends the loop. *)
Lemma asan_loop_before_frames (header : string) (c : ascii) (x : string)
    (rest : list string) (lines : list string) :
  isspace c = true ->
  forallb (fun l => negb (strncmp_eq l "#0" 2)) lines = true ->
  forall (n : nat) (a : asan_t),
    headerFound a = true -> frameIdx a = 0 -> framePrefix a = "#0" ->
    match asan_loop header n (lines ++ String c x :: rest) a with
    | Done a' => lineptr a' <> 0%nat
    | Fault => True
    end.
Proof using Type.
  intros Hc. induction lines as [|line lines IH]; intros Hall n a Hfound Hidx Hprefix.
  { apply asan_loop_indented; assumption. }
  simpl in Hall. apply andb_true_iff in Hall as [Hline Hall].
  apply negb_true_iff in Hline.
  destruct (Nat.eq_dec (lineptr a) 0%nat) as [Hl|Hl];
    [|apply (asan_loop_advanced header _ n a Hl)].
  cbn [app asan_loop]. destruct (getline_bytes n a line Hl) as (base & r & ->).
  rewrite Hfound. cbn [negb].
  destruct (asan_frames a _) as [a1|a1|] eqn:Hround; [| |exact I].
  - destruct (Nat.eq_dec (lineptr a1) 0%nat) as [Hl1|Hl1];
      [|apply (asan_loop_advanced header _ (S n) a1 Hl1)].
    rewrite (asan_frames_lineptr a a1 _ (or_introl Hround)) in Hl1.
    cbn [b_bytes] in Hl1.
    unfold asan_frames in Hround. cbn [b_bytes] in Hround. rewrite Hl1 in Hround.
    cbn [str_drop set_lineptr set_op frameIdx framePrefix cAddr op a_funcs headerFound
           crashAddr] in Hround.
    rewrite Hidx, Hprefix in Hround. cbn [Z.eqb negb] in Hround.
    rewrite andb_false_r in Hround.
    assert (Hno : strncmp_eq (line +:+ String NUL r) "#0" (strlen "#0") = false).
    { unfold strncmp_eq in *. rewrite cstr_append_nul. exact Hline. }
    rewrite Hno in Hround.
    apply IH; try exact Hall;
      repeat case_match; simplify_eq; cbn [headerFound frameIdx framePrefix]; assumption.
  - exfalso.
    unfold asan_frames in Hround.
    cbn [set_lineptr set_op frameIdx framePrefix cAddr op a_funcs headerFound crashAddr]
      in Hround.
    rewrite Hidx, Hprefix in Hround. cbn [Z.eqb negb] in Hround.
    rewrite andb_false_r in Hround.
    assert (Hdepth : (Z.of_nat _HF_MAX_FUNCS <=? 0) = false) by reflexivity.
    rewrite Hdepth in Hround.
    repeat case_match; discriminate.
Qed.

Lemma asan_seek_header_found (header : string) (a a' : asan_t) (b : block_t) :
  (strlen header <? strlen (b_bytes b))%nat
  && strncmp_eq header (b_bytes b) (strlen header) = true ->
  asan_seek_header header a b = Done a' ->
  headerFound a' = true /\ frameIdx a' = frameIdx a /\ framePrefix a' = framePrefix a.
Proof using Type.
  unfold asan_seek_header. intros Htest H. rewrite Htest in H.
  repeat case_match; simplify_eq; repeat split; reflexivity.
Qed.

(** X25. A report that holds an indented line, as the frames of a stack trace
    are printed, does not come back from the parser. The header of this
    process is followed by lines that do not start with ["#0"] and then by a
    line that begins with a white-space character: the trimming advances
    [lineptr] itself, and the next [getline], or [free], is handed a
    pointer that [malloc] did not return. *)
Theorem parseAsanReport_indented_line_faults (pid : Z) (before between after : list string)
    (h : string) (c : ascii) (x : string) (funcs : list funcs_t) (crashAddr0 : Z)
    (op0 : string) :
  forallb (fun l => negb (header_line (asan_header pid) l)) before = true ->
  header_line (asan_header pid) h = true ->
  forallb (fun l => negb (strncmp_eq l "#0" 2)) between = true ->
  isspace c = true ->
  arch_parseAsanReport pid (Some (before ++ h :: between ++ String c x :: after))
    funcs crashAddr0 op0
  = Fault.
Proof using Type.
  intros Hbefore Hh Hbetween Hc. unfold arch_parseAsanReport.
  assert (Hloop : forall (n : nat) (a : asan_t),
             headerFound a = false -> lineptr a = 0%nat ->
             frameIdx a = 0 -> framePrefix a = "#0" ->
             match asan_loop (asan_header pid) n
                     (before ++ h :: between ++ String c x :: after) a with
             | Done a' => lineptr a' <> 0%nat
             | Fault => True
             end).
  { induction before as [|line before IH]; intros n a Hfound Hl Hidx Hprefix.
    - cbn [app asan_loop]. destruct (getline_bytes n a h Hl) as (base & r & ->).
      rewrite Hfound. cbn [negb].
      destruct (asan_seek_header _ _ _) as [a1|] eqn:Hseek; [|exact I].
      apply asan_seek_header_found in Hseek as (H1 & H2 & H3);
        [|cbn [b_bytes]; rewrite header_line_block; exact Hh].
      apply asan_loop_before_frames; try assumption.
      + rewrite H2. exact Hidx.
      + rewrite H3. exact Hprefix.
    - simpl in Hbefore. apply andb_true_iff in Hbefore as [Hline Hbefore].
      apply negb_true_iff in Hline.
      cbn [app asan_loop]. destruct (getline_bytes n a line Hl) as (base & r & ->).
      rewrite Hfound. cbn [negb]. unfold asan_seek_header. cbn [b_bytes].
      rewrite header_line_block, Hline.
      apply IH; [exact Hbefore|exact Hfound|reflexivity|exact Hidx|exact Hprefix]. }
  specialize (Hloop 0%nat
                (mk_asan false 0 (asan_framePrefix 0) None 0 0 crashAddr0 op0 funcs)
                eq_refl eq_refl eq_refl eq_refl).
  destruct (asan_loop _ _ _ _) as [a'|]; [|reflexivity].
  apply Nat.eqb_neq in Hloop. rewrite Hloop. reflexivity.
Qed.
(** ** Reading memory word by word *)

Lemma LONG_SIZE_pos : (0 < LONG_SIZE)%nat.
Proof using Type. unfold LONG_SIZE. destruct cpu; simpl; lia. Qed.

(** With [errno] set on entry and never cleared the loop leaves at its
    first test. *)
Lemma getProcMem_loop_stale (peek : Z -> option (list Z)) (pc : Z) (n x : nat)
    (errno : Z) (memsz : nat) (buf : list Z) :
  (errno =? 0) || ptrace_peek_clears_errno = false ->
  getProcMem_loop peek pc n x errno memsz buf = (memsz, buf).
Proof using Type.
  intros He. apply orb_false_iff in He as [He Hc].
  destruct n as [|n]; [reflexivity|]. cbn [getProcMem_loop].
  rewrite Hc. destruct (peek _); cbn zeta.
  - rewrite He. reflexivity.
  - reflexivity.
Qed.

Lemma getProcMem_loop_count (peek : Z -> option (list Z)) (pc : Z) (n : nat) :
  forall (x : nat) (errno : Z) (memsz : nat) (buf : list Z),
    (errno =? 0) || ptrace_peek_clears_errno = true ->
    (getProcMem_loop peek pc n x errno memsz buf).1
    = (memsz
       + LONG_SIZE
         * readable_prefix peek
             (map (fun x => (pc + s32 (Z.of_nat (x * LONG_SIZE)))%Z) (seq x n)))%nat.
Proof using Type.
  induction n as [|n IH]; intros x errno memsz buf He;
    cbn [getProcMem_loop seq map readable_prefix].
  - simpl. lia.
  - destruct (peek _) as [word|]; cbn [is_set default negb EIO].
    + assert (He' : (if ptrace_peek_clears_errno then 0 else errno) = 0).
      { destruct ptrace_peek_clears_errno; [reflexivity|].
        rewrite orb_false_r in He. apply Z.eqb_eq, He. }
      rewrite He'. cbn [Z.eqb negb]. rewrite IH by reflexivity. lia.
    + simpl. lia.
Qed.

Lemma length_memcpy_at (buf src : list Z) (off : nat) :
  (off + length src <= length buf)%nat ->
  length (memcpy_at buf off src) = length buf.
Proof using Type.
  intros H. unfold memcpy_at.
  rewrite !length_app, length_take, length_drop. lia.
Qed.

Lemma drop_memcpy_at (buf src : list Z) (off k : nat) :
  (off + length src <= length buf)%nat ->
  (off + length src <= k)%nat ->
  drop k (memcpy_at buf off src) = drop k buf.
Proof using Type.
  intros Hfit Hk. unfold memcpy_at.
  rewrite drop_app_ge by (rewrite length_take; lia).
  rewrite length_take, Nat.min_l by lia.
  rewrite drop_app_ge by lia.
  rewrite drop_drop. f_equal. lia.
Qed.

Lemma getProcMem_loop_buffer (peek : Z -> option (list Z)) (pc : Z) (n : nat) :
  forall (x : nat) (errno : Z) (buf : list Z),
    ((x + n) * LONG_SIZE <= length buf)%nat ->
    (x * LONG_SIZE <= (getProcMem_loop peek pc n x errno (x * LONG_SIZE) buf).1
     <= (x + n) * LONG_SIZE)%nat
    /\ length (getProcMem_loop peek pc n x errno (x * LONG_SIZE) buf).2 = length buf
    /\ drop (getProcMem_loop peek pc n x errno (x * LONG_SIZE) buf).1
         (getProcMem_loop peek pc n x errno (x * LONG_SIZE) buf).2
       = drop (getProcMem_loop peek pc n x errno (x * LONG_SIZE) buf).1 buf.
Proof using Type.
  induction n as [|n IH]; intros x errno buf Hfit; cbn [getProcMem_loop].
  - cbn [fst snd]. split; [lia|]. split; reflexivity.
  - destruct (negb (_ =? 0)).
    + cbn [fst snd]. split; [lia|]. split; reflexivity.
    + set (src := take LONG_SIZE (default [] (peek (pc + s32 (Z.of_nat (x * LONG_SIZE)))))).
      set (errno' := match peek (pc + s32 (Z.of_nat (x * LONG_SIZE))) with
                     | Some _ => if ptrace_peek_clears_errno then 0 else errno
                     | None => EIO
                     end).
      assert (Hsrc : (length src <= LONG_SIZE)%nat)
        by (unfold src; rewrite length_take; lia).
      assert (Hlen : length (memcpy_at buf (x * LONG_SIZE) src) = length buf)
        by (apply length_memcpy_at; lia).
      replace (x * LONG_SIZE + LONG_SIZE)%nat with (S x * LONG_SIZE)%nat by lia.
      destruct (IH (S x) errno' (memcpy_at buf (x * LONG_SIZE) src)) as (H1 & H2 & H3);
        [rewrite Hlen; lia|].
      split; [lia|]. split; [rewrite H2; exact Hlen|].
      rewrite H3. apply drop_memcpy_at; lia.
Qed.

Lemma readable_prefix_le (peek : Z -> option (list Z)) (addrs : list Z) :
  (readable_prefix peek addrs <= length addrs)%nat.
Proof using Type.
  induction addrs as [|a addrs IH]; simpl; [lia|].
  destruct (is_set (peek a)); simpl; lia.
Qed.

(** The size the word loop returns from its start. *)
Lemma getProcMem_loop_size (len : nat) (pc errno : Z) (peek : Z -> option (list Z))
    (buf : list Z) :
  (getProcMem_loop peek pc (len / LONG_SIZE) 0 errno 0 buf).1
  = if (errno =? 0) || ptrace_peek_clears_errno
    then (LONG_SIZE * readable_prefix peek (word_addrs pc len))%nat
    else 0%nat.
Proof using Type.
  destruct ((errno =? 0) || ptrace_peek_clears_errno) eqn:He.
  - rewrite getProcMem_loop_count by exact He. reflexivity.
  - rewrite getProcMem_loop_stale by exact He. reflexivity.
Qed.

(** Without a full [process_vm_readv] the word loop decides. *)
Lemma getProcMem_unread (buf : list Z) (len : nat) (pc : Z) (readv : option (list Z))
    (errno : Z) (peek : Z -> option (list Z)) :
  length <$> readv <> Some len ->
  arch_getProcMem buf len pc readv errno peek
  = getProcMem_loop peek pc (len / LONG_SIZE) 0 errno 0
      (match readv with Some data => memcpy_at buf 0 data | None => buf end).
Proof using Type.
  intros Hreadv. unfold arch_getProcMem. destruct readv as [data|]; [|reflexivity].
  destruct (length data =? len)%nat eqn:E; [|reflexivity].
  apply Nat.eqb_eq in E. contradiction Hreadv. simpl. rewrite E. reflexivity.
Qed.

(** X13. The fallback of [arch_getProcMem]. When [process_vm_readv] does not
    return [len], the size returned is [sizeof(long)] times the number of
    words that [PT_READ_D] reads before its first failure, among the first
    [len / sizeof(long)] words from [pc]; but only if [errno] is zero when
    the loop is entered or [ptrace] clears it on success: the loop tests
    [errno], not the value returned, so with [errno] left set by an earlier
    call and a [ptrace] that does not clear it, it reads nothing. *)
Theorem getProcMem_word_fallback (buf : list Z) (len : nat) (pc : Z)
    (readv : option (list Z)) (errno : Z) (peek : Z -> option (list Z)) :
  length <$> readv <> Some len ->
  (arch_getProcMem buf len pc readv errno peek).1
  = if (errno =? 0) || ptrace_peek_clears_errno
    then (LONG_SIZE * readable_prefix peek (word_addrs pc len))%nat
    else 0%nat.
Proof using Type.
  intros Hreadv. rewrite getProcMem_unread by exact Hreadv.
  apply getProcMem_loop_size.
Qed.

(** X14. [arch_getProcMem] never reports more than [len] bytes, and what it
    reports is [len] or a whole number of words. When [process_vm_readv]
    fails, a buffer of [len] bytes keeps its size and the bytes from the
    returned size on are what they were: no word is stored partly. *)
Theorem getProcMem_bounds (buf : list Z) (len : nat) (pc : Z)
    (readv : option (list Z)) (errno : Z) (peek : Z -> option (list Z)) :
  ((arch_getProcMem buf len pc readv errno peek).1 <= len)%nat
  /\ ((arch_getProcMem buf len pc readv errno peek).1 = len
      \/ exists k : nat,
           (arch_getProcMem buf len pc readv errno peek).1 = (k * LONG_SIZE)%nat)
  /\ (readv = None -> length buf = len ->
      length (arch_getProcMem buf len pc readv errno peek).2 = len
      /\ drop (arch_getProcMem buf len pc readv errno peek).1
           (arch_getProcMem buf len pc readv errno peek).2
         = drop (arch_getProcMem buf len pc readv errno peek).1 buf).
Proof using Type.
  pose proof LONG_SIZE_pos as Hpos.
  assert (Hwords : (len / LONG_SIZE * LONG_SIZE <= len)%nat).
  { rewrite Nat.mul_comm. apply Nat.Div0.mul_div_le. }
  assert (Hloop : forall b : list Z,
             ((getProcMem_loop peek pc (len / LONG_SIZE) 0 errno 0 b).1 <= len)%nat
             /\ exists k : nat,
                  (getProcMem_loop peek pc (len / LONG_SIZE) 0 errno 0 b).1
                  = (k * LONG_SIZE)%nat).
  { intros b. destruct ((errno =? 0) || ptrace_peek_clears_errno) eqn:He.
    - rewrite getProcMem_loop_count by exact He. split.
      + pose proof (readable_prefix_le peek
                      (map (fun x => pc + s32 (Z.of_nat (x * LONG_SIZE)))
                         (seq 0 (len / LONG_SIZE)))) as Hle.
        rewrite length_map, length_seq in Hle. nia.
      + eexists. rewrite Nat.mul_comm. reflexivity.
    - rewrite getProcMem_loop_stale by exact He. split; [simpl; lia|].
      exists 0%nat. reflexivity. }
  split; [|split].
  - unfold arch_getProcMem. destruct readv as [data|]; [|apply Hloop].
    destruct (length data =? len)%nat; [simpl; lia|apply Hloop].
  - unfold arch_getProcMem. destruct readv as [data|]; [|right; apply Hloop].
    destruct (length data =? len)%nat; [left; reflexivity|right; apply Hloop].
  - intros -> Hlen. unfold arch_getProcMem.
    destruct (getProcMem_loop_buffer peek pc (len / LONG_SIZE) 0 errno buf)
      as (_ & H2 & H3); [simpl; lia|].
    change (0 * LONG_SIZE)%nat with 0%nat in *.
    split; [rewrite H2; exact Hlen|exact H3].
Qed.

(** ** The instruction text *)

Lemma instr_char_clean (c : ascii) : instr_clean (instr_char c) = true.
Proof using Type. destruct c as [[] [] [] [] [] [] [] []]; reflexivity. Qed.

Lemma instr_clean_not_nul (c : ascii) : instr_clean c = true -> Ascii.eqb c NUL = false.
Proof using Type. destruct c as [[] [] [] [] [] [] [] []]; intros H; try reflexivity; discriminate H. Qed.

Lemma instr_sanitize_clean (s : string) :
  forall n : nat,
    (strlen s <= n)%nat ->
    str_forall instr_clean (cstr (instr_sanitize n s)) = true.
Proof using Type.
  unfold strlen. induction s as [|x s IH]; intros n Hn; [reflexivity|].
  cbn [instr_sanitize cstr String.length] in *.
  destruct (Ascii.eqb x NUL) eqn:Hx.
  - cbn [cstr]. rewrite Hx. reflexivity.
  - cbn [String.length] in Hn. destruct n as [|n]; [lia|].
    cbn [cstr]. rewrite (instr_clean_not_nul _ (instr_char_clean x)).
    cbn [str_forall]. rewrite instr_char_clean, IH by lia. reflexivity.
Qed.

Lemma length_cstr_le (s : string) : (String.length (cstr s) <= String.length s)%nat.
Proof using Type.
  induction s as [|x s IH]; [reflexivity|]. cbn [cstr].
  destruct (Ascii.eqb x NUL); simpl; lia.
Qed.

Lemma length_str_take_le (n : nat) :
  forall s : string, (String.length (str_take n s) <= n)%nat.
Proof using Type.
  induction n as [|n IH]; intros s; [reflexivity|].
  destruct s as [|x s]; simpl; [lia|]. specialize (IH s). lia.
Qed.

Lemma strlen_snprintf (size : nat) (s : string) : (strlen (snprintf size s) <= size)%nat.
Proof using Type.
  unfold strlen, snprintf.
  pose proof (length_cstr_le (str_take (size - 1) s)).
  pose proof (length_str_take_le (size - 1) s). lia.
Qed.

Lemma str_forall_take (p : ascii -> bool) (n : nat) :
  forall s : string, str_forall p s = true -> str_forall p (str_take n s) = true.
Proof using Type.
  induction n as [|n IH]; intros s Hs; [reflexivity|].
  destruct s as [|x s]; [reflexivity|]. cbn [str_forall str_take] in *.
  apply andb_true_iff in Hs as [Hx Hs]. rewrite Hx, IH by exact Hs. reflexivity.
Qed.

Lemma str_forall_cstr (p : ascii -> bool) (s : string) :
  str_forall p s = true -> str_forall p (cstr s) = true.
Proof using Type.
  induction s as [|x s IH]; intros Hs; [reflexivity|]. cbn [str_forall cstr] in *.
  apply andb_true_iff in Hs as [Hx Hs].
  destruct (Ascii.eqb x NUL); [reflexivity|].
  cbn [str_forall]. rewrite Hx, IH by exact Hs. reflexivity.
Qed.

(** X15. The text [arch_getInstrStr] leaves, which becomes the [INSTR] part of
    the crash file name, holds printable characters only and no space,
    slash or backslash, whatever the disassembler wrote, provided that text
    fits the [_HF_INSTR_SZ] bytes of [instr]. *)
Theorem getInstrStr_clean (pc0 : Z) (o : instr_t) :
  (forall (buf : list Z) (memsz : nat), (strlen (in_bfd o buf memsz) <= _HF_INSTR_SZ)%nat) ->
  str_forall instr_clean (cstr (arch_getInstrStr pc0 o).2) = true.
Proof using Type.
  intros Hfit. unfold arch_getInstrStr.
  assert (Hconst : forall s : string,
             str_forall instr_clean s = true ->
             str_forall instr_clean (cstr (snprintf _HF_INSTR_SZ s)) = true).
  { intros s Hs. apply str_forall_cstr, str_forall_take, Hs. }
  destruct (in_pcRegSz o =? 0); [apply Hconst; reflexivity|].
  destruct (arch_getProcMem _ _ _ _ _ _) as [memsz buf].
  destruct (memsz =? 0)%nat; [apply Hconst; reflexivity|].
  destruct android.
  - destruct (in_capstone o buf) as [[mnemonic op_str]|]; [|apply Hconst; reflexivity].
    apply instr_sanitize_clean, strlen_snprintf.
  - apply instr_sanitize_clean, Hfit.
Qed.

(** X16. When the memory at the PC cannot be read the instruction is reported
    as ["[NOT_MMAPED]"]. With [process_vm_readv] failing this is the case
    as soon as [errno] is still set when the word loop starts and [ptrace]
    does not clear it, or the first word cannot be read, and always on
    PowerPC64, where [MAX_INSTR_SZ] is smaller than a [long] and the loop
    has no round. *)
Theorem getInstrStr_not_mapped (pc0 : Z) (o : instr_t) :
  in_pcRegSz o <> 0 ->
  length <$> in_readv o <> Some (MAX_INSTR_SZ cpu) ->
  (ptrace_peek_clears_errno = false /\ in_errno o <> 0)
  \/ cpu = POWERPC64 \/ in_peek o (in_pc o) = None ->
  arch_getInstrStr pc0 o = (in_pc o, snprintf _HF_INSTR_SZ "[NOT_MMAPED]").
Proof using Type.
  intros Hsz Hreadv Hwhy. unfold arch_getInstrStr.
  apply Z.eqb_neq in Hsz. rewrite Hsz.
  rewrite (getProcMem_unread _ _ _ _ _ _ Hreadv).
  pose proof (getProcMem_loop_size (MAX_INSTR_SZ cpu) (in_pc o) (in_errno o) (in_peek o)
                (match in_readv o with
                 | Some data => memcpy_at (in_buf o) 0 data
                 | None => in_buf o
                 end)) as Hmem.
  destruct (getProcMem_loop _ _ _ _ _ _ _) as [memsz buf]. cbn [fst] in Hmem.
  assert (H0 : memsz = 0%nat).
  { rewrite Hmem. destruct ((in_errno o =? 0) || ptrace_peek_clears_errno) eqn:He;
      [|reflexivity].
    destruct Hwhy as [[Hc H]|[H|H]].
    - rewrite Hc, orb_false_r in He. apply Z.eqb_eq in He. contradiction.
    - unfold word_addrs, LONG_SIZE. rewrite H. reflexivity.
    - unfold word_addrs. destruct (MAX_INSTR_SZ cpu / LONG_SIZE)%nat; [simpl; lia|].
      cbn [seq map readable_prefix]. change (s32 (Z.of_nat (0 * LONG_SIZE))) with 0.
      rewrite Z.add_0_r, H. simpl. lia. }
  rewrite H0. reflexivity.
Qed.
(** ** Dispatch on the wait status *)

Lemma land_ff (s : Z) : Z.land s 0xff = s mod 256.
Proof using Type. change 0xff with (Z.ones 8). apply Z.land_ones. lia. Qed.

Lemma land_7f (s : Z) : Z.land s 0x7f = s mod 128.
Proof using Type. change 0x7f with (Z.ones 7). apply Z.land_ones. lia. Qed.

Lemma WIFSTOPPED_mod (s : Z) : WIFSTOPPED s = (s mod 256 =? 127).
Proof using Type. unfold WIFSTOPPED. rewrite land_ff. reflexivity. Qed.

Lemma WIFEXITED_mod (s : Z) : WIFEXITED s = (s mod 128 =? 0).
Proof using Type. unfold WIFEXITED, WTERMSIG. rewrite land_7f. reflexivity. Qed.

Lemma WIFSIGNALED_mod (s : Z) :
  WIFSIGNALED s = (1 <=? s mod 128) && (s mod 128 <=? 126).
Proof using Type.
  unfold WIFSIGNALED, s8. rewrite land_7f, Z.shiftr_div_pow2 by lia.
  change (2 ^ 7) with 128. change (2 ^ 8) with 256. change (2 ^ 1) with 2.
  destruct (Z.ltb_spec 0 ((((s mod 128 + 1 + 128) mod 256) - 128) / 2)),
    (Z.leb_spec 1 (s mod 128)), (Z.leb_spec (s mod 128) 126);
    try reflexivity; exfalso; div_mod_lia.
Qed.

Lemma ptraceEvent_returns (w : world) (status pid : Z) (ev : event_t) :
  arch_ptraceEvent w status pid ev <> Done Aborted.
Proof using Type.
  unfold arch_ptraceEvent. repeat case_match; discriminate.
Qed.

(** X17. [abort()] stands after the five tests on the status with the remark
    that it is not reached. It is reached exactly for a status whose low
    byte is 0xff, other than 0xffff where [WIFCONTINUED] is the one of the
    header: that status is neither stopped, nor continued, nor exited, nor
    signaled. *)
Theorem analyze_aborts_iff (w : world) (status pid : Z) (ev : event_t) :
  arch_ptraceAnalyze w status pid ev = Done Aborted
  <-> Z.land status 0xff = 0xff
      /\ (status = 0xffff -> android && negb have_WIFCONTINUED = true).
Proof using Type.
  unfold arch_ptraceAnalyze.
  rewrite land_ff, WIFSTOPPED_mod, WIFEXITED_mod, WIFSIGNALED_mod.
  unfold WIFCONTINUED, WIFCONTINUED_fallback.
  change (negb (WEXITSTATUS 0 =? 0)) with false.
  destruct (Z.eqb_spec (status mod 256) 127) as [Hs|Hs].
  { cbn [andb]. split.
    - intros H. exfalso. destruct (negb (__WEVENT status =? 0)).
      + exact (ptraceEvent_returns _ _ _ _ H).
      + repeat case_match; discriminate.
    - intros [H _]. exfalso. lia. }
  cbn [andb].
  assert (Hcont : forall b : bool,
             (if b then false else status =? 0xffff) = false ->
             status = 0xffff -> b = true).
  { intros [] Hb Hc; [reflexivity|]. apply Z.eqb_neq in Hb. contradiction. }
  destruct (if android && negb have_WIFCONTINUED then false else status =? 0xffff) eqn:Hc.
  { split; [discriminate|]. intros [_ H].
    destruct (android && negb have_WIFCONTINUED); [discriminate|].
    apply Z.eqb_eq in Hc. specialize (H Hc). discriminate. }
  specialize (Hcont _ Hc).
  destruct (Z.eqb_spec (status mod 128) 0) as [He|He].
  { split.
    - repeat case_match; discriminate.
    - intros [H _]. exfalso. div_mod_lia. }
  destruct (Z.leb_spec 1 (status mod 128)), (Z.leb_spec (status mod 128) 126); cbn [andb].
  - split; [discriminate|]. intros [Hb _]. exfalso. div_mod_lia.
  - split; [intros _|reflexivity]. split; [|exact Hcont]. clear Hcont Hc. div_mod_lia.
  - exfalso. div_mod_lia.
  - exfalso. div_mod_lia.
Qed.

(** X18. How a status is answered. A tracee that is not stopped is never sent
    [PT_CONTINUE]. A signal stop is always resumed with the stop signal
    forwarded, important or not. An event stop is resumed with signal 0,
    except an exit event whose message cannot be read, which leaves the
    tracee stopped. And the state of the fuzzer changes only at a stop
    with an important signal, at an exit event whose message is a
    sanitizer exit, or at an exit with a sanitizer code. *)
Theorem analyze_dispatch (w w' : world) (status pid : Z) (ev : event_t)
    (cont : option Z) :
  arch_ptraceAnalyze w status pid ev = Done (Analysed w' cont) ->
  cont
  = (if WIFSTOPPED status then
       if __WEVENT status =? 0 then Some (WSTOPSIG status)
       else if (__WEVENT status =? PTRACE_EVENT_EXIT) && negb (is_set (ev_msg ev))
            then None else Some 0
     else None)
  /\ (w' <> w ->
      WIFSTOPPED status = true /\ __WEVENT status = 0
      /\ arch_sigs_important android (WSTOPSIG status) = true
      \/ WIFSTOPPED status = true /\ __WEVENT status = PTRACE_EVENT_EXIT
         /\ (exists event_msg : Z,
               ev_msg ev = Some event_msg /\ WIFEXITED event_msg = true
               /\ sanitizer_exit_ul (WEXITSTATUS event_msg) = true)
      \/ WIFSTOPPED status = false
         /\ WIFEXITED status = true /\ sanitizer_exit (WEXITSTATUS status) = true).
Proof using Type.
  unfold arch_ptraceAnalyze, arch_ptraceEvent. intros H.
  destruct (WIFSTOPPED status) eqn:Hstop; cbn [andb] in H.
  - destruct (Z.eqb_spec (__WEVENT status) 0) as [Hev|Hev]; cbn [negb] in H.
    + destruct (NSIG <=? WSTOPSIG status); [discriminate|].
      destruct (arch_sigs_important android (WSTOPSIG status)) eqn:Himp.
      * split; [repeat case_match; simplify_eq; reflexivity|].
        intros _. left. repeat split; assumption.
      * simplify_eq. split; [reflexivity|]. intros Hne. contradiction.
    + destruct (Z.eqb_spec (__WEVENT status) PTRACE_EVENT_EXIT) as [Hexit|Hexit].
      * destruct (ev_msg ev) as [event_msg|] eqn:Hmsg; cbn [andb negb is_set].
        -- destruct (WIFEXITED event_msg) eqn:Hex;
             [|simplify_eq; split; [reflexivity|intros Hne; contradiction]].
           destruct (sanitizer_exit_ul (WEXITSTATUS event_msg)) eqn:Hsan;
             [|simplify_eq; split; [reflexivity|intros Hne; contradiction]].
           split; [repeat case_match; simplify_eq; reflexivity|].
           intros _. right. left. repeat split; try assumption.
           exists event_msg. repeat split; assumption.
        -- simplify_eq. split; [reflexivity|]. intros Hne. contradiction.
      * simplify_eq. split; [reflexivity|]. intros Hne. contradiction.
  - destruct (if android && negb have_WIFCONTINUED then _ else _);
      [simplify_eq; split; [reflexivity|intros Hne; contradiction]|].
    destruct (WIFEXITED status) eqn:Hex.
    + destruct (sanitizer_exit (WEXITSTATUS status)) eqn:Hsan;
        [|simplify_eq; split; [reflexivity|intros Hne; contradiction]].
      split; [repeat case_match; simplify_eq; reflexivity|].
      intros _. right. right. repeat split; assumption.
    + destruct (WIFSIGNALED status); [|discriminate].
      simplify_eq. split; [reflexivity|]. intros Hne. contradiction.
Qed.

(** X19. At a signal stop a worker that is not the main one is resumed with the
    signal forwarded and has at most a new stack hash: the counters, the
    files and the calls to collaborators are those of before, important
    signal or not. *)
Theorem analyze_signal_stop_of_other_worker (w : world) (status pid : Z) (ev : event_t) :
  mainWorker (w_fuzzer w) = false ->
  WIFSTOPPED status = true ->
  __WEVENT status = 0 ->
  WSTOPSIG status < NSIG ->
  exists w' : world,
    arch_ptraceAnalyze w status pid ev = Done (Analysed w' (Some (WSTOPSIG status)))
    /\ w_hfuzz w' = w_hfuzz w /\ w_files w' = w_files w /\ w_calls w' = w_calls w
    /\ w_fuzzer w' = set_backtrace (w_fuzzer w) (backtrace (w_fuzzer w')).
Proof using Type.
  intros Hmain Hstop Hev Hsig. unfold arch_ptraceAnalyze.
  rewrite Hstop, Hev, Hmain. cbn [andb negb Z.eqb].
  apply Z.leb_gt in Hsig. rewrite Hsig.
  destruct (arch_sigs_important android (WSTOPSIG status)).
  - eexists. split; [reflexivity|].
    destruct (analyzeData_frame w (stop_at pid (ev_stop ev)) (ev_pcRegSz ev))
      as (H1 & H2 & H3 & H4).
    repeat split; assumption.
  - exists w. split; [reflexivity|]. repeat split.
    destruct (w_fuzzer w); reflexivity.
Qed.
(** ** Attaching and detaching *)

Lemma task_ids_nonzero (ents : list readdir_t) : Forall (fun t => t <> 0) (task_ids ents).
Proof using Type.
  unfold task_ids. induction ents as [|e ents IH]; [constructor|].
  cbn [omap list_omap]. destruct e as [|d_name]; [exact IH|].
  destruct (Z.eqb_spec (s32 (strtol d_name 10)) 0); [exact IH|].
  constructor; assumption.
Qed.

Lemma task_ids_entry (d_name : string) (ents : list readdir_t) :
  task_ids (Readdir_entry d_name :: ents)
  = if s32 (strtol d_name 10) =? 0 then task_ids ents
    else s32 (strtol d_name 10) :: task_ids ents.
Proof using Type.
  unfold task_ids. cbn [omap list_omap].
  destruct (s32 (strtol d_name 10) =? 0); reflexivity.
Qed.

(** On an array whose tail is still zero, and with room left, the loop of
    [arch_listThreads] appends the task ids. *)
Lemma listThreads_loop_appends (thrSz : nat) (ents : list readdir_t) :
  forallb readdir_ok ents = true ->
  forall (pre : list Z) (k : nat),
    (length pre + length (task_ids ents) < thrSz)%nat ->
    (length (task_ids ents) <= k)%nat ->
    listThreads_loop ents (pre ++ replicate k 0) thrSz (length pre)
    = Done (pre ++ task_ids ents ++ replicate (k - length (task_ids ents)) 0,
            Some (length pre + length (task_ids ents))%nat).
Proof using Type.
  induction ents as [|e ents IH]; intros Hok pre k Hroom Hk.
  - change (task_ids []) with (@nil Z). cbn [listThreads_loop length app].
    rewrite Nat.sub_0_r, Nat.add_0_r. reflexivity.
  - cbn [forallb] in Hok. apply andb_true_iff in Hok as [He Hok].
    destruct e as [|d_name]; [discriminate|].
    rewrite task_ids_entry in *. cbn [listThreads_loop].
    destruct (Z.eqb_spec (s32 (strtol d_name 10)) 0) as [Hz|Hz].
    + apply IH; assumption.
    + cbn [length] in Hroom, Hk. destruct k as [|k]; [lia|].
      unfold array_store. rewrite length_app, length_replicate.
      assert (Hlt : (length pre <? length pre + S k)%nat = true) by (apply Nat.ltb_lt; lia).
      rewrite Hlt. cbn [replicate].
      rewrite insert_app_r_alt by lia. rewrite Nat.sub_diag. cbn [insert list_insert].
      assert (Hfull : (thrSz <=? S (length pre))%nat = false) by (apply Nat.leb_gt; lia).
      rewrite Hfull.
      specialize (IH Hok (pre ++ [s32 (strtol d_name 10)]) k).
      rewrite length_app in IH. cbn [length] in IH.
      rewrite <- app_assoc in IH. cbn [app] in IH.
      replace (length pre + 1)%nat with (S (length pre)) in IH by lia.
      rewrite IH by lia. rewrite <- app_assoc. cbn [app length].
      rewrite Nat.sub_succ.
      replace (length pre + S (length (task_ids ents)))%nat
        with (S (length pre) + length (task_ids ents))%nat by lia.
      reflexivity.
Qed.

(** What [arch_listThreads] leaves in the zeroed array of its two callers
    when the process has fewer than [MAX_THREAD_IN_TASK] threads. *)
Lemma listThreads_zeroed (ents : list readdir_t) :
  forallb readdir_ok ents = true ->
  (length (task_ids ents) < MAX_THREAD_IN_TASK)%nat ->
  arch_listThreads (replicate (MAX_THREAD_IN_TASK + 1) 0) MAX_THREAD_IN_TASK (Some ents)
  = Done (negb (length (task_ids ents) <? 1)%nat,
          task_ids ents
          ++ replicate (MAX_THREAD_IN_TASK + 1 - length (task_ids ents)) 0).
Proof using Type.
  intros Hok Hlen. unfold arch_listThreads.
  pose proof (listThreads_loop_appends MAX_THREAD_IN_TASK ents Hok []
                (MAX_THREAD_IN_TASK + 1)) as Hloop.
  cbn [app length Nat.add] in Hloop. rewrite Hloop by lia.
  unfold listThreads_zero_index, array_store.
  rewrite length_app, length_replicate.
  assert (Hlt : (length (task_ids ents) + 1
                 <? length (task_ids ents)
                    + (MAX_THREAD_IN_TASK + 1 - length (task_ids ents)))%nat = true)
    by (apply Nat.ltb_lt; lia).
  rewrite Hlt.
  rewrite insert_app_r_alt by lia. rewrite insert_replicate. reflexivity.
Qed.

Lemma attach_loop_visits (pid : Z) (seize : Z -> bool) (rest : list Z) :
  forall (visited : list Z) (k fuel : nat),
    Forall (fun t => t <> 0) rest ->
    (length rest < fuel)%nat ->
    (length visited + length rest < MAX_THREAD_IN_TASK)%nat ->
    (1 <= k)%nat ->
    attach_loop fuel (visited ++ rest ++ replicate k 0) pid seize (length visited)
    = List.filter (fun t => negb (t =? pid) && seize t) rest.
Proof using Type.
  induction rest as [|t rest IH]; intros visited k fuel Hnz Hfuel Hroom Hk.
  - destruct fuel as [|fuel]; [simpl in Hfuel; lia|]. cbn [attach_loop app List.filter].
    assert (Hi : (length visited <? MAX_THREAD_IN_TASK)%nat = true)
      by (apply Nat.ltb_lt; simpl in Hroom; lia).
    rewrite Hi. destruct k as [|k]; [lia|]. cbn [replicate].
    rewrite list_lookup_middle by reflexivity. reflexivity.
  - destruct fuel as [|fuel]; [simpl in Hfuel; lia|]. cbn [attach_loop List.filter].
    cbn [length] in Hfuel, Hroom.
    assert (Hi : (length visited <? MAX_THREAD_IN_TASK)%nat = true)
      by (apply Nat.ltb_lt; lia).
    rewrite Hi. cbn [app]. rewrite list_lookup_middle by reflexivity.
    inversion Hnz as [|? ? Ht Hrest]; subst.
    destruct (Z.eqb_spec t 0) as [|_]; [contradiction|].
    assert (Hnext : attach_loop fuel (visited ++ t :: rest ++ replicate k 0) pid seize
                      (S (length visited))
                    = List.filter (fun t => negb (t =? pid) && seize t) rest).
    { specialize (IH (visited ++ [t]) k fuel Hrest).
      rewrite length_app, <- app_assoc in IH. cbn [length app] in IH.
      replace (length visited + 1)%nat with (S (length visited)) in IH by lia.
      apply IH; lia. }
    rewrite Hnext.
    destruct (t =? pid); cbn [negb andb]; [reflexivity|].
    destruct (seize t); reflexivity.
Qed.

Lemma detach_loop_visits (rest : list Z) :
  forall (visited : list Z) (k fuel : nat),
    Forall (fun t => t <> 0) rest ->
    (length rest < fuel)%nat ->
    (length visited + length rest < MAX_THREAD_IN_TASK)%nat ->
    (1 <= k)%nat ->
    detach_loop fuel (visited ++ rest ++ replicate k 0) (length visited) = rest.
Proof using Type.
  induction rest as [|t rest IH]; intros visited k fuel Hnz Hfuel Hroom Hk.
  - destruct fuel as [|fuel]; [simpl in Hfuel; lia|]. cbn [detach_loop app].
    assert (Hi : (length visited <? MAX_THREAD_IN_TASK)%nat = true)
      by (apply Nat.ltb_lt; simpl in Hroom; lia).
    rewrite Hi. destruct k as [|k]; [lia|]. cbn [replicate].
    rewrite list_lookup_middle by reflexivity. reflexivity.
  - destruct fuel as [|fuel]; [simpl in Hfuel; lia|]. cbn [detach_loop].
    cbn [length] in Hfuel, Hroom.
    assert (Hi : (length visited <? MAX_THREAD_IN_TASK)%nat = true)
      by (apply Nat.ltb_lt; lia).
    rewrite Hi. cbn [app]. rewrite list_lookup_middle by reflexivity.
    inversion Hnz as [|? ? Ht Hrest]; subst.
    destruct (Z.eqb_spec t 0) as [|_]; [contradiction|].
    f_equal.
    specialize (IH (visited ++ [t]) k fuel Hrest).
    rewrite length_app, <- app_assoc in IH. cbn [length app] in IH.
    replace (length visited + 1)%nat with (S (length visited)) in IH by lia.
    apply IH; lia.
Qed.

Lemma ptraceAttach_listed (pid : Z) (seize : Z -> bool) (ents : list readdir_t) :
  seize pid = true ->
  forallb readdir_ok ents = true ->
  (1 <= length (task_ids ents) < MAX_THREAD_IN_TASK)%nat ->
  arch_ptraceAttach pid seize (Some ents)
  = Done (true, pid :: List.filter (fun t => negb (t =? pid) && seize t) (task_ids ents)).
Proof using Type.
  intros Hpid Hok Hlen. unfold arch_ptraceAttach. rewrite Hpid. cbn [negb].
  rewrite (listThreads_zeroed ents Hok) by lia.
  assert (Hone : (length (task_ids ents) <? 1)%nat = false) by (apply Nat.ltb_ge; lia).
  rewrite Hone. cbn [negb]. do 3 f_equal.
  apply (attach_loop_visits pid seize (task_ids ents) []);
    [apply task_ids_nonzero|lia|cbn [length]; lia|lia].
Qed.

(** X20. [arch_ptraceAttach] on a process with at least one and fewer than
    [MAX_THREAD_IN_TASK] threads: after [pid] itself, exactly the listed
    tasks other than [pid] whose [PTRACE_SEIZE] succeeds are seized, in the
    order of the directory, and the call reports success even if some of
    them could not be seized. When the task directory cannot be opened the
    call reports failure and [pid] stays seized. *)
Theorem ptraceAttach_seizes_listed_tasks (pid : Z) (seize : Z -> bool)
    (ents : list readdir_t) :
  seize pid = true ->
  forallb readdir_ok ents = true ->
  (1 <= length (task_ids ents) < MAX_THREAD_IN_TASK)%nat ->
  arch_ptraceAttach pid seize (Some ents)
  = Done (true, pid :: List.filter (fun t => negb (t =? pid) && seize t) (task_ids ents))
  /\ arch_ptraceAttach pid seize None = Done (false, [pid]).
Proof using Type.
  intros Hpid Hok Hlen. split; [apply ptraceAttach_listed; assumption|].
  unfold arch_ptraceAttach. rewrite Hpid. reflexivity.
Qed.

(** X21. [arch_ptraceDetach] on a process that still exists, with at least one
    and fewer than [MAX_THREAD_IN_TASK] threads, interrupts and detaches
    every listed task, in the order of the directory; so every task that
    [arch_ptraceAttach] seizes on the same listing, [pid] apart, is
    detached. A process that is gone is left alone. *)
Theorem ptraceDetach_detaches_listed_tasks (pid : Z) (seize : Z -> bool)
    (ents : list readdir_t) :
  forallb readdir_ok ents = true ->
  (1 <= length (task_ids ents) < MAX_THREAD_IN_TASK)%nat ->
  arch_ptraceDetach false (Some ents) = Done (task_ids ents)
  /\ arch_ptraceDetach true (Some ents) = Done []
  /\ (forall (ok : bool) (seized : list Z) (t : Z),
        arch_ptraceAttach pid seize (Some ents) = Done (ok, seized) ->
        In t seized -> t = pid \/ In t (task_ids ents)).
Proof using Type.
  intros Hok Hlen. split; [|split; [reflexivity|]].
  - unfold arch_ptraceDetach. rewrite (listThreads_zeroed ents Hok) by lia.
    assert (Hone : (length (task_ids ents) <? 1)%nat = false) by (apply Nat.ltb_ge; lia).
    rewrite Hone. cbn [negb]. f_equal.
    apply (detach_loop_visits (task_ids ents) []);
      [apply task_ids_nonzero|lia|cbn [length]; lia|lia].
  - intros ok seized t Hattach Hin.
    destruct (seize pid) eqn:Hpid.
    + rewrite (ptraceAttach_listed pid seize ents Hpid Hok Hlen) in Hattach.
      injection Hattach as _ Hseized. rewrite <- Hseized in Hin.
      destruct Hin as [Hin|Hin]; [left; symmetry; exact Hin|right].
      apply filter_In in Hin as [Hin _]. exact Hin.
    + unfold arch_ptraceAttach in Hattach. rewrite Hpid in Hattach.
      cbn [negb] in Hattach. injection Hattach as _ Hseized.
      rewrite <- Hseized in Hin. destruct Hin.
Qed.

(** X22. A process with [MAX_THREAD_IN_TASK] threads or more is beyond both
    callers of [arch_listThreads]: the terminating zero is stored outside
    the array of [MAX_THREAD_IN_TASK + 1] entries, when attaching and when
    detaching. *)
Theorem ptrace_thread_capacity (pid : Z) (seize : Z -> bool) (ents : list readdir_t) :
  forallb readdir_ok ents = true ->
  (MAX_THREAD_IN_TASK <= numeric_count ents)%nat ->
  (seize pid = true -> arch_ptraceAttach pid seize (Some ents) = Fault)
  /\ arch_ptraceDetach false (Some ents) = Fault.
Proof using Type.
  intros Hok Hfull.
  assert (Hlist : arch_listThreads (replicate (MAX_THREAD_IN_TASK + 1) 0)
                    MAX_THREAD_IN_TASK (Some ents) = Fault).
  { apply listThreads_full_faults; [exact Hok|unfold MAX_THREAD_IN_TASK in *; lia|].
    rewrite length_replicate. lia. }
  split.
  - intros Hpid. unfold arch_ptraceAttach. rewrite Hpid, Hlist. reflexivity.
  - unfold arch_ptraceDetach. rewrite Hlist. reflexivity.
Qed.

(** X23. [arch_ptraceWaitForPidStop] restarts [wait4] as often as it is
    interrupted, and reports a stop exactly when the first answer that is
    not an interruption is a status with [WIFSTOPPED]. *)
Theorem waitForPidStop_restarts (n : nat) (rets : list wait4_t) :
  arch_ptraceWaitForPidStop (replicate n Wait_EINTR ++ rets)
  = arch_ptraceWaitForPidStop rets
  /\ (arch_ptraceWaitForPidStop rets = Some true
      <-> exists (k : nat) (status : Z) (rest : list wait4_t),
            rets = replicate k Wait_EINTR ++ Wait_status status :: rest
            /\ WIFSTOPPED status = true).
Proof using Type.
  split.
  - induction n as [|n IH]; [reflexivity|exact IH].
  - split.
    + induction rets as [|r rets IH]; [discriminate|].
      destruct r as [| |status]; cbn [arch_ptraceWaitForPidStop]; intros H.
      * destruct (IH H) as (k & status & rest & -> & Hs).
        exists (S k), status, rest. split; [reflexivity|exact Hs].
      * discriminate.
      * exists 0%nat, status, rets. split; [reflexivity|]. congruence.
    + intros (k & status & rest & -> & Hs).
      induction k as [|k IH]; [cbn; rewrite Hs; reflexivity|exact IH].
Qed.
(** ** The same crash in two workers *)

Lemma config_fields (h1 h2 : honggfuzz_t) :
  config h1 = config h2 ->
  workDir h1 = workDir h2 /\ fileExtn h1 = fileExtn h2 /\ ignoreAddr h1 = ignoreAddr h2
  /\ saveUnique h1 = saveUnique h2 /\ useSanCov h1 = useSanCov h2
  /\ disableRandomization h1 = disableRandomization h2
  /\ flipRate_is_zero h1 = flipRate_is_zero h2 /\ useVerifier h1 = useVerifier h2
  /\ numMajorFrames h1 = numMajorFrames h2
  /\ symbolsWhitelist h1 = symbolsWhitelist h2
  /\ symbolsBlacklist h1 = symbolsBlacklist h2
  /\ blacklist h1 = blacklist h2.
Proof using Type.
  intros H.
  split; [exact (f_equal workDir H)|]. split; [exact (f_equal fileExtn H)|].
  split; [exact (f_equal ignoreAddr H)|]. split; [exact (f_equal saveUnique H)|].
  split; [exact (f_equal useSanCov H)|].
  split; [exact (f_equal disableRandomization H)|].
  split; [exact (f_equal flipRate_is_zero H)|]. split; [exact (f_equal useVerifier H)|].
  split; [exact (f_equal numMajorFrames H)|].
  split; [exact (f_equal symbolsWhitelist H)|].
  split; [exact (f_equal symbolsBlacklist H)|exact (f_equal blacklist H)].
Qed.

(** After [saveCrash] with a copy that cannot fail, the crash file exists,
    and only counters have changed in [honggfuzz_t]. *)
Lemma saveCrash_leaves_file (w w' : world) (st : stop_t) (funcs : list funcs_t)
    (funcCnt : nat) (su : bool) :
  st_copy_ok st = true ->
  saveCrash w st funcs funcCnt su = Done w' ->
  saveCrash_name w st su ∈ w_files w' /\ config (w_hfuzz w') = config (w_hfuzz w).
Proof using Type. section_clear.
  unfold saveCrash, saveCrash_name, files_copyFile. fields. intros Hok H.
  rewrite Hok in H.
  repeat case_match; simplify_eq; fields;
    repeat match goal with
           | Hd : bool_decide _ = true |- _ => apply bool_decide_eq_true in Hd
           end;
    (split; [set_solver|reflexivity]).
Qed.

Lemma unwind_or_pc_congr (h1 h2 : honggfuzz_t) (st1 st2 : stop_t) :
  saveUnique h1 = saveUnique h2 ->
  same_crash st1 st2 ->
  unwind_or_pc h1 st1 = unwind_or_pc h2 st2.
Proof using Type.
  intros Hsu (_ & _ & _ & Hpc & _ & Hunw & _). unfold unwind_or_pc.
  rewrite Hsu, Hpc, Hunw. reflexivity.
Qed.

(** The stage that computes the hash reads the configuration, the stop and
    nothing of the worker: two workers get the same frames and hash. *)
Lemma hash_stage_congr (w1 w2 : world) (st1 st2 : stop_t) (funcs : list funcs_t)
    (funcCnt : nat) (fuzzer1 : fuzzer_t) (su : bool) :
  saveUnique (w_hfuzz w1) = saveUnique (w_hfuzz w2) ->
  numMajorFrames (w_hfuzz w1) = numMajorFrames (w_hfuzz w2) ->
  same_crash st1 st2 ->
  hash_stage w1 st1 = (funcs, funcCnt, fuzzer1, su) ->
  exists fuzzer2 : fuzzer_t,
    hash_stage w2 st2 = (funcs, funcCnt, fuzzer2, su)
    /\ backtrace fuzzer2 = backtrace fuzzer1
    /\ crashFileName fuzzer2 = crashFileName (w_fuzzer w2)
    /\ fileName fuzzer2 = fileName (w_fuzzer w2).
Proof using Type.
  intros Hsu Hnum Hsame. unfold hash_stage.
  rewrite <- (unwind_or_pc_congr _ _ _ _ Hsu Hsame).
  destruct (unwind_or_pc (w_hfuzz w1) st1) as [[funcs0 funcCnt0] su0].
  unfold arch_hashCallstack, single_frame. rewrite <- Hnum.
  destruct Hsame as (_ & _ & _ & _ & _ & _ & Hlr). rewrite <- Hlr.
  intros H.
  repeat case_match; simplify_eq; eexists; (split; [reflexivity|]);
    repeat split; reflexivity.
Qed.

Lemma crash_name_congr (h1 h2 : honggfuzz_t) (f1 f2 : fuzzer_t) (st1 st2 : stop_t)
    (pc0 sig_addr : Z) :
  workDir h1 = workDir h2 ->
  fileExtn h1 = fileExtn h2 ->
  flipRate_is_zero h1 && useVerifier h1 = false ->
  flipRate_is_zero h2 && useVerifier h2 = false ->
  backtrace f1 = backtrace f2 ->
  same_crash st1 st2 ->
  crash_name h1 f1 st1 true pc0 sig_addr = crash_name h2 f2 st2 true pc0 sig_addr.
Proof using Type.
  intros Hwd Hext Hv1 Hv2 Hbt (Hsig & Hcode & _ & _ & Hinstr & _ & _).
  unfold crash_name. rewrite Hv1, Hv2, Hwd, Hext, Hbt, Hsig, Hcode, Hinstr.
  reflexivity.
Qed.

Lemma ignored_congr (h1 h2 : honggfuzz_t) (st1 st2 : stop_t) :
  ignoreAddr h1 = ignoreAddr h2 ->
  same_crash st1 st2 ->
  ignored h1 st1 = ignored h2 st2.
Proof using Type.
  intros Hia (_ & Hcode & Haddr & Hpc & _). unfold ignored.
  rewrite Hia, Hcode, Haddr, Hpc. reflexivity.
Qed.

Lemma saveCrash_name_congr (w1 w2 : world) (st1 st2 : stop_t) :
  config (w_hfuzz w1) = config (w_hfuzz w2) ->
  flipRate_is_zero (w_hfuzz w1) && useVerifier (w_hfuzz w1) = false ->
  backtrace (w_fuzzer w1) = backtrace (w_fuzzer w2) ->
  same_crash st1 st2 ->
  saveCrash_name w1 st1 true = saveCrash_name w2 st2 true.
Proof using Type.
  intros Hcfg Hver Hbt Hsame.
  destruct (config_fields _ _ Hcfg)
    as (Hwd & Hext & _ & _ & _ & Hdr & Hfr & Huv & _).
  unfold saveCrash_name. rewrite <- Hdr.
  destruct Hsame as (Hsig & Hcode & Haddr & Hpc & Hinstr & Hunw & Hlr).
  rewrite <- Hcode, <- Haddr, <- Hpc.
  apply crash_name_congr; try assumption.
  - rewrite <- Hfr, <- Huv. exact Hver.
  - repeat split; assumption.
Qed.

(** [saveCrash] when the crash file is there already. *)
Lemma saveCrash_existing (w : world) (st : stop_t) (funcs : list funcs_t)
    (funcCnt : nat) (su : bool) :
  saveCrash_name w st su ∈ w_files w ->
  exists w' : world,
    saveCrash w st funcs funcCnt su = Done w'
    /\ w_files w' = w_files w
    /\ uniqueCrashesCnt (w_hfuzz w') = uniqueCrashesCnt (w_hfuzz w)
    /\ crashesCnt (w_hfuzz w') = crashesCnt (w_hfuzz w)
    /\ crashFileName (w_fuzzer w') = "".
Proof using Type.
  unfold saveCrash, saveCrash_name, files_copyFile. fields. intros Hin.
  rewrite (bool_decide_eq_true_2 _ Hin).
  eexists. split; [reflexivity|]. repeat split.
Qed.

(** X24. A crash saved under its unique name is saved once. Let a worker
    handle a stop with no white list and no black list, with the local
    [saveUnique] still set after the hash stage, and with a copy that does
    not fail. When another worker, whose [crashFileName] is empty, then
    handles the same crash (another process, another time) against the
    same [honggfuzz_t] and work directory, the copy finds the file: the
    crash is counted in [crashesCnt] but not in [uniqueCrashesCnt], no file
    appears, and the worker's [crashFileName] is empty again. *)
Theorem unique_crash_saved_once (w1 w1' w2 : world) (st1 st2 : stop_t)
    (funcs : list funcs_t) (funcCnt : nat) (fuzzer1 : fuzzer_t) :
  unfiltered (w_hfuzz w1) ->
  ignored (w_hfuzz w1) st1 = false ->
  hash_stage w1 st1 = (funcs, funcCnt, fuzzer1, true) ->
  duplicate (backtrace (w_fuzzer w1)) fuzzer1 = false ->
  st_copy_ok st1 = true ->
  arch_ptraceSaveData w1 st1 = Done w1' ->
  same_crash st1 st2 ->
  w_hfuzz w2 = w_hfuzz w1' ->
  w_files w2 = w_files w1' ->
  crashFileName (w_fuzzer w2) = "" ->
  exists w2' : world,
    arch_ptraceSaveData w2 st2 = Done w2'
    /\ w_files w2' = w_files w1'
    /\ uniqueCrashesCnt (w_hfuzz w2') = uniqueCrashesCnt (w_hfuzz w1')
    /\ crashesCnt (w_hfuzz w2') = u64 (crashesCnt (w_hfuzz w1') + 1)
    /\ crashFileName (w_fuzzer w2') = "".
Proof using Type.
  intros (Hwl & Hbl & Hsbl & Hver) Hign Hstage Hdup Hcopy Hrun1 Hsame Hh2 Hf2 Hname2.
  (* the first run *)
  unfold arch_ptraceSaveData in Hrun1. rewrite Hign, Hstage, Hdup in Hrun1.
  unfold filter_and_save in Hrun1. fields.
  change (symbolsWhitelist (set_crashesCnt (w_hfuzz w1)
            (sync_fetch_and_add (crashesCnt (w_hfuzz w1)) 1)))
    with (symbolsWhitelist (w_hfuzz w1)) in Hrun1.
  change (blacklist (set_crashesCnt (w_hfuzz w1)
            (sync_fetch_and_add (crashesCnt (w_hfuzz w1)) 1)))
    with (blacklist (w_hfuzz w1)) in Hrun1.
  change (symbolsBlacklist (set_crashesCnt (w_hfuzz w1)
            (sync_fetch_and_add (crashesCnt (w_hfuzz w1)) 1)))
    with (symbolsBlacklist (w_hfuzz w1)) in Hrun1.
  rewrite Hwl, Hbl, Hsbl in Hrun1. cbn [is_set app] in Hrun1.
  apply (saveCrash_leaves_file _ _ _ _ _ _ Hcopy) in Hrun1 as [Hfile Hcfg].
  change (config (w_hfuzz w1') = config (w_hfuzz w1)) in Hcfg.
  destruct (config_fields _ _ Hcfg)
    as (_ & _ & Hia & Hsu & _ & _ & _ & _ & Hnum & Hwl' & Hsbl' & Hbl').
  (* the second run *)
  destruct w2 as [h2 fuzzer0 files2 calls2].
  cbn [w_hfuzz w_files w_fuzzer] in Hh2, Hf2, Hname2. subst h2 files2.
  destruct (hash_stage_congr w1 (mk_world (w_hfuzz w1') fuzzer0 (w_files w1') calls2)
              st1 st2 funcs funcCnt fuzzer1 true)
    as (fuzzer2 & Hstage2 & Hbt2 & Hcf2 & _);
    [symmetry; exact Hsu|symmetry; exact Hnum|exact Hsame|exact Hstage|].
  unfold arch_ptraceSaveData. cbn [w_hfuzz w_files w_fuzzer w_calls].
  rewrite <- (ignored_congr (w_hfuzz w1) (w_hfuzz w1') st1 st2)
    by (try symmetry; assumption).
  cbn [w_fuzzer] in Hcf2. rewrite Hname2 in Hcf2.
  rewrite Hign, Hstage2. unfold duplicate. rewrite Hcf2. cbn [String.eqb negb andb].
  unfold filter_and_save. fields.
  change (symbolsWhitelist (set_crashesCnt (w_hfuzz w1')
            (sync_fetch_and_add (crashesCnt (w_hfuzz w1')) 1)))
    with (symbolsWhitelist (w_hfuzz w1')).
  change (blacklist (set_crashesCnt (w_hfuzz w1')
            (sync_fetch_and_add (crashesCnt (w_hfuzz w1')) 1)))
    with (blacklist (w_hfuzz w1')).
  change (symbolsBlacklist (set_crashesCnt (w_hfuzz w1')
            (sync_fetch_and_add (crashesCnt (w_hfuzz w1')) 1)))
    with (symbolsBlacklist (w_hfuzz w1')).
  rewrite Hwl', Hwl, Hbl', Hbl, Hsbl', Hsbl. cbn [is_set app].
  match goal with
  | |- context [saveCrash ?W st2 funcs funcCnt true] =>
      destruct (saveCrash_existing W st2 funcs funcCnt true)
        as (w2' & Hrun2 & Hfiles & Huniq & Hcnt & Hempty)
  end.
  { match goal with
    | Hf : saveCrash_name ?W1 st1 true ∈ _ |- saveCrash_name ?W2 st2 true ∈ _ =>
        rewrite <- (saveCrash_name_congr W1 W2 st1 st2)
    end.
    - exact Hfile.
    - symmetry. exact Hcfg.
    - exact Hver.
    - symmetry. exact Hbt2.
    - exact Hsame. }
  exists w2'. split; [exact Hrun2|]. split; [exact Hfiles|]. split; [exact Huniq|].
  split; [exact Hcnt|exact Hempty].
Qed.

End Ptrace.

(** * The model run on concrete inputs *)

(** The functions at the instances of [Sample]. *)
Local Abbreviation saveData cpu hash :=
  (arch_ptraceSaveData cpu hash Sample._HF_SINGLE_FRAME_MASK Sample._HF_DYNFILE_SUB_MASK
     Sample.arch_btContainsWLSymbol Sample.arch_btContainsBLSymbol
     Sample.fastArray64Search Sample.fmt_p Sample.util_ssnprintf Sample._HF_REPORT_SIZE
     false).
Local Abbreviation exitSaveData cpu :=
  (arch_ptraceExitSaveData cpu Sample.util_hash Sample._HF_SINGLE_FRAME_MASK
     Sample._HF_DYNFILE_SUB_MASK Sample.fmt_p Sample.util_ssnprintf Sample._HF_REPORT_SIZE
     Sample.kLOGPREFIX Sample.HF_MSAN_EXIT_CODE Sample.HF_ASAN_EXIT_CODE
     Sample.HF_UBSAN_EXIT_CODE Sample.getline_block).
Local Abbreviation parseAsanReport cpu :=
  (arch_parseAsanReport cpu Sample.getline_block).
Local Abbreviation hashCallstack cpu :=
  (arch_hashCallstack cpu Sample.util_hash Sample._HF_SINGLE_FRAME_MASK).

(** The fingerprint of nine frames at [NMAJORFRAMES = 7]: the two arrays
    share their first seven PCs and get one hash. *)
Lemma hashCallstack_major_frames_witness :
  major_pcs (w_hfuzz Sample.world0) Sample.frames9a 9
  = major_pcs (w_hfuzz Sample.world0) Sample.frames9b 9
  /\ hashCallstack X86_64 (w_hfuzz Sample.world0) Sample.frames9a 9 true
     = hashCallstack X86_64 (w_hfuzz Sample.world0) Sample.frames9b 9 true.
Proof.
  split; [reflexivity|].
  refine (proj1 (proj2 (proj2
            (hashCallstack_major_frames X86_64 Sample.util_hash
               Sample._HF_SINGLE_FRAME_MASK (w_hfuzz Sample.world0)
               Sample.frames9a Sample.frames9b 9 true _)))).
  reflexivity.
Defined.

(** The add, shift and XOR hash keeps the value of three hexadecimal
    digits below 2^41, far from the mask bit. *)
Lemma util_hash_three_digits (v : Z) :
  Z.land (u64 (Sample.util_hash (hex_fixed 3 v))) (u64 Sample._HF_SINGLE_FRAME_MASK) = 0.
Proof.
  rewrite <- (hex_fixed_mod 3 v). change (16 ^ Z.of_nat 3) with 4096.
  assert (Hr : 0 <= v mod 4096 < 4096) by (apply Z.mod_pos_bound; lia).
  assert (Hall : forallb
                   (fun k =>
                      Z.land (u64 (Sample.util_hash (hex_fixed 3 (Z.of_nat k))))
                        (u64 Sample._HF_SINGLE_FRAME_MASK) =? 0)
                   (seq 0 4096) = true) by (vm_compute; reflexivity).
  rewrite forallb_forall in Hall.
  specialize (Hall (Z.to_nat (v mod 4096))).
  rewrite Z2Nat.id in Hall by lia. apply Z.eqb_eq, Hall, in_seq. lia.
Qed.

(** Scenario: SIGILL on ARM with the PC 0x1000 as only frame and the link
    register 0x2800, under [Sample.util_hash]: the stored hash carries the
    mask bit. *)
Lemma single_frame_mask_witness :
  exists w' : world,
    saveData ARM Sample.util_hash Sample.world0 Sample.sigill1 = Done w'
    /\ Z.testbit (backtrace (w_fuzzer w')) 63 = true.
Proof.
  eexists. split; [vm_compute; reflexivity|].
  refine (proj2 (proj2
            (proj2
               (single_frame_mask ARM Sample.util_hash Sample._HF_SINGLE_FRAME_MASK
                  Sample._HF_DYNFILE_SUB_MASK Sample.arch_btContainsWLSymbol
                  Sample.arch_btContainsBLSymbol Sample.fastArray64Search Sample.fmt_p
                  Sample.util_ssnprintf Sample._HF_REPORT_SIZE false Sample.world0 _
                  Sample.sigill1 [ {| pc := 0x1000; func := ""; line := 0 |} ] 1 true
                  util_hash_three_digits _ _ _)
               _ _)) _).
  - reflexivity.
  - reflexivity.
  - vm_compute. reflexivity.
  - reflexivity.
  - reflexivity.
  - reflexivity.
Defined.

(** C3, at the failing input. A report whose line after the header is
    ["READ of size 4 at 0xdeadc0de thread T0"] is parsed with [*op] set to
    ["WRITE"]. In general a line that holds the text at [cAddr] sets
    ["WRITE"] when it begins with ["READ"] and ["READ"] otherwise, and this
    is what a round of the loop leaves in [*op]. *)
Theorem asan_read_reported_as_write :
  (forall c lineptr op0 : string,
     strstr lineptr c <> None ->
     asan_op (Some c) lineptr op0
     = if strncmp_eq lineptr "READ" 4 then "WRITE" else "READ")
  /\ (forall (cpu : cpu_t) (a a' : asan_t) (b : block_t) (c : string),
        (10 <= strlen (str_drop (space_run (b_bytes b)) (b_bytes b)))%nat ->
        asan_cAddr_text b (cAddr a) = Done (Some c) ->
        strstr (str_drop (space_run (b_bytes b)) (b_bytes b)) c <> None ->
        asan_frames cpu a b = Continue a' \/ asan_frames cpu a b = Break a' ->
        op a'
        = if strncmp_eq (str_drop (space_run (b_bytes b)) (b_bytes b)) "READ" 4
          then "WRITE" else "READ")
  /\ parseAsanReport ARM 4321 (Some Sample.asan_log_read) [] 0 "UNKNOWN"
     = Done (0, [], 0xdeadc0de, "WRITE").
Proof.
  assert (Hop : forall c lineptr op0 : string,
             strstr lineptr c <> None ->
             asan_op (Some c) lineptr op0
             = if strncmp_eq lineptr "READ" 4 then "WRITE" else "READ").
  { intros c lineptr op0 Hin. rewrite asan_op_inverted.
    destruct (strstr lineptr c); [reflexivity|contradiction]. }
  split; [exact Hop|]. split.
  - intros cpu a a' b c Hlen Hc Hin Hround.
    rewrite (asan_frames_op cpu a a' b (Some c) Hlen Hc Hround). apply Hop. exact Hin.
  - vm_compute. reflexivity.
Qed.

(** Scenario: [segv3] a second time in the worker that saved it. *)
Lemma duplicate_dropped_witness :
  crashFileName (w_fuzzer Sample.world_saved) <> ""
  /\ exists w' : world,
       saveData X86_64 Sample.util_hash Sample.world_saved Sample.segv3 = Done w'
       /\ crashesCnt (w_hfuzz w') = 0
       /\ w_calls w' = []
       /\ w_files w' = {[ Sample.segv3_name ]}.
Proof.
  split; [discriminate|].
  destruct (duplicate_dropped X86_64 Sample.util_hash Sample._HF_SINGLE_FRAME_MASK
              Sample._HF_DYNFILE_SUB_MASK Sample.arch_btContainsWLSymbol
              Sample.arch_btContainsBLSymbol Sample.fastArray64Search Sample.fmt_p
              Sample.util_ssnprintf Sample._HF_REPORT_SIZE false Sample.world_saved
              Sample.segv3)
    as (w' & Hsave & Hh & Hc & _ & _ & Hcalls & Hfiles & _).
  - discriminate.
  - vm_compute. reflexivity.
  - exists w'. split; [exact Hsave|]. split; [exact Hc|]. split; [exact Hcalls|exact Hfiles].
Defined.

(** Scenario: [segv3] with its hash on the black list. *)
Lemma blacklisted_hash_dropped_witness :
  exists w' : world,
    saveData X86_64 Sample.util_hash Sample.world_blacklisted Sample.segv3 = Done w'
    /\ blCrashesCnt (w_hfuzz w') = 1
    /\ uniqueCrashesCnt (w_hfuzz w') = 0
    /\ w_calls w' = [Call_fastArray64Search Sample.segv3_hash]
    /\ w_files w' = ∅.
Proof.
  destruct (blacklisted_hash_dropped X86_64 Sample.util_hash Sample._HF_SINGLE_FRAME_MASK
              Sample._HF_DYNFILE_SUB_MASK Sample.arch_btContainsWLSymbol
              Sample.arch_btContainsBLSymbol Sample.fastArray64Search Sample.fmt_p
              Sample.util_ssnprintf Sample._HF_REPORT_SIZE false Sample.world_blacklisted
              Sample.segv3 Sample.frames3 3
              (set_backtrace (w_fuzzer Sample.world_blacklisted) Sample.segv3_hash) true
              [0x1000; Sample.segv3_hash; 2 ^ 62])
    as (w' & Hsave & Hbl & _ & Hu & Hcalls & Hfiles & _).
  - reflexivity.
  - vm_compute. reflexivity.
  - reflexivity.
  - left. reflexivity.
  - reflexivity.
  - vm_compute. discriminate.
  - exists w'. split; [exact Hsave|]. split; [exact Hbl|]. split; [exact Hu|].
    split; [exact Hcalls|exact Hfiles].
Defined.

(** C6, the claim as stated fails on the sanitizer exit path. The crash
    file of an MSan exit exists already: the copy returns false with
    [dstExists] set, and [crashFileName] is left holding that name. *)
Lemma exit_duplicate_keeps_crashFileName :
  exists w' : world,
    exitSaveData X86_64 Sample.world_msan_taken Sample.exit_msan = Done w'
    /\ w_calls w'
       = [Call_copyFile "/tmp/w/.honggfuzz.1.fuzz" Sample.msan_name false true]
    /\ crashFileName (w_fuzzer w') = Sample.msan_name
    /\ crashFileName (w_fuzzer w') <> "".
Proof.
  eexists. split; [vm_compute; reflexivity|].
  split; [reflexivity|]. split; [reflexivity|]. discriminate.
Qed.

(** Scenario: the crash file exists already, on the signal path and on the
    sanitizer exit path. *)
Lemma copy_onto_existing_file_witness :
  (exists w' : world,
     saveData X86_64 Sample.util_hash Sample.world_taken Sample.segv3 = Done w'
     /\ reported_duplicate Sample.world_taken w')
  /\ (exists w' : world,
        exitSaveData X86_64 Sample.world_msan_taken Sample.exit_msan = Done w'
        /\ kept_duplicate Sample.world_msan_taken w' Sample.msan_name).
Proof.
  split.
  - eexists. split; [vm_compute; reflexivity|].
    refine (proj1
              (copy_onto_existing_file X86_64 Sample.util_hash
                 Sample._HF_SINGLE_FRAME_MASK Sample._HF_DYNFILE_SUB_MASK
                 Sample.arch_btContainsWLSymbol Sample.arch_btContainsBLSymbol
                 Sample.fastArray64Search Sample.fmt_p Sample.util_ssnprintf
                 Sample._HF_REPORT_SIZE Sample.kLOGPREFIX Sample.HF_MSAN_EXIT_CODE
                 Sample.HF_ASAN_EXIT_CODE Sample.HF_UBSAN_EXIT_CODE false
                 Sample.getline_block Sample.world_taken _
                 [Call_copyFile "/tmp/w/.honggfuzz.1.fuzz" Sample.segv3_name false true]
                 "/tmp/w/.honggfuzz.1.fuzz" Sample.segv3_name _ _)
              Sample.segv3 _).
    + reflexivity.
    + left. reflexivity.
    + vm_compute. reflexivity.
  - eexists. split; [vm_compute; reflexivity|].
    refine (proj2
              (copy_onto_existing_file X86_64 Sample.util_hash
                 Sample._HF_SINGLE_FRAME_MASK Sample._HF_DYNFILE_SUB_MASK
                 Sample.arch_btContainsWLSymbol Sample.arch_btContainsBLSymbol
                 Sample.fastArray64Search Sample.fmt_p Sample.util_ssnprintf
                 Sample._HF_REPORT_SIZE Sample.kLOGPREFIX Sample.HF_MSAN_EXIT_CODE
                 Sample.HF_ASAN_EXIT_CODE Sample.HF_UBSAN_EXIT_CODE false
                 Sample.getline_block Sample.world_msan_taken _
                 [Call_copyFile "/tmp/w/.honggfuzz.1.fuzz" Sample.msan_name false true]
                 "/tmp/w/.honggfuzz.1.fuzz" Sample.msan_name _ _)
              Sample.exit_msan _).
    + reflexivity.
    + left. reflexivity.
    + vm_compute. reflexivity.
Defined.

(** C7, the claim as stated fails. The signal is not user-induced and the
    fault address 0x200 is below the floor 0x10000, but the PC is zero: the
    crash is counted and its file is saved. *)
Lemma low_address_with_zero_pc_saved :
  SI_FROMUSER (st_si_code Sample.segv_low_pc0) = false
  /\ st_si_addr Sample.segv_low_pc0 < ignoreAddr (w_hfuzz Sample.world_floor)
  /\ exists w' : world,
       saveData X86_64 Sample.util_hash Sample.world_floor Sample.segv_low_pc0 = Done w'
       /\ crashesCnt (w_hfuzz w') = 1
       /\ uniqueCrashesCnt (w_hfuzz w') = 1
       /\ w_files w' <> w_files Sample.world_floor
       /\ crashFileName (w_fuzzer w') <> "".
Proof.
  split; [reflexivity|]. split; [reflexivity|].
  eexists. split; [vm_compute; reflexivity|].
  split; [reflexivity|]. split; [reflexivity|]. split; [|discriminate].
  intros H. apply (f_equal (fun s : gset string => bool_decide (s = ∅))) in H.
  vm_compute in H. discriminate.
Qed.

(** Scenario: ignore-below-addr suppression. *)
Lemma ignored_below_ignoreAddr_witness :
  saveData X86_64 Sample.util_hash Sample.world_floor Sample.segv_low
  = Done Sample.world_floor.
Proof.
  apply (ignored_below_ignoreAddr X86_64 Sample.util_hash Sample._HF_SINGLE_FRAME_MASK
           Sample._HF_DYNFILE_SUB_MASK Sample.arch_btContainsWLSymbol
           Sample.arch_btContainsBLSymbol Sample.fastArray64Search Sample.fmt_p
           Sample.util_ssnprintf Sample._HF_REPORT_SIZE false Sample.world_floor
           Sample.segv_low).
  - reflexivity.
  - discriminate.
  - reflexivity.
Defined.

(** Scenario: a sanitizer exit in a worker that holds a crash file name. *)
Lemma exit_first_hit_only_witness :
  exitSaveData X86_64 Sample.world_saved Sample.exit_msan = Done Sample.world_saved.
Proof.
  apply (exit_first_hit_only X86_64 Sample.util_hash Sample._HF_SINGLE_FRAME_MASK
           Sample._HF_DYNFILE_SUB_MASK Sample.fmt_p Sample.util_ssnprintf
           Sample._HF_REPORT_SIZE Sample.kLOGPREFIX Sample.HF_MSAN_EXIT_CODE
           Sample.HF_ASAN_EXIT_CODE Sample.HF_UBSAN_EXIT_CODE Sample.getline_block
           Sample.world_saved Sample.exit_msan).
  discriminate.
Defined.

(** Scenario: three threads and [thrSz = 3]. The array of four entries is
    filled to capacity and the zero goes to index 4. *)
Lemma listThreads_terminator_witness :
  listThreads_zero_index 3 = length [1000; 1001; 1002; 0]
  /\ arch_listThreads [0; 0; 0; 0] 3 (Some (Sample.task_dir 3)) = Fault.
Proof.
  refine (proj2 (proj2 (proj2 (proj2
            (listThreads_terminator [0; 0; 0; 0] [1000; 1001; 1002; 0] 3 3
               (Sample.task_dir 3) _ _)))) _); reflexivity.
Defined.

(** A process with 4096 threads: [arch_ptraceAttach] faults. *)
Example ptraceAttach_4096_threads :
  arch_ptraceAttach 1000 (fun _ => true) (Some (Sample.task_dir 4096)) = Fault.
Proof.
  apply ptraceAttach_full_faults; [reflexivity|vm_compute; reflexivity|].
  apply Nat.leb_le. vm_compute. reflexivity.
Qed.



(** * Further runs *)

Local Abbreviation analyzeData cpu :=
  (arch_ptraceAnalyzeData cpu Sample.util_hash Sample._HF_SINGLE_FRAME_MASK).
Local Abbreviation analyze cpu android :=
  (arch_ptraceAnalyze cpu Sample.util_hash Sample._HF_SINGLE_FRAME_MASK
     Sample._HF_DYNFILE_SUB_MASK Sample.arch_btContainsWLSymbol
     Sample.arch_btContainsBLSymbol Sample.fastArray64Search Sample.fmt_p
     Sample.util_ssnprintf Sample._HF_REPORT_SIZE Sample.kLOGPREFIX
     Sample.HF_MSAN_EXIT_CODE Sample.HF_ASAN_EXIT_CODE Sample.HF_UBSAN_EXIT_CODE
     false Sample.getline_block android true).

(** [Sample.frames3] and the same code loaded elsewhere get one hash. *)
Lemma hash_low_twelve_bits_witness :
  map (fun p => p mod 4096) (major_pcs (w_hfuzz Sample.world0) Sample.frames3 3)
  = map (fun p => p mod 4096) (major_pcs (w_hfuzz Sample.world0) Scenario.frames3_moved 3)
  /\ hashCallstack X86_64 (w_hfuzz Sample.world0) Sample.frames3 3 true
     = hashCallstack X86_64 (w_hfuzz Sample.world0) Scenario.frames3_moved 3 true.
Proof.
  split; [vm_compute; reflexivity|].
  refine (hash_low_twelve_bits X86_64 Sample.util_hash Sample._HF_SINGLE_FRAME_MASK
            (w_hfuzz Sample.world0) Sample.frames3 Scenario.frames3_moved 3 true _).
  vm_compute. reflexivity.
Defined.

(** Two frames in either order get one hash. *)
Lemma hash_order_insensitive_witness :
  major_pcs (w_hfuzz Sample.world0) Scenario.frames_ab 2
  ≡ₚ major_pcs (w_hfuzz Sample.world0) Scenario.frames_ba 2
  /\ hashCallstack X86_64 (w_hfuzz Sample.world0) Scenario.frames_ab 2 false
     = hashCallstack X86_64 (w_hfuzz Sample.world0) Scenario.frames_ba 2 false.
Proof.
  split; [exact (perm_swap 0x400abc 0x400100 [])|].
  refine (hash_order_insensitive X86_64 Sample.util_hash Sample._HF_SINGLE_FRAME_MASK
            (w_hfuzz Sample.world0) Scenario.frames_ab Scenario.frames_ba 2 false _).
  exact (perm_swap 0x400abc 0x400100 []).
Defined.

(** A stack that passes twice through PCs ending in [0x234] is hashed like
    the stack without these two frames. *)
Lemma hash_equal_frames_cancel_witness :
  pc Scenario.frame_rec mod 4096 = pc Scenario.frame_rec' mod 4096
  /\ hashCallstack X86_64 (w_hfuzz Sample.world0)
       [Scenario.frame_top; Scenario.frame_rec; Scenario.frame_rec'; Scenario.frame_main]
       4 false
     = hashCallstack X86_64 (w_hfuzz Sample.world0)
         [Scenario.frame_top; Scenario.frame_main] 2 false.
Proof.
  split; [reflexivity|].
  refine (hash_equal_frames_cancel X86_64 Sample.util_hash Sample._HF_SINGLE_FRAME_MASK
            (w_hfuzz Sample.world0) [Scenario.frame_top] [Scenario.frame_main]
            Scenario.frame_rec Scenario.frame_rec' _ _).
  - reflexivity.
  - apply Nat.leb_le. reflexivity.
Defined.

(** [Sample.segv3], three frames: both workers store one hash. *)
Lemma analyzeData_agrees_with_saveData_witness :
  exists w' : world,
    saveData X86_64 Sample.util_hash Sample.world0 Sample.segv3 = Done w'
    /\ backtrace (w_fuzzer (analyzeData X86_64 Sample.world0 Sample.segv3 216))
       = backtrace (w_fuzzer w').
Proof.
  eexists. split; [vm_compute; reflexivity|].
  refine (proj1
            (analyzeData_agrees_with_saveData X86_64 Sample.util_hash
               Sample._HF_SINGLE_FRAME_MASK Sample._HF_DYNFILE_SUB_MASK
               Sample.arch_btContainsWLSymbol Sample.arch_btContainsBLSymbol
               Sample.fastArray64Search Sample.fmt_p Sample.util_ssnprintf
               Sample._HF_REPORT_SIZE false Sample.world0 _ Sample.segv3 216 _ _ _ _)).
  - discriminate.
  - apply Nat.leb_le. reflexivity.
  - reflexivity.
  - vm_compute. reflexivity.
Defined.

(** [Sample.segv3] saved in an empty work directory: no file is lost. *)
Lemma saveData_accounting_witness :
  exists w' : world,
    saveData X86_64 Sample.util_hash Sample.world0 Sample.segv3 = Done w'
    /\ w_files Sample.world0 ⊆ w_files w'.
Proof.
  eexists. split; [vm_compute; reflexivity|].
  refine (proj1 (proj2
            (saveData_accounting X86_64 Sample.util_hash
               Sample._HF_SINGLE_FRAME_MASK Sample._HF_DYNFILE_SUB_MASK
               Sample.arch_btContainsWLSymbol Sample.arch_btContainsBLSymbol
               Sample.fastArray64Search Sample.fmt_p Sample.util_ssnprintf
               Sample._HF_REPORT_SIZE false Sample.world0 _ Sample.segv3 _))).
  vm_compute. reflexivity.
Defined.

(** [Sample.segv3] with [main] on the white list, its hash and [foo] on the
    black lists: it is saved under the time-stamped name, and no
    black-listed crash is counted. *)
Lemma whitelist_overrides_blacklists_witness :
  exists w' : world,
    saveData X86_64 Sample.util_hash Scenario.world_whitelist Sample.segv3 = Done w'
    /\ crashFileName (w_fuzzer w') = Scenario.segv3_stamped_name
    /\ blCrashesCnt (w_hfuzz w') = blCrashesCnt (w_hfuzz Scenario.world_whitelist).
Proof.
  eexists. split; [vm_compute; reflexivity|]. split; [vm_compute; reflexivity|].
  refine (proj1
            (whitelist_overrides_blacklists X86_64 Sample.util_hash
               Sample._HF_SINGLE_FRAME_MASK Sample._HF_DYNFILE_SUB_MASK
               Sample.arch_btContainsWLSymbol Sample.arch_btContainsBLSymbol
               Sample.fastArray64Search Sample.fmt_p Sample.util_ssnprintf
               Sample._HF_REPORT_SIZE false Scenario.world_whitelist _ Sample.segv3
               Sample.frames3 3
               (set_backtrace (w_fuzzer Sample.world0) Sample.segv3_hash) true
               ["main"] "main" _ _ _ _ _ _)).
  - reflexivity.
  - vm_compute. reflexivity.
  - reflexivity.
  - reflexivity.
  - vm_compute. reflexivity.
  - vm_compute. reflexivity.
Defined.

(** An exit with the MSan code: [blCrashesCnt] is not touched. *)
Lemma exitSaveData_accounting_witness :
  exists w' : world,
    exitSaveData X86_64 Sample.world0 Sample.exit_msan = Done w'
    /\ blCrashesCnt (w_hfuzz w') = blCrashesCnt (w_hfuzz Sample.world0).
Proof.
  eexists. split; [vm_compute; reflexivity|].
  refine (proj1
            (exitSaveData_accounting X86_64 Sample.util_hash
               Sample._HF_SINGLE_FRAME_MASK Sample._HF_DYNFILE_SUB_MASK Sample.fmt_p
               Sample.util_ssnprintf Sample._HF_REPORT_SIZE Sample.kLOGPREFIX
               Sample.HF_MSAN_EXIT_CODE Sample.HF_ASAN_EXIT_CODE Sample.HF_UBSAN_EXIT_CODE
               Sample.getline_block Sample.world0 _ Sample.exit_msan _)).
  vm_compute. reflexivity.
Defined.

(** An ASan exit whose log is missing, handled twice: two crashes are
    counted and nothing is saved. *)
Lemma exit_missing_log_recounts_witness :
  exists w1 w2 : world,
    exitSaveData X86_64 Sample.world0 Scenario.exit_asan_nolog = Done w1
    /\ exitSaveData X86_64 w1 Scenario.exit_asan_nolog = Done w2
    /\ crashFileName (w_fuzzer w2) = ""
    /\ w_files w2 = ∅
    /\ crashesCnt (w_hfuzz w2) = 2.
Proof.
  destruct (exit_missing_log_recounts X86_64 Sample.util_hash
              Sample._HF_SINGLE_FRAME_MASK Sample._HF_DYNFILE_SUB_MASK Sample.fmt_p
              Sample.util_ssnprintf Sample._HF_REPORT_SIZE Sample.kLOGPREFIX
              Sample.HF_MSAN_EXIT_CODE Sample.HF_ASAN_EXIT_CODE Sample.HF_UBSAN_EXIT_CODE
              Sample.getline_block Sample.world0 Scenario.exit_asan_nolog eq_refl eq_refl
              eq_refl)
    as (w1 & w2 & H1 & H2 & _ & Hf2 & _ & Hfiles & _ & _ & Hc).
  exists w1, w2. split; [exact H1|]. split; [exact H2|].
  split; [rewrite Hf2; reflexivity|]. split; [exact Hfiles|exact Hc].
Defined.

(** [Sample.asan_log_flush]: two frames are returned and the entries from
    the third on are untouched. *)
Lemma parseAsanReport_frames_bounded_witness :
  exists (funcs' : list funcs_t) (crashAddr' : Z) (op' : string),
    arch_parseAsanReport ARM Sample.getline_block 4321 (Some Sample.asan_log_flush) [] 0
      "UNKNOWN"
    = Done (2, funcs', crashAddr', op')
    /\ forall i : nat, 2 <= Z.of_nat i -> funcs_get funcs' i = funcs_get [] i.
Proof.
  do 3 eexists. split; [vm_compute; reflexivity|].
  refine (proj1 (proj2 (proj2
            (parseAsanReport_frames_bounded ARM Sample.getline_block 4321
               (Some Sample.asan_log_flush) [] _ 0 _ 2 "UNKNOWN" _ _)))).
  vm_compute. reflexivity.
Defined.

(** [Sample.asan_log], the report of process 4321, read for process 999. *)
Lemma parseAsanReport_needs_header_witness :
  arch_parseAsanReport ARM Sample.getline_block 999 (Some Sample.asan_log) [] 0 "UNKNOWN"
  = Done (0, [], 0, "UNKNOWN").
Proof.
  refine (parseAsanReport_needs_header ARM Sample.getline_block 999 Sample.asan_log [] 0
            "UNKNOWN" _).
  vm_compute. reflexivity.
Defined.

(** The frame [(/system/lib/libc.so+0x196177)]: the offset stored is
    0x19617. *)
Lemma asan_frame_offset_loses_last_digit_witness :
  exists (b' : block_t) (f : funcs_t),
    asan_frame ARM Scenario.frame_block 0 funcs_zero = Done (b', f)
    /\ func f = "/system/lib/libc.so"
    /\ line f = 0x19617.
Proof.
  destruct (asan_target (b_bytes Scenario.frame_block) 0) as [[t mem3]|] eqn:Ht;
    [|vm_compute in Ht; discriminate].
  destruct (asan_frame_offset_loses_last_digit ARM Scenario.frame_block 0 funcs_zero t mem3
              "/system/lib/libc.so" "0x19617" "7" LF Ht)
    as (b' & f & Hf & Hfunc & Hline).
  - vm_compute in Ht. injection Ht as <- <-. vm_compute. reflexivity.
  - reflexivity.
  - reflexivity.
  - split; vm_compute; discriminate.
  - exists b', f. split; [exact Hf|]. split; [rewrite Hfunc; reflexivity|].
    rewrite Hline. vm_compute. reflexivity.
Defined.

(** [process_vm_readv] fails and leaves [errno] at [EFAULT], which [ptrace]
    does not clear; every word could be peeked, and nothing is read. *)
Lemma getProcMem_word_fallback_witness :
  (arch_getProcMem X86_64 false (replicate 16 0) 16 0x400100 None 14
     (fun _ => Some Scenario.word8)).1 = 0%nat.
Proof.
  refine (getProcMem_word_fallback X86_64 false (replicate 16 0) 16 0x400100 None 14
            (fun _ => Some Scenario.word8) _).
  discriminate.
Defined.

(** The text of the disassembler with its spaces. *)
Lemma getInstrStr_clean_witness :
  str_forall instr_clean
    (cstr (arch_getInstrStr X86_64 true Scenario._HF_INSTR_SZ false 0
             Scenario.instr_peek_only).2) = true.
Proof.
  refine (getInstrStr_clean X86_64 true Scenario._HF_INSTR_SZ false 0
            Scenario.instr_peek_only _).
  intros buf memsz. apply Nat.leb_le. reflexivity.
Defined.

(** PowerPC64: every word can be peeked, none is. *)
Lemma getInstrStr_not_mapped_witness :
  arch_getInstrStr POWERPC64 true Scenario._HF_INSTR_SZ false 0 Scenario.instr_ppc64
  = (0x10000100, "[NOT_MMAPED]").
Proof.
  refine (getInstrStr_not_mapped POWERPC64 true Scenario._HF_INSTR_SZ false 0
            Scenario.instr_ppc64 _ _ _).
  - discriminate.
  - discriminate.
  - right. left. reflexivity.
Defined.

(** A SIGSEGV stop of the main worker: the crash is saved and the tracee
    resumed with SIGSEGV. *)
Lemma analyze_dispatch_witness :
  exists (w' : world) (cont : option Z),
    analyze X86_64 false Sample.world0 Scenario.status_segv 1234 Scenario.ev_segv
    = Done (Analysed w' cont)
    /\ cont = Some SIGSEGV.
Proof.
  do 2 eexists. split; [vm_compute; reflexivity|].
  refine (proj1
            (analyze_dispatch X86_64 Sample.util_hash Sample._HF_SINGLE_FRAME_MASK
               Sample._HF_DYNFILE_SUB_MASK Sample.arch_btContainsWLSymbol
               Sample.arch_btContainsBLSymbol Sample.fastArray64Search Sample.fmt_p
               Sample.util_ssnprintf Sample._HF_REPORT_SIZE Sample.kLOGPREFIX
               Sample.HF_MSAN_EXIT_CODE Sample.HF_ASAN_EXIT_CODE Sample.HF_UBSAN_EXIT_CODE
               false Sample.getline_block false true Sample.world0 _ Scenario.status_segv
               1234 Scenario.ev_segv (Some 11) _)).
  vm_compute. reflexivity.
Defined.

(** The same stop in a worker that is not the main one. *)
Lemma analyze_signal_stop_of_other_worker_witness :
  exists w' : world,
    analyze X86_64 false Scenario.world_other Scenario.status_segv 1234 Scenario.ev_segv
    = Done (Analysed w' (Some SIGSEGV))
    /\ w_hfuzz w' = w_hfuzz Scenario.world_other
    /\ w_files w' = ∅
    /\ w_calls w' = [].
Proof.
  destruct (analyze_signal_stop_of_other_worker X86_64 Sample.util_hash
              Sample._HF_SINGLE_FRAME_MASK Sample._HF_DYNFILE_SUB_MASK
              Sample.arch_btContainsWLSymbol Sample.arch_btContainsBLSymbol
              Sample.fastArray64Search Sample.fmt_p Sample.util_ssnprintf
              Sample._HF_REPORT_SIZE Sample.kLOGPREFIX Sample.HF_MSAN_EXIT_CODE
              Sample.HF_ASAN_EXIT_CODE Sample.HF_UBSAN_EXIT_CODE false Sample.getline_block
              false true Scenario.world_other Scenario.status_segv 1234 Scenario.ev_segv)
    as (w' & Hrun & Hh & Hf & Hc & _).
  - reflexivity.
  - reflexivity.
  - reflexivity.
  - reflexivity.
  - exists w'. split; [exact Hrun|]. split; [exact Hh|]. split; [exact Hf|exact Hc].
Defined.

(** Three threads, of which 1002 cannot be seized. *)
Lemma ptraceAttach_seizes_listed_tasks_witness :
  arch_ptraceAttach 1000 Scenario.seize_but_1002 (Some (Sample.task_dir 3))
  = Done (true, [1000; 1001]).
Proof.
  refine (proj1
            (ptraceAttach_seizes_listed_tasks 1000 Scenario.seize_but_1002
               (Sample.task_dir 3) _ _ _)).
  - reflexivity.
  - reflexivity.
  - split; apply Nat.leb_le; reflexivity.
Defined.

(** The three threads are detached. *)
Lemma ptraceDetach_detaches_listed_tasks_witness :
  arch_ptraceDetach false (Some (Sample.task_dir 3)) = Done [1000; 1001; 1002].
Proof.
  refine (proj1
            (ptraceDetach_detaches_listed_tasks 1000 Scenario.seize_but_1002
               (Sample.task_dir 3) _ _)).
  - reflexivity.
  - split; apply Nat.leb_le; reflexivity.
Defined.

(** Detaching from a process with 4096 threads. *)
Lemma ptrace_thread_capacity_witness :
  arch_ptraceDetach false (Some (Sample.task_dir 4096)) = Fault.
Proof.
  refine (proj2
            (ptrace_thread_capacity 1000 (fun _ => true) (Sample.task_dir 4096) _ _)).
  - vm_compute. reflexivity.
  - apply Nat.leb_le. vm_compute. reflexivity.
Defined.

(** [Sample.segv3] saved by the main worker, then met again by another
    worker in another process: one file, one unique crash. *)
Lemma unique_crash_saved_once_witness :
  exists w1' w2' : world,
    saveData X86_64 Sample.util_hash Sample.world0 Sample.segv3 = Done w1'
    /\ saveData X86_64 Sample.util_hash
         (mk_world (w_hfuzz w1') (w_fuzzer Scenario.world_other) (w_files w1') [])
         Scenario.segv3_again = Done w2'
    /\ w_files w2' = w_files w1'
    /\ uniqueCrashesCnt (w_hfuzz w2') = uniqueCrashesCnt (w_hfuzz w1')
    /\ crashFileName (w_fuzzer w2') = "".
Proof.
  destruct (saveData X86_64 Sample.util_hash Sample.world0 Sample.segv3)
    as [w1'|] eqn:H1.
  2: { vm_compute in H1. discriminate H1. }
  destruct (unique_crash_saved_once X86_64 Sample.util_hash Sample._HF_SINGLE_FRAME_MASK
              Sample._HF_DYNFILE_SUB_MASK Sample.arch_btContainsWLSymbol
              Sample.arch_btContainsBLSymbol Sample.fastArray64Search Sample.fmt_p
              Sample.util_ssnprintf Sample._HF_REPORT_SIZE false Sample.world0 w1'
              (mk_world (w_hfuzz w1') (w_fuzzer Scenario.world_other) (w_files w1') [])
              Sample.segv3 Scenario.segv3_again Sample.frames3 3
              (set_backtrace (w_fuzzer Sample.world0) Sample.segv3_hash))
    as (w2' & H2 & Hfiles & Huniq & _ & Hname).
  - repeat split.
  - reflexivity.
  - vm_compute. reflexivity.
  - reflexivity.
  - reflexivity.
  - exact H1.
  - repeat split.
  - reflexivity.
  - reflexivity.
  - reflexivity.
  - exists w1', w2'. split; [reflexivity|]. split; [exact H2|].
    split; [exact Hfiles|]. split; [exact Huniq|exact Hname].
Defined.

(** [Sample.asan_log], whose frame lines are indented as the sanitizer
    writes them: the first of them is the line after the one that names the
    access. *)
Lemma parseAsanReport_indented_line_faults_witness :
  arch_parseAsanReport ARM Sample.getline_block 4321 (Some Sample.asan_log) [] 0 "UNKNOWN"
  = Fault.
Proof.
  refine (parseAsanReport_indented_line_faults ARM Sample.getline_block 4321
            [ "=================================================================" +:+ LF ]
            [ "READ of size 4 at 0xdeadc0de thread T0" +:+ LF ]
            (map (fun s => s +:+ LF)
               [ "    #1 0xaa860200  (/system/lib/libc.so+0x196200)";
                 "";
                 "0xdeadc0de is located 0 bytes inside of 4-byte region" ])
            ("==4321==ERROR: AddressSanitizer: heap-use-after-free on address 0xdeadc0de at pc 0xaa860177 bp 0xbe8 sp 0xbe4" +:+ LF)
            " " ("   #0 0xaa860177  (/system/lib/libc.so+0x196177)" +:+ LF)
            [] 0 "UNKNOWN" _ _ _ _).
  - vm_compute. reflexivity.
  - vm_compute. reflexivity.
  - vm_compute. reflexivity.
  - reflexivity.
Defined.
